(** * asset_project: the point-section rotation and the background preload

    A shallow embedding of the parts of [js/script.js] that compute
    something: the viewport-to-radius mapping [getPointRadius], the
    scroll-driven pose computation of [initPointAnimation], the resize
    handler, and the image preload routine [aggressivePreloadImages];
    then the callers of the preload, the utilities [isMobile],
    [waitForLibraries] and [debounce], the consultation modal
    ([initModal], [openConsultationModal], [closeConsultationModal]) and
    the hamburger menu of [initHeader].

    Numbers.  JavaScript numbers are IEEE doubles.  They are idealised here
    as extended reals: a finite number is an exact real (no rounding, no
    overflow, a single unsigned zero), and the three special values
    [Infinity], [-Infinity] and [NaN] are kept, with the IEEE rules for
    them (so [0/0] is [NaN] and nothing ever throws on arithmetic).
    [Math.PI] is the real number pi, the literal [0.3] is 3/10.

    Rounding.  The idealisation is sound for what is written where and
    when, and for results that rounding cannot change.  Where the last
    place of a double decides, the angle expressions are embedded a second
    time over the binary64 floats of the kernel (module [Binary64]), with
    every operation rounded as JavaScript rounds it. *)

From Stdlib Require Import Reals Lra Lia ZArith List String Bool Zfloor.
From Stdlib Require PrimFloat.
Import ListNotations.

(* ================================================================== *)
(** * JavaScript numbers *)
(* ================================================================== *)

Module JsNum.

Inductive number : Type :=
| Fin (x : R)
| PosInf
| NegInf
| NaN.

Inductive sign : Type := Negative | Zero | Positive.

Definition Rsign (x : R) : sign :=
  if Rlt_dec x 0 then Negative
  else if Rlt_dec 0 x then Positive
  else Zero.

Definition sign_mul (s t : sign) : sign :=
  match s, t with
  | Zero, _ | _, Zero => Zero
  | Positive, Positive | Negative, Negative => Positive
  | _, _ => Negative
  end.

(** The infinity of a given sign; a zero sign stands for the undefined
    forms (0 * Infinity, 0 / 0), which are [NaN]. *)
Definition inf_of_sign (s : sign) : number :=
  match s with
  | Positive => PosInf
  | Negative => NegInf
  | Zero => NaN
  end.

Definition nsign (a : number) : sign :=
  match a with
  | Fin x => Rsign x
  | PosInf => Positive
  | NegInf => Negative
  | NaN => Zero
  end.

Definition of_Z (n : Z) : number := Fin (IZR n).
Definition of_nat (n : nat) : number := Fin (INR n).

(** Unary minus. *)
Definition neg (a : number) : number :=
  match a with
  | Fin x => Fin (- x)
  | PosInf => NegInf
  | NegInf => PosInf
  | NaN => NaN
  end.

(** [a + b]. *)
Definition add (a b : number) : number :=
  match a, b with
  | NaN, _ | _, NaN => NaN
  | Fin x, Fin y => Fin (x + y)
  | PosInf, NegInf | NegInf, PosInf => NaN
  | PosInf, _ | _, PosInf => PosInf
  | NegInf, _ | _, NegInf => NegInf
  end.

(** [a - b]. *)
Definition sub (a b : number) : number := add a (neg b).

(** [a * b]. *)
Definition mul (a b : number) : number :=
  match a, b with
  | NaN, _ | _, NaN => NaN
  | Fin x, Fin y => Fin (x * y)
  | _, _ => inf_of_sign (sign_mul (nsign a) (nsign b))
  end.

(** [a / b].  A finite division by zero gives an infinity of the sign
    of the dividend, and [0 / 0] gives [NaN]. *)
Definition div (a b : number) : number :=
  match a, b with
  | NaN, _ | _, NaN => NaN
  | Fin x, Fin y =>
      if Req_dec_T y 0 then inf_of_sign (Rsign x) else Fin (x / y)
  | Fin _, _ => Fin 0
  | _, Fin y =>
      if Req_dec_T y 0 then a
      else inf_of_sign (sign_mul (nsign a) (Rsign y))
  | _, _ => NaN
  end.

(** Rounding toward zero. *)
Definition Rtrunc (x : R) : Z :=
  if Rle_dec 0 x then Zfloor x else Zceil x.

(** [a % b]: the remainder has the sign of the dividend. *)
Definition rem (a b : number) : number :=
  match a, b with
  | Fin x, Fin y =>
      if Req_dec_T y 0 then NaN else Fin (x - y * IZR (Rtrunc (x / y)))
  | Fin x, (PosInf | NegInf) => Fin x
  | _, _ => NaN
  end.

(** [Math.sin] and [Math.cos]. *)
Definition Math_sin (a : number) : number :=
  match a with Fin x => Fin (sin x) | _ => NaN end.

Definition Math_cos (a : number) : number :=
  match a with Fin x => Fin (cos x) | _ => NaN end.

Definition Math_PI : number := Fin PI.

(** [a < b] and [a > b]; every comparison with [NaN] is false. *)
Definition lt (a b : number) : bool :=
  match a, b with
  | NaN, _ | _, NaN => false
  | Fin x, Fin y => if Rlt_dec x y then true else false
  | NegInf, (Fin _ | PosInf) => true
  | Fin _, PosInf => true
  | _, _ => false
  end.

Definition gt (a b : number) : bool := lt b a.

End JsNum.

(* ================================================================== *)
(** * The radius of the rotation, by viewport width *)
(* ================================================================== *)

(** [getPointRadius] of [initPointAnimation], as a function of the value
    it reads from [window.innerWidth] (an integer number of CSS pixels). *)
Definition getPointRadius (screenWidth : Z) : Z :=
  if (screenWidth <=? 480)%Z then 70%Z
  else if (screenWidth <=? 768)%Z then 75%Z
  else if (screenWidth <=? 1200)%Z then 100%Z
  else 120%Z.

(* ================================================================== *)
(** * The page: what the scripts read and write *)
(* ================================================================== *)

Module Gsap.

(** The properties written by [gsap.set(text, { y, z, rotateX })]. *)
Record vars : Type := { y : JsNum.number; z : JsNum.number; rotateX : JsNum.number }.

End Gsap.

Module Page.

(** One [<p>] of [.point .ani_text]: the transform last written on it by
    [gsap.set] (none before the first write) and its class list. *)
Record text : Type := {
  transform : option Gsap.vars;
  classList : list string
}.

(** What the [onUpdate] callback handed to [ScrollTrigger.create] closes
    over: the array [pointTexts] (the elements, by their position among
    the [.point .ani_text p] of the document), the variable [radius] and
    the constant [totalTexts]. *)
Record closure : Type := {
  pointTexts : list nat;
  radius : Z;
  totalTexts : nat
}.

Inductive level : Type := log | error | warn.

Record page : Type := {
  gsap_defined : bool;            (* typeof gsap !== 'undefined' *)
  ScrollTrigger_defined : bool;   (* typeof ScrollTrigger !== 'undefined' *)
  AOS_defined : bool;             (* typeof AOS !== 'undefined' *)
  innerWidth : Z;                 (* window.innerWidth *)
  ani_texts : list text;          (* the elements '.point .ani_text p' *)
  scroll_triggers : list closure; (* the triggers created so far *)
  console : list (level * string);
  lastCall : Z;                   (* of the throttled resize handler *)
  refreshed : list string         (* the refresh() calls made so far *)
}.

Definition with_texts (l : list text) (p : page) : page :=
  {| gsap_defined := gsap_defined p;
     ScrollTrigger_defined := ScrollTrigger_defined p;
     AOS_defined := AOS_defined p;
     innerWidth := innerWidth p;
     ani_texts := l;
     scroll_triggers := scroll_triggers p;
     console := console p;
     lastCall := lastCall p;
     refreshed := refreshed p |}.

Definition with_triggers (l : list closure) (p : page) : page :=
  {| gsap_defined := gsap_defined p;
     ScrollTrigger_defined := ScrollTrigger_defined p;
     AOS_defined := AOS_defined p;
     innerWidth := innerWidth p;
     ani_texts := ani_texts p;
     scroll_triggers := l;
     console := console p;
     lastCall := lastCall p;
     refreshed := refreshed p |}.

Definition with_console (l : list (level * string)) (p : page) : page :=
  {| gsap_defined := gsap_defined p;
     ScrollTrigger_defined := ScrollTrigger_defined p;
     AOS_defined := AOS_defined p;
     innerWidth := innerWidth p;
     ani_texts := ani_texts p;
     scroll_triggers := scroll_triggers p;
     console := l;
     lastCall := lastCall p;
     refreshed := refreshed p |}.

Definition with_innerWidth (w : Z) (p : page) : page :=
  {| gsap_defined := gsap_defined p;
     ScrollTrigger_defined := ScrollTrigger_defined p;
     AOS_defined := AOS_defined p;
     innerWidth := w;
     ani_texts := ani_texts p;
     scroll_triggers := scroll_triggers p;
     console := console p;
     lastCall := lastCall p;
     refreshed := refreshed p |}.

Definition with_lastCall (t : Z) (p : page) : page :=
  {| gsap_defined := gsap_defined p;
     ScrollTrigger_defined := ScrollTrigger_defined p;
     AOS_defined := AOS_defined p;
     innerWidth := innerWidth p;
     ani_texts := ani_texts p;
     scroll_triggers := scroll_triggers p;
     console := console p;
     lastCall := t;
     refreshed := refreshed p |}.

Definition with_refreshed (l : list string) (p : page) : page :=
  {| gsap_defined := gsap_defined p;
     ScrollTrigger_defined := ScrollTrigger_defined p;
     AOS_defined := AOS_defined p;
     innerWidth := innerWidth p;
     ani_texts := ani_texts p;
     scroll_triggers := scroll_triggers p;
     console := console p;
     lastCall := lastCall p;
     refreshed := l |}.

(** ** Script fragments: a state monad over the page, with exceptions *)

Inductive completion (A : Type) : Type :=
| Normal (a : A) (p : page)
| Throw (e : string) (p : page).
Arguments Normal {A} a p.
Arguments Throw {A} e p.

Definition js (A : Type) : Type := page -> completion A.

Definition ret {A} (a : A) : js A := fun p => Normal a p.

Definition bind {A B} (m : js A) (k : A -> js B) : js B :=
  fun p => match m p with
           | Normal a p' => k a p'
           | Throw e p' => Throw e p'
           end.

Definition page_of {A} (c : completion A) : page :=
  match c with Normal _ p => p | Throw _ p => p end.

Definition threw {A} (c : completion A) : bool :=
  match c with Normal _ _ => false | Throw _ _ => true end.

End Page.

Declare Scope js_scope.
Delimit Scope js_scope with js.
Notation "x <- m ;; k" := (Page.bind m (fun x => k))
  (at level 61, m at next level, right associativity) : js_scope.
Notation "m ;; k" := (Page.bind m (fun _ => k))
  (at level 61, right associativity) : js_scope.

(* ================================================================== *)
(** * The point section: [initPointAnimation] *)
(* ================================================================== *)

Module PointAnimation.
Import JsNum Page.
Local Open Scope js_scope.
Local Open Scope string_scope.

(** ** What the script calls *)

(** [console.error(msg)]. *)
Definition console_error (msg : string) : js unit :=
  fun p => Normal tt (with_console (console p ++ [(error, msg)]) p).

(** [typeof gsap === 'undefined'], [typeof ScrollTrigger === 'undefined']
    and [typeof AOS === 'undefined']: [typeof] never throws. *)
Definition typeof_gsap_undefined : js bool :=
  fun p => Normal (negb (gsap_defined p)) p.

Definition typeof_ScrollTrigger_undefined : js bool :=
  fun p => Normal (negb (ScrollTrigger_defined p)) p.

Definition typeof_AOS_undefined : js bool :=
  fun p => Normal (negb (AOS_defined p)) p.

(** [window.innerWidth]. *)
Definition window_innerWidth : js Z :=
  fun p => Normal (innerWidth p) p.

(** [gsap.utils.toArray('.point .ani_text p')]: the matching elements in
    document order.  Naming [gsap] while it is undefined is a
    ReferenceError. *)
Definition gsap_utils_toArray : js (list nat) :=
  fun p =>
    if gsap_defined p then Normal (seq 0 (List.length (ani_texts p))) p
    else Throw "ReferenceError: gsap is not defined" p.

(** [array.slice(0, n)]. *)
Definition slice0 {A} (n : nat) (l : list A) : list A := firstn n l.

(** Replace the element at a position, if there is one. *)
Fixpoint update_nth {A} (i : nat) (f : A -> A) (l : list A) : list A :=
  match l, i with
  | [], _ => []
  | x :: l', O => f x :: l'
  | x :: l', S i' => x :: update_nth i' f l'
  end.

(** [gsap.set(text, vars)]. *)
Definition gsap_set (text : nat) (v : Gsap.vars) : js unit :=
  fun p =>
    if gsap_defined p then
      Normal tt
        (with_texts
           (update_nth text
              (fun t => {| transform := Some v; classList := classList t |})
              (ani_texts p)) p)
    else Throw "ReferenceError: gsap is not defined" p.

Definition contains (c : string) (l : list string) : bool :=
  existsb (String.eqb c) l.

(** [text.classList.add(c)] and [text.classList.remove(c)]. *)
Definition classList_add (text : nat) (c : string) : js unit :=
  fun p =>
    Normal tt
      (with_texts
         (update_nth text
            (fun t =>
               {| transform := transform t;
                  classList := if contains c (classList t) then classList t
                               else classList t ++ [c] |})
            (ani_texts p)) p).

Definition classList_remove (text : nat) (c : string) : js unit :=
  fun p =>
    Normal tt
      (with_texts
         (update_nth text
            (fun t =>
               {| transform := transform t;
                  classList :=
                    filter (fun d => negb (String.eqb c d)) (classList t) |})
            (ani_texts p)) p).

(** [ScrollTrigger.create({ ..., onUpdate })]: the trigger is kept with
    the variables its callback closes over. *)
Definition ScrollTrigger_create (c : closure) : js unit :=
  fun p =>
    if ScrollTrigger_defined p then
      Normal tt (with_triggers (scroll_triggers p ++ [c]) p)
    else Throw "ReferenceError: ScrollTrigger is not defined" p.

(** [array.forEach((x, index) => ...)]. *)
Fixpoint forEach_from {A} (l : list A) (index : nat)
         (f : A -> nat -> js unit) : js unit :=
  match l with
  | [] => ret tt
  | x :: l' => f x index ;; forEach_from l' (S index) f
  end.

Definition forEach {A} (l : list A) (f : A -> nat -> js unit) : js unit :=
  forEach_from l 0 f.

(** ** The script *)

(** The nested [getPointRadius()], reading the width at the time of the
    call. *)
Definition getPointRadius_call : js Z :=
  screenWidth <- window_innerWidth ;;
  ret (getPointRadius screenWidth).

(** [(index / (totalTexts - 1)) * Math.PI] *)
Definition baseAngle (index totalTexts : nat) : number :=
  mul (div (of_nat index) (sub (of_nat totalTexts) (Fin 1))) Math_PI.

(** The object handed to [gsap.set] for an angle and a radius:
    [{ y: Math.sin(a) * r, z: Math.cos(a) * r, rotateX: -((a * 180) / Math.PI) }]. *)
Definition pose (angle : number) (r : Z) : Gsap.vars :=
  {| Gsap.y := mul (Math_sin angle) (of_Z r);
     Gsap.z := mul (Math_cos angle) (of_Z r);
     Gsap.rotateX := neg (div (mul angle (Fin 180)) Math_PI) |}.

(** [initializePointTexts()]. *)
Definition initializePointTexts (pointTexts : list nat) (totalTexts : nat)
  : js unit :=
  currentRadius <- getPointRadius_call ;;
  forEach pointTexts (fun text index =>
    let angle := baseAngle index totalTexts in
    gsap_set text (pose angle currentRadius)).

(** [baseAngle - (rotationProgress * Math.PI) / (totalTexts - 1)] with
    [rotationProgress = progress * (totalTexts - 1)]. *)
Definition currentAngle (index totalTexts : nat) (progress : number)
  : number :=
  let rotationProgress := mul progress (sub (of_nat totalTexts) (Fin 1)) in
  sub (baseAngle index totalTexts)
      (div (mul rotationProgress Math_PI) (sub (of_nat totalTexts) (Fin 1))).

(** [((currentAngle % (Math.PI * 2)) + Math.PI * 2) % (Math.PI * 2)] *)
Definition normalizedAngle (angle : number) : number :=
  rem (add (rem angle (mul Math_PI (Fin 2))) (mul Math_PI (Fin 2)))
      (mul Math_PI (Fin 2)).

(** [normalizedAngle < 0.3 || normalizedAngle > Math.PI * 2 - 0.3] *)
Definition isFocus (angle : number) : bool :=
  lt (normalizedAngle angle) (Fin (3 / 10))
  || gt (normalizedAngle angle) (sub (mul Math_PI (Fin 2)) (Fin (3 / 10))).

(** The [onUpdate] callback of the trigger, for [self.progress]. *)
Definition onUpdate (c : closure) (progress : number) : js unit :=
  forEach (pointTexts c) (fun text index =>
    let angle := currentAngle index (totalTexts c) progress in
    gsap_set text (pose angle (radius c)) ;;
    if isFocus angle then classList_add text "focus"
    else classList_remove text "focus").

(** [initPointAnimation()]. *)
Definition initPointAnimation : js unit :=
  no_gsap <- typeof_gsap_undefined ;;
  no_trigger <- typeof_ScrollTrigger_undefined ;;
  if no_gsap || no_trigger then
    console_error "GSAP or ScrollTrigger not loaded"
  else
    all <- gsap_utils_toArray ;;
    let pointTexts := slice0 4 all in
    if Nat.eqb (List.length pointTexts) 0 then ret tt
    else
      radius <- getPointRadius_call ;;
      let totalTexts := List.length pointTexts in
      initializePointTexts pointTexts totalTexts ;;
      ScrollTrigger_create
        {| pointTexts := pointTexts; radius := radius;
           totalTexts := totalTexts |}.

(** ** Resize and scroll *)

(** [AOS.refresh()] and [ScrollTrigger.refresh()]: calls into the
    libraries, kept as a record of the call. *)
Definition refresh (what : string) : js unit :=
  fun p => Normal tt (with_refreshed (refreshed p ++ [what]) p).

(** The function handed to [throttle] for the resize listener. *)
Definition handleResize_body : js unit :=
  no_aos <- typeof_AOS_undefined ;;
  (if no_aos then ret tt else refresh "AOS") ;;
  no_trigger <- typeof_ScrollTrigger_undefined ;;
  if no_trigger then ret tt else refresh "ScrollTrigger".

(** [throttle(func, delay)], called when [Date.now()] is [now]. *)
Definition throttle (func : js unit) (delay : Z) (now : Z) : js unit :=
  fun p =>
    if (delay <=? now - lastCall p)%Z then func (with_lastCall now p)
    else Normal tt p.

Definition handleResize (now : Z) : js unit :=
  throttle handleResize_body 200 now.

(** What happens to the page after the scripts are set up: the window is
    resized to a width (at a time), or the scroll trigger delivers a
    progress value to every [onUpdate] installed. *)
Inductive event : Type :=
| resize (width : Z) (now : Z)
| scroll (progress : number).

Fixpoint each_trigger (l : list closure) (progress : number) : js unit :=
  match l with
  | [] => ret tt
  | c :: l' => onUpdate c progress ;; each_trigger l' progress
  end.

Definition dispatch (e : event) : js unit :=
  match e with
  | resize width now =>
      (fun p => Normal tt (with_innerWidth width p)) ;; handleResize now
  | scroll progress =>
      fun p => each_trigger (scroll_triggers p) progress p
  end.

Fixpoint run (l : list event) : js unit :=
  match l with
  | [] => ret tt
  | e :: l' => dispatch e ;; run l'
  end.

(** What is written on the element at a position. *)
Definition transform_at (i : nat) (p : page) : option Gsap.vars :=
  match nth_error (ani_texts p) i with
  | Some t => transform t
  | None => None
  end.

Definition focused_at (i : nat) (p : page) : bool :=
  match nth_error (ani_texts p) i with
  | Some t => contains "focus" (classList t)
  | None => false
  end.

(** A page with the libraries loaded and [n] untouched texts. *)
Definition fresh_page (width : Z) (n : nat) : page :=
  {| gsap_defined := true; ScrollTrigger_defined := true;
     AOS_defined := true; innerWidth := width;
     ani_texts := repeat {| transform := None; classList := [] |} n;
     scroll_triggers := []; console := []; lastCall := 0%Z;
     refreshed := [] |}.

(** A page on which neither library has loaded. *)
Definition unloaded_page (width : Z) (n : nat) : page :=
  {| gsap_defined := false; ScrollTrigger_defined := false;
     AOS_defined := false; innerWidth := width;
     ani_texts := repeat {| transform := None; classList := [] |} n;
     scroll_triggers := []; console := []; lastCall := 0%Z;
     refreshed := [] |}.

End PointAnimation.

(* ================================================================== *)
(** * The angles of [initPointAnimation] in double precision *)
(* ================================================================== *)

(** The two angle expressions of the script over IEEE binary64 numbers:
    [/], [*] and [-] are the correctly rounded operations JavaScript
    applies to its numbers, in the order the source writes them. *)
Module Binary64.
Import PrimFloat.
Local Open Scope float_scope.

(** [Math.PI], the double nearest to pi (3.141592653589793). *)
Definition Math_PI : float := 0x1.921fb54442d18p+1.

(** A position or a length as a number: a small integer, exact. *)
Fixpoint of_nat (n : nat) : float :=
  match n with
  | O => 0
  | S k => of_nat k + 1
  end.

(** [(index / (totalTexts - 1)) * Math.PI] *)
Definition baseAngle (index totalTexts : nat) : float :=
  (of_nat index / (of_nat totalTexts - 1)) * Math_PI.

(** [baseAngle - (rotationProgress * Math.PI) / (totalTexts - 1)] with
    [rotationProgress = progress * (totalTexts - 1)]. *)
Definition currentAngle (index totalTexts : nat) (progress : float)
  : float :=
  let rotationProgress := progress * (of_nat totalTexts - 1) in
  baseAngle index totalTexts
  - (rotationProgress * Math_PI) / (of_nat totalTexts - 1).

(** The progress values 0 and 1 at the two ends of the scroll range, and
    5/64 = 0.078125, a progress in between that is a double exactly. *)
Definition progress_start : float := 0.
Definition progress_end : float := 1.
Definition progress_5_64 : float := 0x1.4p-4.

End Binary64.

(* ================================================================== *)
(** * The background image: [aggressivePreloadImages] *)
(* ================================================================== *)

Module Preload.
Local Open Scope string_scope.

(** What the script cannot decide: the protocol of the page, the height
    the browser reports for the decoded 2x2 WebP probe, and which of the
    two events a load of a given source ends in. *)
Inductive load_event : Type := onload | onerror.

Record environment : Type := {
  protocol : string;              (* window.location.protocol *)
  webP_height : Z;                (* webP.height once the probe has settled *)
  fetch : string -> load_event
}.

(** [document.querySelector('.point_box')], where there is one. *)
Record point_box : Type := {
  transform : string;
  willChange : string;
  backgroundImage : string;
  classList : list string
}.

Record link : Type := {
  rel : string;
  as_ : string;
  href : string;
  fetchPriority : string
}.

Inductive level : Type := log | error | warn.

Record document : Type := {
  pointBox : option point_box;
  head : list link;                  (* links appended to document.head *)
  images : list string;              (* every [img.src = ...], in order *)
  console : list (level * string);
  timeouts : list (Z * string)       (* delay, and the willChange to set *)
}.

Inductive value : Type := undefined | boolean (b : bool).

Inductive promise : Type :=
| Pending
| Fulfilled (v : value)
| Rejected (v : value).

(** [resolve] and [reject] act on a pending promise only. *)
Definition settle (outcome current : promise) : promise :=
  match current with
  | Pending => outcome
  | _ => current
  end.

Definition console_add (l : level) (msg : string) (d : document) : document :=
  {| pointBox := pointBox d; head := head d; images := images d;
     console := console d ++ [(l, msg)]; timeouts := timeouts d |}.

(** [img.src = src] on a [new Image()]: the load is issued. *)
Definition set_src (src : string) (d : document) : document :=
  {| pointBox := pointBox d; head := head d; images := images d ++ [src];
     console := console d; timeouts := timeouts d |}.

Definition appendChild (l : link) (d : document) : document :=
  {| pointBox := pointBox d; head := head d ++ [l]; images := images d;
     console := console d; timeouts := timeouts d |}.

(** A [new Image()] whose source is set after its handlers: the event
    the load ends in runs the handler installed for it, if any. *)
Definition Image_load {S : Type} (e : environment) (src : string)
           (on_load on_error : option (S -> S)) (s : S) : S :=
  match fetch e src, on_load, on_error with
  | onload, Some h, _ => h s
  | onerror, _, Some h => h s
  | _, _, _ => s
  end.

Definition probe_src : string :=
  "data:image/webp;base64,UklGRjoAAABXRUJQVlA4IC4AAACyAgCdASoCAAIALmk0mk0iIiIiIgBoSygABc6WWgAA/veff/0PP8bA//LwYAAA".

(** [supportsWebP()]: both handlers resolve with [webP.height === 2]. *)
Definition supportsWebP (e : environment) (d : document) : bool * document :=
  (Z.eqb (webP_height e) 2, set_src probe_src d).

Definition add_class (c : string) (l : list string) : list string :=
  if existsb (String.eqb c) l then l else l ++ [c].

(** [applyBackgroundImage(imagePath)]. *)
Definition applyBackgroundImage (imagePath : string) (d : document)
  : document :=
  match pointBox d with
  | None => d
  | Some b =>
      {| pointBox :=
           Some {| transform := "translate3d(0,0,0)";
                   willChange := "background-image";
                   backgroundImage := "url('" ++ imagePath ++ "')";
                   classList := add_class "bg-loaded" (classList b) |};
         head := head d; images := images d; console := console d;
         timeouts := timeouts d ++ [(1000%Z, "auto")] |}
  end.

(** [loadFallbackImage(fallbackPath)]: only [onload] is installed. *)
Definition loadFallbackImage (e : environment) (fallbackPath : string)
           (d : document) : document :=
  Image_load e fallbackPath
             (Some (applyBackgroundImage fallbackPath)) None
             (set_src fallbackPath d).

(** [s.includes(sub)]. *)
Fixpoint includes (s sub : string) : bool :=
  String.prefix sub s
  || match s with
     | EmptyString => false
     | String _ s' => includes s' sub
     end.

(** [aggressivePreloadImages()]: the promise the call returns, as it
    stands once every load it issued has ended, and the document. *)
Definition aggressivePreloadImages (e : environment) (d : document)
  : promise * document :=
  if String.eqb (protocol e) "file:" then
    (Fulfilled undefined,
     console_add log "로컬 개발 환경 - 배경 이미지 로드 건너뜀" d)
  else
    let (isWebPSupported, d) := supportsWebP e d in
    let bgImagePath :=
      if isWebPSupported then "./images/point_bg.webp"
      else "./images/point_bg.jpg" in
    let d :=
      appendChild {| rel := "preload"; as_ := "image"; href := bgImagePath;
                     fetchPriority := "high" |} d in
    Image_load e bgImagePath
      (Some (fun s : promise * document =>
         let d := console_add log "Background image loaded successfully"
                              (snd s) in
         let d := applyBackgroundImage bgImagePath d in
         (settle (Fulfilled (boolean true)) (fst s), d)))
      (Some (fun s : promise * document =>
         let d := console_add error "Failed to load background image"
                              (snd s) in
         if isWebPSupported && includes bgImagePath ".webp" then
           (fst s, loadFallbackImage e "./images/point_bg.jpg" d)
         else
           (settle (Rejected (boolean false)) (fst s), d)))
      (Pending, set_src bgImagePath d).

Definition empty_document (b : option point_box) : document :=
  {| pointBox := b; head := []; images := []; console := [];
     timeouts := [] |}.

(** The loads of the two image files among the sources requested. *)
Definition is_path (src : string) : bool :=
  String.eqb src "./images/point_bg.webp"
  || String.eqb src "./images/point_bg.jpg".

Definition path_loads (d : document) : list string :=
  filter is_path (images d).

End Preload.

(* ================================================================== *)
(** * The callers of [aggressivePreloadImages] *)
(* ================================================================== *)

Module PreloadCallers.
Import Preload.
Local Open Scope string_scope.

(** How the console shows a value. *)
Definition show (v : value) : string :=
  match v with
  | undefined => "undefined"
  | boolean true => "true"
  | boolean false => "false"
  end.

(** The [unhandledrejection] listener of the window:
    [console.error('Unhandled promise rejection:', event.reason)]. *)
Definition unhandledrejection (reason : value) (d : document) : document :=
  console_add error ("Unhandled promise rejection: " ++ show reason) d.

(** A call of [aggressivePreloadImages()] whose promise is dropped: a
    rejection reaches the [unhandledrejection] listener. *)
Definition unawaited (r : promise * document) : document :=
  match fst r with
  | Rejected reason => unhandledrejection reason (snd r)
  | _ => snd r
  end.

(** [pointBox && !pointBox.classList.contains('bg-loaded')] *)
Definition needs_background (d : document) : bool :=
  match pointBox d with
  | Some b => negb (existsb (String.eqb "bg-loaded") (classList b))
  | None => false
  end.

(** The [load] listener of the window. *)
Definition on_load (e : environment) (d : document) : document :=
  if needs_background d then unawaited (aggressivePreloadImages e d) else d.

(** The [visibilitychange] listener of the document, for
    [document.hidden]. *)
Definition on_visibilitychange (e : environment) (hidden : bool)
           (d : document) : document :=
  if negb hidden then
    if needs_background d then unawaited (aggressivePreloadImages e d)
    else d
  else d.

(** The statement of the [DOMContentLoaded] listener that awaits the
    preload inside [try]/[catch]: the document with which the listener
    goes on, or nothing when the awaited promise stays pending and the
    listener never resumes. *)
Definition await_preload (e : environment) (d : document)
  : option document :=
  match aggressivePreloadImages e d with
  | (Fulfilled _, d') => Some d'
  | (Rejected _, d') =>
      Some (console_add warn
              "Background image preloading failed, using fallback" d')
  | (Pending, _) => None
  end.

End PreloadCallers.

(* ================================================================== *)
(** * Utilities: [isMobile], [waitForLibraries], [debounce] *)
(* ================================================================== *)

Module Util.

(** [isMobile], as a function of the value it reads from
    [window.innerWidth]. *)
Definition isMobile (innerWidth : Z) : bool := (innerWidth <=? 768)%Z.

(** Which of the three libraries are defined at some moment. *)
Record libraries : Type := {
  gsap : bool;
  AOS : bool;
  ScrollTrigger : bool
}.

(** The test of [checkLibraries]. *)
Definition all_defined (s : libraries) : bool :=
  gsap s && AOS s && ScrollTrigger s.

(** [checkLibraries], run for the poll numbered [poll] when the
    libraries are in state [at_poll poll]: it resolves the promise, or
    sets a timer of 100 ms for the next poll.  The result is the poll at
    which the promise is resolved, if that happens within [fuel]
    polls. *)
Fixpoint checkLibraries (at_poll : nat -> libraries) (poll fuel : nat)
  : option nat :=
  match fuel with
  | O => None
  | S fuel' =>
      if all_defined (at_poll poll) then Some poll
      else checkLibraries at_poll (S poll) fuel'
  end.

(** [waitForLibraries()]: the first poll is made at once. *)
Definition waitForLibraries (at_poll : nat -> libraries) (fuel : nat)
  : option nat :=
  checkLibraries at_poll 0 fuel.

(** ** Timers and [debounce] *)

Section Debounce.
Variable A : Type.   (* the arguments of a call *)

Record timer : Type := { id : nat; due : Z; args : A }.

(** The timers set and not yet fired or cleared, in the order they were
    set, and the next timer id. *)
Record timers : Type := { pending : list timer; next_id : nat }.

Definition setTimeout (a : A) (due : Z) (t : timers) : nat * timers :=
  (next_id t,
   {| pending := pending t ++ [ {| id := next_id t; due := due; args := a |} ];
      next_id := S (next_id t) |}).

(** [clearTimeout(id)]; [clearTimeout(undefined)] does nothing. *)
Definition clearTimeout (i : option nat) (t : timers) : timers :=
  match i with
  | None => t
  | Some i =>
      {| pending := filter (fun x => negb (Nat.eqb (id x) i)) (pending t);
         next_id := next_id t |}
  end.

(** A debounced function: the variable [timeoutId] of its closure, the
    timers, and the arguments [func] has been applied to so far. *)
Record debounced : Type := {
  timeoutId : option nat;
  table : timers;
  applied : list A
}.

(** The function [debounce(func, delay)] returns, called with [a] when
    the clock shows [now]. *)
Definition debounced_call (delay now : Z) (a : A) (s : debounced)
  : debounced :=
  let t := clearTimeout (timeoutId s) (table s) in
  let (i, t') := setTimeout a (now + delay)%Z t in
  {| timeoutId := Some i; table := t'; applied := applied s |}.

(** The clock reaches [now]: the timers due by then fire, applying
    [func] to the arguments they hold. *)
Definition elapse (now : Z) (s : debounced) : debounced :=
  {| timeoutId := timeoutId s;
     table :=
       {| pending := filter (fun x => negb (due x <=? now)%Z)
                            (pending (table s));
          next_id := next_id (table s) |};
     applied :=
       applied s
       ++ map args (filter (fun x => (due x <=? now)%Z) (pending (table s))) |}.

Inductive event : Type :=
| call (now : Z) (a : A)
| tick (now : Z).

Definition step (delay : Z) (s : debounced) (e : event) : debounced :=
  match e with
  | call now a => debounced_call delay now a s
  | tick now => elapse now s
  end.

Definition run (delay : Z) (l : list event) (s : debounced) : debounced :=
  fold_left (step delay) l s.

(** The closure as [debounce] returns it. *)
Definition fresh : debounced :=
  {| timeoutId := None; table := {| pending := []; next_id := 0 |};
     applied := [] |}.

Definition calls (l : list event) : nat :=
  List.length (filter (fun e => match e with call _ _ => true | _ => false end) l).

(** Every pending timer is the one [timeoutId] names. *)
Definition owned (s : debounced) : Prop :=
  forall x, In x (pending (table s)) -> timeoutId s = Some (id x).

End Debounce.

End Util.

(* ================================================================== *)
(** * The consultation modal *)
(* ================================================================== *)

Module Modal.
Local Open Scope string_scope.

(** The value of a form control: a JavaScript string, as its UTF-16 code
    units. *)
Definition jsstring : Type := list N.

(** The code points [String.prototype.trim] strips: WhiteSpace (TAB, VT,
    FF, ZWNBSP and the space separators) and LineTerminator. *)
Definition is_whitespace (c : N) : bool :=
  existsb (N.eqb c)
    [ 9; 10; 11; 12; 13; 32; 160; 5760; 8232; 8233; 8239; 8287; 12288;
      65279 ]%N
  || ((8192 <=? c) && (c <=? 8202))%N.

Fixpoint trimStart (s : jsstring) : jsstring :=
  match s with
  | [] => []
  | c :: s' => if is_whitespace c then trimStart s' else s
  end.

(** [s.trim()] *)
Definition trim (s : jsstring) : jsstring :=
  rev (trimStart (rev (trimStart s))).

(** [!s] for a string. *)
Definition falsy (s : jsstring) : bool :=
  match s with [] => true | _ => false end.

(** A text input or select: its value, the value a reset gives it, and
    whether it belongs to the form of the modal. *)
Record input : Type := {
  value : jsstring;
  defaultValue : jsstring;
  in_form : bool
}.

(** A checkbox: whether it is inside the modal, and inside its form. *)
Record checkbox : Type := {
  checked : bool;
  defaultChecked : bool;
  in_modal : bool;
  box_in_form : bool
}.

Record document : Type := {
  modal : option (list string);   (* the class list of #consultationModal *)
  form : bool;                    (* modal.querySelector('form') finds one *)
  closeBtn : bool;                (* #closeBtn exists *)
  modal_bg : bool;                (* .modal_bg exists in the modal *)
  submitBtn : bool;               (* #submitBtn exists *)
  body_overflow : string;         (* document.body.style.overflow *)
  consultType : option input;
  inputName : option input;
  inputPhone : option input;
  agree_all : option checkbox;    (* #agree_all_consult *)
  agree_two : option checkbox;    (* #agree_two_consult *)
  agree_third : option checkbox;  (* #agree_third_consult *)
  other_boxes : list checkbox;    (* the other checkboxes of the page *)
  alerts : list string;
  console : list (string * (jsstring * jsstring * jsstring))
}.

Definition add_class (c : string) (l : list string) : list string :=
  if existsb (String.eqb c) l then l else l ++ [c].

Definition remove_class (c : string) (l : list string) : list string :=
  filter (fun d => negb (String.eqb c d)) l.

Definition has_class (c : string) (l : list string) : bool :=
  existsb (String.eqb c) l.

(** [openConsultationModal()] *)
Definition openConsultationModal (d : document) : document :=
  match modal d with
  | None => d
  | Some cl =>
      {| modal := Some (add_class "active" cl); form := form d;
         closeBtn := closeBtn d; modal_bg := modal_bg d;
         submitBtn := submitBtn d; body_overflow := "hidden";
         consultType := consultType d; inputName := inputName d;
         inputPhone := inputPhone d; agree_all := agree_all d;
         agree_two := agree_two d; agree_third := agree_third d;
         other_boxes := other_boxes d; alerts := alerts d;
         console := console d |}
  end.

(** What [form.reset()] does to a control of the form. *)
Definition reset_input (has_form : bool) (i : input) : input :=
  if has_form && in_form i
  then {| value := defaultValue i; defaultValue := defaultValue i;
          in_form := in_form i |}
  else i.

Definition reset_box (has_form : bool) (b : checkbox) : checkbox :=
  if has_form && box_in_form b
  then {| checked := defaultChecked b; defaultChecked := defaultChecked b;
          in_modal := in_modal b; box_in_form := box_in_form b |}
  else b.

(** [field.value = ''] *)
Definition clear_input (i : input) : input :=
  {| value := []; defaultValue := defaultValue i; in_form := in_form i |}.

(** [checkbox.checked = false] for the checkboxes
    [modal.querySelectorAll('input[type="checkbox"]')] finds. *)
Definition uncheck_in_modal (b : checkbox) : checkbox :=
  if in_modal b
  then {| checked := false; defaultChecked := defaultChecked b;
          in_modal := in_modal b; box_in_form := box_in_form b |}
  else b.

(** [closeConsultationModal()] *)
Definition closeConsultationModal (d : document) : document :=
  match modal d with
  | None => d
  | Some cl =>
      let input_done i := clear_input (reset_input (form d) i) in
      let box_done b := uncheck_in_modal (reset_box (form d) b) in
      {| modal := Some (remove_class "active" cl); form := form d;
         closeBtn := closeBtn d; modal_bg := modal_bg d;
         submitBtn := submitBtn d; body_overflow := "";
         consultType := option_map input_done (consultType d);
         inputName := option_map input_done (inputName d);
         inputPhone := option_map input_done (inputPhone d);
         agree_all := option_map box_done (agree_all d);
         agree_two := option_map box_done (agree_two d);
         agree_third := option_map box_done (agree_third d);
         other_boxes := map box_done (other_boxes d);
         alerts := alerts d; console := console d |}
  end.

(** [alert(msg)] *)
Definition alert (msg : string) (d : document) : document :=
  {| modal := modal d; form := form d; closeBtn := closeBtn d;
     modal_bg := modal_bg d; submitBtn := submitBtn d;
     body_overflow := body_overflow d; consultType := consultType d;
     inputName := inputName d; inputPhone := inputPhone d;
     agree_all := agree_all d; agree_two := agree_two d;
     agree_third := agree_third d; other_boxes := other_boxes d;
     alerts := alerts d ++ [msg]; console := console d |}.

(** [console.log(label, { consultType, name, phone })] *)
Definition console_log (label : string)
           (payload : jsstring * jsstring * jsstring) (d : document)
  : document :=
  {| modal := modal d; form := form d; closeBtn := closeBtn d;
     modal_bg := modal_bg d; submitBtn := submitBtn d;
     body_overflow := body_overflow d; consultType := consultType d;
     inputName := inputName d; inputPhone := inputPhone d;
     agree_all := agree_all d; agree_two := agree_two d;
     agree_third := agree_third d; other_boxes := other_boxes d;
     alerts := alerts d; console := console d ++ [(label, payload)] |}.

(** How a listener ends: normally, or by an uncaught exception. *)
Inductive result : Type :=
| Done (d : document)
| Threw (e : string) (d : document).

Definition document_of (r : result) : document :=
  match r with Done d => d | Threw _ d => d end.

Definition null_value : string :=
  "TypeError: Cannot read properties of null (reading 'value')".

Definition null_checked : string :=
  "TypeError: Cannot read properties of null (reading 'checked')".

(** The [click] listener of the submit button. *)
Definition submit (d : document) : result :=
  match consultType d with
  | None => Threw null_value d
  | Some ct =>
  match inputName d with
  | None => Threw null_value d
  | Some nm =>
  match inputPhone d with
  | None => Threw null_value d
  | Some ph =>
      if falsy (value ct) then
        Done (alert "상담신청 항목을 선택해주세요." d)
      else if falsy (trim (value nm)) then
        Done (alert "이름을 입력해주세요." d)
      else if falsy (trim (value ph)) then
        Done (alert "휴대폰 번호를 입력해주세요." d)
      else
        match agree_two d with
        | None => Threw null_checked d
        | Some two =>
            if negb (checked two) then
              Done (alert "필수 약관에 동의해주세요." d)
            else
              match agree_third d with
              | None => Threw null_checked d
              | Some third =>
                  if negb (checked third) then
                    Done (alert "필수 약관에 동의해주세요." d)
                  else
                    Done (closeConsultationModal
                            (alert "상담 신청이 완료되었습니다."
                               (console_log "상담신청:"
                                  (value ct, value nm, value ph) d)))
              end
        end
  end end end.

Definition set_checked (v : bool) (b : checkbox) : checkbox :=
  {| checked := v; defaultChecked := defaultChecked b;
     in_modal := in_modal b; box_in_form := box_in_form b |}.

Definition with_boxes (a two third : option checkbox) (d : document)
  : document :=
  {| modal := modal d; form := form d; closeBtn := closeBtn d;
     modal_bg := modal_bg d; submitBtn := submitBtn d;
     body_overflow := body_overflow d; consultType := consultType d;
     inputName := inputName d; inputPhone := inputPhone d;
     agree_all := a; agree_two := two; agree_third := third;
     other_boxes := other_boxes d; alerts := alerts d;
     console := console d |}.

(** The [change] listener of the agree-all checkbox. *)
Definition on_change_all (d : document) : document :=
  match agree_all d, agree_two d, agree_third d with
  | Some a, Some two, Some third =>
      with_boxes (Some a) (Some (set_checked (checked a) two))
                 (Some (set_checked (checked a) third)) d
  | _, _, _ => d
  end.

(** The [change] listener of each of the two required checkboxes. *)
Definition on_change_one (d : document) : document :=
  match agree_all d, agree_two d, agree_third d with
  | Some a, Some two, Some third =>
      with_boxes (Some (set_checked (checked two && checked third) a))
                 (Some two) (Some third) d
  | _, _, _ => d
  end.

(** The [keydown] listener of the document. *)
Definition on_keydown (key : string) (d : document) : document :=
  if String.eqb key "Escape"
     && match modal d with
        | Some cl => has_class "active" cl
        | None => false
        end
  then closeConsultationModal d
  else d.

(** What the user does.  Clicking a checkbox flips it before its
    [change] listeners run; the listeners are those [initModal] installs,
    each only when the elements it needs exist. *)
Inductive event : Type :=
| open_modal
| click_close
| click_background
| click_submit
| keydown (key : string)
| click_agree_all
| click_agree_two
| click_agree_third
| input_consultType (v : jsstring)
| input_name (v : jsstring)
| input_phone (v : jsstring).

Definition flip (b : checkbox) : checkbox := set_checked (negb (checked b)) b.

Definition set_value (v : jsstring) (i : input) : input :=
  {| value := v; defaultValue := defaultValue i; in_form := in_form i |}.

Definition with_inputs (ct nm ph : option input) (d : document) : document :=
  {| modal := modal d; form := form d; closeBtn := closeBtn d;
     modal_bg := modal_bg d; submitBtn := submitBtn d;
     body_overflow := body_overflow d; consultType := ct;
     inputName := nm; inputPhone := ph;
     agree_all := agree_all d; agree_two := agree_two d;
     agree_third := agree_third d; other_boxes := other_boxes d;
     alerts := alerts d; console := console d |}.

Definition dispatch (e : event) (d : document) : document :=
  match e with
  | open_modal => openConsultationModal d
  | click_close => if closeBtn d then closeConsultationModal d else d
  | click_background =>
      match modal d with
      | Some _ => if modal_bg d then closeConsultationModal d else d
      | None => d
      end
  | click_submit => if submitBtn d then document_of (submit d) else d
  | keydown key => on_keydown key d
  | click_agree_all =>
      on_change_all
        (with_boxes (option_map flip (agree_all d)) (agree_two d)
                    (agree_third d) d)
  | click_agree_two =>
      on_change_one
        (with_boxes (agree_all d) (option_map flip (agree_two d))
                    (agree_third d) d)
  | click_agree_third =>
      on_change_one
        (with_boxes (agree_all d) (agree_two d)
                    (option_map flip (agree_third d)) d)
  | input_consultType v =>
      with_inputs (option_map (set_value v) (consultType d)) (inputName d)
                  (inputPhone d) d
  | input_name v =>
      with_inputs (consultType d) (option_map (set_value v) (inputName d))
                  (inputPhone d) d
  | input_phone v =>
      with_inputs (consultType d) (inputName d)
                  (option_map (set_value v) (inputPhone d)) d
  end.

Definition run (l : list event) (d : document) : document :=
  fold_left (fun d e => dispatch e d) l d.

(** A page with the whole modal: every element present and inside the
    modal and its form, nothing filled in, nothing checked. *)
Definition blank_input : input :=
  {| value := []; defaultValue := []; in_form := true |}.

Definition blank_box : checkbox :=
  {| checked := false; defaultChecked := false; in_modal := true;
     box_in_form := true |}.

Definition blank_document : document :=
  {| modal := Some ["modal"]; form := true; closeBtn := true;
     modal_bg := true; submitBtn := true; body_overflow := "";
     consultType := Some blank_input; inputName := Some blank_input;
     inputPhone := Some blank_input; agree_all := Some blank_box;
     agree_two := Some blank_box; agree_third := Some blank_box;
     other_boxes := []; alerts := []; console := [] |}.

(** The three agreement checkboxes exist and are inside the modal. *)
Definition boxes_in_modal (d : document) : bool :=
  match agree_all d, agree_two d, agree_third d with
  | Some a, Some two, Some third =>
      in_modal a && in_modal two && in_modal third
  | _, _, _ => false
  end.

(** Agree-all is checked exactly when both required boxes are. *)
Definition agree_consistent (d : document) : bool :=
  match agree_all d, agree_two d, agree_third d with
  | Some a, Some two, Some third =>
      Bool.eqb (checked a) (checked two && checked third)
  | _, _, _ => false
  end.

(** Whether the modal is shown. *)
Definition active (d : document) : bool :=
  match modal d with
  | Some cl => has_class "active" cl
  | None => false
  end.

End Modal.

(* ================================================================== *)
(** * The header and its hamburger menu: [initHeader] *)
(* ================================================================== *)

Module Header.
Local Open Scope string_scope.

(** [gsap.to(target, vars)], with the values of [vars] as written. *)
Record tween : Type := { target : string; vars : list (string * string) }.

Record icon : Type := { src : string; alt : string }.

Record document : Type := {
  hamBtn : option string;          (* .ham_btn, by its aria-label *)
  hamGnb : option (list string);   (* .ham_gnb, by its class list *)
  hamIcon : option icon;           (* .ham_icon *)
  menuLinks : nat;                 (* how many '.ham_gnb a' there are *)
  main : bool;                     (* document.querySelector('.main') *)
  scrollY : JsNum.number;          (* window.scrollY *)
  gsap_defined : bool;
  ScrollTrigger_defined : bool;
  tweens : list tween;             (* the gsap.to calls made so far *)
  (* what initHeader has set up *)
  isMenuOpen : bool;
  button_listener : bool;
  link_listeners : nat;
  header_trigger : bool
}.

Definition with_menu (gnb : option (list string)) (i : option icon)
           (btn : option string) (open : bool) (d : document) : document :=
  {| hamBtn := btn; hamGnb := gnb; hamIcon := i;
     menuLinks := menuLinks d; main := main d; scrollY := scrollY d;
     gsap_defined := gsap_defined d;
     ScrollTrigger_defined := ScrollTrigger_defined d;
     tweens := tweens d; isMenuOpen := open;
     button_listener := button_listener d;
     link_listeners := link_listeners d;
     header_trigger := header_trigger d |}.

Definition gsap_to (t : string) (v : list (string * string)) (d : document)
  : document :=
  {| hamBtn := hamBtn d; hamGnb := hamGnb d; hamIcon := hamIcon d;
     menuLinks := menuLinks d; main := main d; scrollY := scrollY d;
     gsap_defined := gsap_defined d;
     ScrollTrigger_defined := ScrollTrigger_defined d;
     tweens := tweens d ++ [ {| target := t; vars := v |} ];
     isMenuOpen := isMenuOpen d;
     button_listener := button_listener d;
     link_listeners := link_listeners d;
     header_trigger := header_trigger d |}.

Definition with_scrollY (y : JsNum.number) (d : document) : document :=
  {| hamBtn := hamBtn d; hamGnb := hamGnb d; hamIcon := hamIcon d;
     menuLinks := menuLinks d; main := main d; scrollY := y;
     gsap_defined := gsap_defined d;
     ScrollTrigger_defined := ScrollTrigger_defined d;
     tweens := tweens d; isMenuOpen := isMenuOpen d;
     button_listener := button_listener d;
     link_listeners := link_listeners d;
     header_trigger := header_trigger d |}.

Inductive result : Type :=
| Done (d : document)
| Threw (e : string) (d : document).

Definition document_of (r : result) : document :=
  match r with Done d => d | Threw _ d => d end.

Definition threw (r : result) : bool :=
  match r with Done _ => false | Threw _ _ => true end.

Definition add_class (c : string) (l : list string) : list string :=
  if existsb (String.eqb c) l then l else l ++ [c].

Definition remove_class (c : string) (l : list string) : list string :=
  filter (fun d => negb (String.eqb c d)) l.

Definition null_classList : string :=
  "TypeError: Cannot read properties of null (reading 'classList')".

Definition null_src : string :=
  "TypeError: Cannot set properties of null (setting 'src')".

(** [closeMenu()], with [isMenuOpen] as the listener that calls it has
    left it. *)
Definition closeMenu (d : document) : result :=
  match hamGnb d with
  | None => Threw null_classList d
  | Some cl =>
      let d1 := with_menu (Some (remove_class "active" cl)) (hamIcon d)
                          (hamBtn d) (isMenuOpen d) d in
      match hamIcon d with
      | None => Threw null_src d1
      | Some _ =>
          let d2 :=
            with_menu (hamGnb d1)
                      (Some {| src := "./images/ham_btn.png";
                               alt := "메뉴 버튼" |})
                      (option_map (fun _ => "메뉴 열기") (hamBtn d1))
                      false d1 in
          if main d2 && JsNum.lt (scrollY d2) (JsNum.Fin 20)
             && gsap_defined d2
          then
            Done (gsap_to ".header li a:not(.on)"
                    [("color", "var(--bs-white)"); ("duration", "0.3")]
                    (gsap_to ".header"
                       [("backgroundColor", "transparent");
                        ("boxShadow", "none"); ("duration", "0.3")] d2))
          else Done d2
      end
  end.

(** The [click] listener of the hamburger button. *)
Definition click_hamBtn (d : document) : result :=
  let d0 := with_menu (hamGnb d) (hamIcon d) (hamBtn d)
                      (negb (isMenuOpen d)) d in
  if isMenuOpen d0 then
    match hamGnb d0 with
    | None => Threw null_classList d0
    | Some cl =>
        let d1 := with_menu (Some (add_class "active" cl)) (hamIcon d0)
                            (hamBtn d0) (isMenuOpen d0) d0 in
        match hamIcon d0 with
        | None => Threw null_src d1
        | Some _ =>
            let d2 :=
              with_menu (hamGnb d1)
                        (Some {| src := "./images/close_btn.png";
                                 alt := "메뉴 닫기" |})
                        (option_map (fun _ => "메뉴 닫기") (hamBtn d1))
                        (isMenuOpen d1) d1 in
            if main d2 && gsap_defined d2 then
              Done (gsap_to ".header li a:not(.on)"
                      [("color", "var(--bs-black)"); ("duration", "0.3")]
                      (gsap_to ".header"
                         [("backgroundColor", "var(--bs-white)");
                          ("boxShadow", "0 2px 6px rgba(0,0,0,0.1)");
                          ("duration", "0.3")] d2))
            else Done d2
        end
    end
  else closeMenu d0.

(** The four callbacks of the header's scroll trigger. *)
Definition onEnter (d : document) : document :=
  if gsap_defined d then
    gsap_to ".header li a:not(.on)"
      [("color", "var(--bs-black)"); ("duration", "0.1")]
      (gsap_to ".header"
         [("y", "0"); ("backgroundColor", "var(--bs-white)");
          ("boxShadow", "0 2px 6px rgba(0,0,0,0.1)"); ("duration", "0.1");
          ("ease", "power1.out")] d)
  else d.

Definition onLeave (d : document) : document :=
  if gsap_defined d then
    gsap_to ".header"
      [("y", "-80"); ("duration", "0.1"); ("ease", "power1.out")] d
  else d.

Definition onEnterBack (d : document) : document :=
  if gsap_defined d then
    gsap_to ".header"
      [("y", "0"); ("backgroundColor", "var(--bs-white)");
       ("boxShadow", "0 2px 6px rgba(0,0,0,0.1)"); ("duration", "0.1");
       ("ease", "power1.out")] d
  else d.

Definition onLeaveBack (d : document) : document :=
  if gsap_defined d then
    gsap_to ".header li a:not(.on)"
      [("color", "var(--bs-white)"); ("duration", "0.1")]
      (gsap_to ".header"
         [("y", "0"); ("backgroundColor", "transparent");
          ("boxShadow", "none"); ("duration", "0.1");
          ("ease", "power1.out")] d)
  else d.

(** [initHeader()], in its one call from the [DOMContentLoaded]
    listener: which listeners and trigger it sets up. *)
Definition initHeader (d : document) : document :=
  match hamBtn d with
  | None => d
  | Some _ =>
      {| hamBtn := hamBtn d; hamGnb := hamGnb d; hamIcon := hamIcon d;
         menuLinks := menuLinks d; main := main d; scrollY := scrollY d;
         gsap_defined := gsap_defined d;
         ScrollTrigger_defined := ScrollTrigger_defined d;
         tweens := tweens d; isMenuOpen := false;
         button_listener := true;
         link_listeners := menuLinks d;
         header_trigger := main d && ScrollTrigger_defined d |}
  end.

(** What happens once the header is set up. *)
Inductive event : Type :=
| click_button
| click_link
| scroll_to (y : JsNum.number)
| enter
| leave
| enter_back
| leave_back.

Definition dispatch (e : event) (d : document) : result :=
  match e with
  | click_button => if button_listener d then click_hamBtn d else Done d
  | click_link =>
      match link_listeners d with
      | O => Done d
      | S _ => closeMenu d
      end
  | scroll_to y => Done (with_scrollY y d)
  | enter => Done (if header_trigger d then onEnter d else d)
  | leave => Done (if header_trigger d then onLeave d else d)
  | enter_back => Done (if header_trigger d then onEnterBack d else d)
  | leave_back => Done (if header_trigger d then onLeaveBack d else d)
  end.

(** An uncaught exception ends the listener and nothing else. *)
Definition run (l : list event) (d : document) : document :=
  fold_left (fun d e => document_of (dispatch e d)) l d.

(** Whether what the page shows of the menu matches [isMenuOpen]. *)
Definition menu_matches (d : document) : bool :=
  match hamBtn d, hamGnb d, hamIcon d with
  | Some label, Some cl, Some i =>
      Bool.eqb (existsb (String.eqb "active") cl) (isMenuOpen d)
      && String.eqb (src i)
           (if isMenuOpen d then "./images/close_btn.png"
            else "./images/ham_btn.png")
      && String.eqb label
           (if isMenuOpen d then "메뉴 닫기" else "메뉴 열기")
  | _, _, _ => false
  end.

Definition clicks (l : list event) : nat :=
  List.length
    (filter (fun e => match e with click_button => true | _ => false end) l).

End Header.

(* ================================================================== *)
(** * Looking at the texts *)
(* ================================================================== *)

Module PointObs.
Import Page PointAnimation.

(** Whether the text at a position holds a class. *)
Definition class_at (c : string) (i : nat) (p : page) : bool :=
  match nth_error (ani_texts p) i with
  | Some t => contains c (classList t)
  | None => false
  end.

(** The resizes of a list of widths and times, in order. *)
Definition resizes (l : list (Z * Z)) : list event :=
  map (fun wt => resize (fst wt) (snd wt)) l.

(** How many times the resize handler has refreshed ScrollTrigger. *)
Definition refresh_count (p : page) : nat :=
  List.length (filter (String.eqb "ScrollTrigger") (refreshed p)).

(** Times each at least [delay] after the one before, starting after
    [last]. *)
Fixpoint spaced (delay last : Z) (l : list (Z * Z)) : bool :=
  match l with
  | [] => true
  | wt :: l' => (delay <=? snd wt - last)%Z && spaced delay (snd wt) l'
  end.

End PointObs.

(* ================================================================== *)
(** * Facts about numbers *)
(* ================================================================== *)

Section NumberFacts.
Import JsNum.
Local Open Scope R_scope.

Lemma div_Fin (x y : R) : y <> 0 -> div (Fin x) (Fin y) = Fin (x / y).
Proof.
  intros Hy. unfold div.
  destruct (Req_dec_T y 0) as [E | _]; [contradiction | reflexivity].
Qed.

Lemma div_zero_zero (x y : R) : x = 0 -> y = 0 -> div (Fin x) (Fin y) = NaN.
Proof.
  intros -> ->. unfold div.
  destruct (Req_dec_T 0 0) as [_ | N]; [ | contradiction N; reflexivity].
  unfold Rsign.
  destruct (Rlt_dec 0 0) as [H | _]; [lra | reflexivity].
Qed.

Lemma rem_Fin (x y : R) :
  y <> 0 -> rem (Fin x) (Fin y) = Fin (x - y * IZR (Rtrunc (x / y))).
Proof.
  intros Hy. unfold rem.
  destruct (Req_dec_T y 0) as [E | _]; [contradiction | reflexivity].
Qed.

Lemma lt_Fin (x y : R) : lt (Fin x) (Fin y) = true <-> x < y.
Proof.
  unfold lt. destruct (Rlt_dec x y); split; intros; try assumption;
    try reflexivity; try discriminate; contradiction.
Qed.

(** Rounding toward zero stays within one of its argument, on the side
    of zero. *)
Lemma Rtrunc_nonneg (q : R) :
  0 <= q -> IZR (Rtrunc q) <= q < IZR (Rtrunc q) + 1.
Proof.
  intros Hq. unfold Rtrunc.
  destruct (Rle_dec 0 q) as [_ | N]; [apply Zfloor_bound | contradiction].
Qed.

Lemma Rtrunc_neg (q : R) :
  q < 0 -> IZR (Rtrunc q) - 1 < q <= IZR (Rtrunc q).
Proof.
  intros Hq. unfold Rtrunc.
  destruct (Rle_dec 0 q) as [P | _]; [lra | apply Zceil_bound].
Qed.

(** The real remainder [x - y * trunc (x / y)] for a positive divisor:
    smaller than the divisor in absolute value, with the sign of [x]. *)
Lemma remainder_nonneg (x y : R) :
  0 < y -> 0 <= x -> 0 <= x - y * IZR (Rtrunc (x / y)) < y.
Proof.
  intros Hy Hx.
  assert (Hq : 0 <= x / y).
  { unfold Rdiv. apply Rmult_le_pos; [assumption | ].
    left. apply Rinv_0_lt_compat. assumption. }
  destruct (Rtrunc_nonneg _ Hq) as [Hl Hu].
  assert (E : x - y * IZR (Rtrunc (x / y))
              = y * (x / y - IZR (Rtrunc (x / y)))) by (field; lra).
  rewrite E. clear E.
  set (t := IZR (Rtrunc (x / y))) in *.
  set (q := x / y) in *.
  split; nra.
Qed.

Lemma remainder_neg (x y : R) :
  0 < y -> x < 0 -> - y < x - y * IZR (Rtrunc (x / y)) <= 0.
Proof.
  intros Hy Hx.
  assert (Hq : x / y < 0).
  { unfold Rdiv. assert (0 < / y) by (apply Rinv_0_lt_compat; assumption).
    nra. }
  destruct (Rtrunc_neg _ Hq) as [Hl Hu].
  assert (E : x - y * IZR (Rtrunc (x / y))
              = y * (x / y - IZR (Rtrunc (x / y)))) by (field; lra).
  rewrite E. clear E.
  set (t := IZR (Rtrunc (x / y))) in *.
  set (q := x / y) in *.
  split; nra.
Qed.

Lemma PI_gt_3 : 3 < PI.
Proof. pose proof PI2_3_2. lra. Qed.

Lemma IZR_small_zero (k : Z) : -1 < IZR k < 1 -> k = 0%Z.
Proof.
  intros [Hl Hu].
  apply lt_IZR in Hl. apply lt_IZR in Hu. lia.
Qed.

End NumberFacts.

(* ================================================================== *)
(** * Facts about the angles *)
(* ================================================================== *)

Section AngleFacts.
Import JsNum PointAnimation.
Local Open Scope R_scope.

Lemma INR_ge_2 (n : nat) : (2 <= n)%nat -> 2 <= INR n.
Proof. intros H. apply le_INR in H. simpl in H. lra. Qed.

Lemma baseAngle_Fin (index totalTexts : nat) :
  (2 <= totalTexts)%nat ->
  baseAngle index totalTexts
  = Fin (INR index / (INR totalTexts - 1) * PI).
Proof.
  intros HN. apply INR_ge_2 in HN.
  unfold baseAngle, of_nat, sub, neg, add, Math_PI.
  rewrite div_Fin by lra. unfold mul. f_equal.
Qed.

(** For two texts or more the angle of a text at a finite progress is
    its base angle less [progress * PI]. *)
Lemma currentAngle_Fin (index totalTexts : nat) (progress : R) :
  (2 <= totalTexts)%nat ->
  currentAngle index totalTexts (Fin progress)
  = Fin (INR index / (INR totalTexts - 1) * PI - progress * PI).
Proof.
  intros HN. unfold currentAngle. rewrite baseAngle_Fin by assumption.
  apply INR_ge_2 in HN.
  unfold of_nat, sub, neg, add, mul, Math_PI.
  rewrite div_Fin by lra. f_equal. field. lra.
Qed.

(** With a single text both quotients are [0 / 0]. *)
Lemma baseAngle_single : baseAngle 0 1 = NaN.
Proof.
  unfold baseAngle, of_nat, sub, neg, add.
  rewrite div_zero_zero; [reflexivity | reflexivity | simpl; lra].
Qed.

Lemma currentAngle_single (progress : number) :
  currentAngle 0 1 progress = NaN.
Proof.
  unfold currentAngle. rewrite baseAngle_single. reflexivity.
Qed.

(** The normalized angle of a finite angle: the representative of the
    angle modulo [2 * PI] in the interval from 0 to [2 * PI]. *)
Lemma normalizedAngle_Fin (a : R) :
  exists (n : R) (k : Z),
    normalizedAngle (Fin a) = Fin n /\
    0 <= n < PI * 2 /\
    n = a + PI * 2 * IZR k.
Proof.
  pose proof PI_gt_3 as Hpi.
  assert (Hy : PI * 2 <> 0) by lra.
  assert (Hy0 : 0 < PI * 2) by lra.
  unfold normalizedAngle, Math_PI. cbn [mul].
  rewrite (rem_Fin a) by assumption. cbn [add].
  rewrite rem_Fin by assumption.
  set (r1 := a - PI * 2 * IZR (Rtrunc (a / (PI * 2)))).
  set (t2 := Rtrunc ((r1 + PI * 2) / (PI * 2))).
  exists (r1 + PI * 2 - PI * 2 * IZR t2),
         (1 - Rtrunc (a / (PI * 2)) - t2)%Z.
  split; [reflexivity | split].
  - assert (Hr1 : - (PI * 2) < r1 < PI * 2).
    { unfold r1. destruct (Rle_dec 0 a) as [P | N].
      - pose proof (remainder_nonneg a _ Hy0 P). lra.
      - pose proof (remainder_neg a _ Hy0 ltac:(lra)). lra. }
    pose proof (remainder_nonneg (r1 + PI * 2) _ Hy0 ltac:(lra)) as H.
    exact H.
  - unfold r1. rewrite !minus_IZR. ring.
Qed.

Lemma isFocus_Fin (a n : R) :
  normalizedAngle (Fin a) = Fin n ->
  (isFocus (Fin a) = true <-> n < 3 / 10 \/ n > PI * 2 - 3 / 10).
Proof.
  intros E. unfold isFocus, gt. rewrite E.
  unfold Math_PI. cbn [mul sub neg add].
  rewrite orb_true_iff, !lt_Fin. split; intros [H | H]; [left | right | left | right]; lra.
Qed.

Lemma isFocus_NaN : isFocus NaN = false.
Proof. reflexivity. Qed.

End AngleFacts.

(* ================================================================== *)
(** * Facts about the page *)
(* ================================================================== *)

Section PageFacts.
Import JsNum Page PointAnimation.
Local Open Scope string_scope.

Lemma firstn_seq (n start len : nat) :
  firstn n (seq start len) = seq start (Nat.min n len).
Proof.
  revert start len. induction n as [ | n IH]; intros start [ | len];
    simpl; try reflexivity.
  f_equal. apply IH.
Qed.

Lemma length_update_nth {A} (i : nat) (f : A -> A) (l : list A) :
  List.length (update_nth i f l) = List.length l.
Proof.
  revert i. induction l as [ | x l IH]; intros [ | i]; simpl;
    try reflexivity.
  f_equal. apply IH.
Qed.

Lemma nth_error_update_nth {A} (i j : nat) (f : A -> A) (l : list A) :
  nth_error (update_nth i f l) j
  = if Nat.eqb j i then option_map f (nth_error l j) else nth_error l j.
Proof.
  revert i j. induction l as [ | x l IH]; intros [ | i] [ | j]; simpl;
    try reflexivity.
  - destruct (Nat.eqb j i); reflexivity.
  - apply IH.
Qed.

(** What a [forEach] over consecutive positions does when its callback
    rewrites the element at its own position. *)
Lemma forEach_from_seq (g : nat -> text -> text)
      (f : nat -> nat -> js unit) :
  (forall i q, gsap_defined q = true ->
     f i i q = Normal tt (with_texts (update_nth i (g i) (ani_texts q)) q)) ->
  forall n k p,
    gsap_defined p = true ->
    exists l,
      forEach_from (seq k n) k f p = Normal tt (with_texts l p) /\
      List.length l = List.length (ani_texts p) /\
      forall i,
        nth_error l i
        = if (k <=? i)%nat && (i <? k + n)%nat
          then option_map (g i) (nth_error (ani_texts p) i)
          else nth_error (ani_texts p) i.
Proof.
  intros Hf. induction n as [ | n IH]; intros k p Hg.
  - exists (ani_texts p). simpl. unfold ret. split; [ | split].
    + destruct p; reflexivity.
    + reflexivity.
    + intros i.
      destruct (Nat.leb_spec k i); destruct (Nat.ltb_spec i (k + 0));
        simpl; try reflexivity; lia.
  - simpl. unfold bind at 1. rewrite Hf by assumption.
    destruct (IH (S k) (with_texts (update_nth k (g k) (ani_texts p)) p) Hg)
      as (l & Hrun & Hlen & Hnth).
    exists l. split; [ | split].
    + rewrite Hrun. reflexivity.
    + rewrite Hlen. simpl. apply length_update_nth.
    + intros i. rewrite Hnth. simpl ani_texts.
      rewrite nth_error_update_nth.
      destruct (Nat.leb_spec (S k) i); destruct (Nat.ltb_spec i (S k + n));
        destruct (Nat.leb_spec k i); destruct (Nat.ltb_spec i (k + S n));
        destruct (Nat.eqb_spec i k); simpl; try reflexivity; try lia.
      subst i. reflexivity.
Qed.

Lemma contains_add_focus (l : list string) :
  contains "focus" (if contains "focus" l then l else l ++ ["focus"]) = true.
Proof.
  destruct (contains "focus" l) eqn:E; [exact E | ].
  unfold contains. rewrite existsb_app. cbn [existsb].
  rewrite String.eqb_refl. rewrite orb_true_r. reflexivity.
Qed.

Lemma contains_remove_focus (l : list string) :
  contains "focus" (filter (fun d => negb (String.eqb "focus" d)) l) = false.
Proof.
  unfold contains. induction l as [ | d l IH]; [reflexivity | ].
  cbn [filter]. destruct (String.eqb "focus" d) eqn:E; cbn [negb];
    [exact IH | ].
  cbn [existsb]. rewrite E. exact IH.
Qed.

Lemma update_nth_twice {A} (i : nat) (f g : A -> A) (l : list A) :
  update_nth i g (update_nth i f l) = update_nth i (fun x => g (f x)) l.
Proof.
  revert i. induction l as [ | x l IH]; intros [ | i]; simpl;
    try reflexivity.
  f_equal. apply IH.
Qed.

Lemma with_texts_same (p : page) : with_texts (ani_texts p) p = p.
Proof. destruct p; reflexivity. Qed.

(** One tick: every text of the closure gets the pose of its current
    angle at the radius of the closure, and holds the class [focus]
    exactly when that angle is in focus; the rest of the page is as it
    was. *)
Lemma onUpdate_effect (c : closure) (progress : number) (n : nat)
      (p : page) :
  gsap_defined p = true ->
  pointTexts c = seq 0 n ->
  (n <= List.length (ani_texts p))%nat ->
  exists l,
    onUpdate c progress p = Normal tt (with_texts l p) /\
    List.length l = List.length (ani_texts p) /\
    forall i, (i < n)%nat ->
      transform_at i (with_texts l p)
      = Some (pose (currentAngle i (totalTexts c) progress) (radius c)) /\
      focused_at i (with_texts l p)
      = isFocus (currentAngle i (totalTexts c) progress).
Proof.
  intros Hg Hpt Hn. unfold onUpdate, forEach. rewrite Hpt.
  destruct (forEach_from_seq
    (fun index t =>
       {| transform :=
            Some (pose (currentAngle index (totalTexts c) progress)
                       (radius c));
          classList :=
            if isFocus (currentAngle index (totalTexts c) progress)
            then (if contains "focus" (classList t) then classList t
                  else classList t ++ ["focus"])
            else filter (fun d => negb (String.eqb "focus" d))
                        (classList t) |})
    (fun text index =>
       let angle := currentAngle index (totalTexts c) progress in
       (gsap_set text (pose angle (radius c)) ;;
        if isFocus angle then classList_add text "focus"
        else classList_remove text "focus")%js)) with (n := n) (k := 0%nat) (p := p)
    as (l & Hrun & Hlen & Hnth).
  - intros i q Hq. cbv zeta. unfold bind, gsap_set. rewrite Hq.
    destruct (isFocus (currentAngle i (totalTexts c) progress));
      unfold classList_add, classList_remove; cbn [ani_texts with_texts];
      rewrite update_nth_twice; reflexivity.
  - assumption.
  - exists l. split; [exact Hrun | split; [exact Hlen | ] ].
    intros i Hi. unfold transform_at, focused_at. cbn [ani_texts with_texts].
    rewrite Hnth.
    destruct (Nat.leb_spec 0 i); [ | lia].
    destruct (Nat.ltb_spec i (0 + n)); [ | lia]. cbn [andb].
    destruct (nth_error (ani_texts p) i) as [t | ] eqn:E.
    + cbn [option_map transform classList]. split; [reflexivity | ].
      destruct (isFocus (currentAngle i (totalTexts c) progress)).
      * apply contains_add_focus.
      * apply contains_remove_focus.
    + apply nth_error_None in E. lia.
Qed.

(** The setup pass: every text gets the pose of its base angle at the
    radius of the width read at that moment. *)
Lemma initializePointTexts_effect (n totalTexts : nat) (p : page) :
  gsap_defined p = true ->
  (n <= List.length (ani_texts p))%nat ->
  exists l,
    initializePointTexts (seq 0 n) totalTexts p
    = Normal tt (with_texts l p) /\
    List.length l = List.length (ani_texts p) /\
    forall i, (i < n)%nat ->
      transform_at i (with_texts l p)
      = Some (pose (baseAngle i totalTexts)
                   (getPointRadius (innerWidth p))).
Proof.
  intros Hg Hn. unfold initializePointTexts, getPointRadius_call, forEach.
  unfold bind at 1 2. unfold window_innerWidth, ret.
  destruct (forEach_from_seq
    (fun index t =>
       {| transform :=
            Some (pose (baseAngle index totalTexts)
                       (getPointRadius (innerWidth p)));
          classList := classList t |})
    (fun text index =>
       let angle := baseAngle index totalTexts in
       gsap_set text (pose angle (getPointRadius (innerWidth p)))))
    with (n := n) (k := 0%nat) (p := p)
    as (l & Hrun & Hlen & Hnth).
  - intros i q Hq. cbv zeta. unfold gsap_set. rewrite Hq. reflexivity.
  - assumption.
  - exists l. split; [exact Hrun | split; [exact Hlen | ] ].
    intros i Hi. unfold transform_at. cbn [ani_texts with_texts].
    rewrite Hnth.
    destruct (Nat.leb_spec 0 i); [ | lia].
    destruct (Nat.ltb_spec i (0 + n)); [ | lia]. cbn [andb].
    destruct (nth_error (ani_texts p) i) as [t | ] eqn:E.
    + reflexivity.
    + apply nth_error_None in E. lia.
Qed.

(** Setup on a page where both libraries are loaded and there is a text:
    the first four texts at most are posed at their base angles, and one
    trigger is created, whose callback holds the radius of the width at
    that moment. *)
Lemma initPointAnimation_effect (p : page) :
  gsap_defined p = true ->
  ScrollTrigger_defined p = true ->
  ani_texts p <> [] ->
  exists l,
    initPointAnimation p
    = Normal tt
        (with_triggers
           (scroll_triggers p ++
              [ {| pointTexts := seq 0 (Nat.min 4 (List.length (ani_texts p)));
                   radius := getPointRadius (innerWidth p);
                   totalTexts := Nat.min 4 (List.length (ani_texts p)) |} ])
           (with_texts l p)) /\
    List.length l = List.length (ani_texts p) /\
    forall i, (i < Nat.min 4 (List.length (ani_texts p)))%nat ->
      transform_at i (with_texts l p)
      = Some (pose (baseAngle i (Nat.min 4 (List.length (ani_texts p))))
                   (getPointRadius (innerWidth p))).
Proof.
  intros Hg Hs Ht.
  assert (Hlen : List.length (ani_texts p) <> 0%nat).
  { destruct (ani_texts p); [congruence | simpl; lia]. }
  destruct (initializePointTexts_effect
              (Nat.min 4 (List.length (ani_texts p)))
              (Nat.min 4 (List.length (ani_texts p))) p Hg ltac:(lia))
    as (l & Hrun & Hl & Hpose).
  exists l. split; [ | split; assumption].
  unfold initPointAnimation, getPointRadius_call, typeof_gsap_undefined,
    typeof_ScrollTrigger_undefined, gsap_utils_toArray,
    window_innerWidth, slice0.
  unfold bind, ret.
  cbv beta iota. rewrite Hg, Hs. cbn [negb orb]. cbv beta iota.
  rewrite Hg. cbv beta iota.
  rewrite firstn_seq, length_seq.
  destruct (Nat.eqb_spec (Nat.min 4 (List.length (ani_texts p))) 0);
    [lia | ].
  cbv beta iota. rewrite Hrun. unfold ScrollTrigger_create.
  cbn [ScrollTrigger_defined with_texts]. rewrite Hs. reflexivity.
Qed.

(** What resizes and ticks keep: the library, the one trigger and the
    number of texts. *)
Lemma dispatch_keeps (c : closure) (n : nat) (e : event) (p : page) :
  gsap_defined p = true ->
  scroll_triggers p = [c] ->
  pointTexts c = seq 0 n ->
  (n <= List.length (ani_texts p))%nat ->
  exists p',
    dispatch e p = Normal tt p' /\
    gsap_defined p' = true /\
    scroll_triggers p' = [c] /\
    List.length (ani_texts p') = List.length (ani_texts p).
Proof.
  intros Hg Hc Hpt Hn. destruct e as [width now | progress].
  - unfold dispatch, handleResize, throttle, handleResize_body,
      typeof_AOS_undefined, typeof_ScrollTrigger_undefined, refresh.
    unfold bind, ret. cbn.
    destruct (200 <=? now - lastCall p)%Z; cbn;
      [destruct (AOS_defined p); cbn;
       destruct (ScrollTrigger_defined p); cbn | ];
      eexists; (split; [reflexivity | ]); cbn; repeat split; assumption.
  - unfold dispatch. rewrite Hc. cbn [each_trigger]. unfold bind.
    destruct (onUpdate_effect c progress n p Hg Hpt Hn)
      as (l & Hrun & Hl & _).
    rewrite Hrun. unfold ret. eexists; (split; [reflexivity | ]).
    cbn. repeat split; assumption.
Qed.

Lemma run_keeps (c : closure) (n : nat) (l : list event) (p : page) :
  gsap_defined p = true ->
  scroll_triggers p = [c] ->
  pointTexts c = seq 0 n ->
  (n <= List.length (ani_texts p))%nat ->
  exists p',
    run l p = Normal tt p' /\
    gsap_defined p' = true /\
    scroll_triggers p' = [c] /\
    List.length (ani_texts p') = List.length (ani_texts p).
Proof.
  revert p. induction l as [ | e l IH]; intros p Hg Hc Hpt Hn.
  - exists p. repeat split; assumption.
  - destruct (dispatch_keeps c n e p Hg Hc Hpt Hn)
      as (p1 & Hd & Hg1 & Hc1 & Hl1).
    destruct (IH p1 Hg1 Hc1 Hpt ltac:(lia)) as (p2 & Hr & Hg2 & Hc2 & Hl2).
    exists p2. cbn [run]. unfold bind. rewrite Hd.
    repeat split; try assumption. lia.
Qed.

Lemma run_app (l1 l2 : list event) (p : page) :
  run (l1 ++ l2) p = bind (run l1) (fun _ => run l2) p.
Proof.
  revert p. induction l1 as [ | e l1 IH]; intros p.
  - reflexivity.
  - cbn [app run]. unfold bind in *. destruct (dispatch e p); [ | reflexivity].
    apply IH.
Qed.

(** A tick after any resizes and ticks writes the poses of the radius
    held by the trigger. *)
Lemma tick_after_events (c : closure) (n : nat) (l : list event)
      (progress : number) (p : page) :
  gsap_defined p = true ->
  scroll_triggers p = [c] ->
  pointTexts c = seq 0 n ->
  (n <= List.length (ani_texts p))%nat ->
  exists p',
    run (l ++ [scroll progress]) p = Normal tt p' /\
    forall i, (i < n)%nat ->
      transform_at i p'
      = Some (pose (currentAngle i (totalTexts c) progress) (radius c)) /\
      focused_at i p' = isFocus (currentAngle i (totalTexts c) progress).
Proof.
  intros Hg Hc Hpt Hn.
  destruct (run_keeps c n l p Hg Hc Hpt Hn) as (p1 & Hr & Hg1 & Hc1 & Hl1).
  destruct (onUpdate_effect c progress n p1 Hg1 Hpt ltac:(lia))
    as (t & Hrun & _ & Hpose).
  exists (with_texts t p1). split; [ | exact Hpose].
  rewrite run_app. unfold bind. rewrite Hr. cbn [run dispatch].
  unfold bind. rewrite Hc1. cbn [each_trigger]. unfold bind.
  rewrite Hrun. reflexivity.
Qed.

End PageFacts.

(* ================================================================== *)
(** * The radius mapper *)
(* ================================================================== *)

Section RadiusTheorems.
Local Open Scope Z_scope.

Lemma getPointRadius_cases (w : Z) :
  (w <= 480 /\ getPointRadius w = 70) \/
  (480 < w <= 768 /\ getPointRadius w = 75) \/
  (768 < w <= 1200 /\ getPointRadius w = 100) \/
  (1200 < w /\ getPointRadius w = 120).
Proof.
  unfold getPointRadius.
  destruct (Z.leb_spec w 480); [left; split; [lia | reflexivity] | right].
  destruct (Z.leb_spec w 768); [left; split; [lia | reflexivity] | right].
  destruct (Z.leb_spec w 1200); [left; split; [lia | reflexivity] | right].
  split; [lia | reflexivity].
Qed.

(** C5: [getPointRadius] is a total function of the viewport width with
    inclusive ascending thresholds, the first that matches deciding:
    70 up to 480, 75 above 480 up to 768, 100 above 768 up to 1200, and
    120 above 1200; at the six boundary widths 480, 481, 768, 769, 1200
    and 1201 it gives 70, 75, 75, 100, 100 and 120. *)
Theorem C5_getPointRadius_thresholds (w : Z) :
  (w <= 480 -> getPointRadius w = 70) /\
  (480 < w <= 768 -> getPointRadius w = 75) /\
  (768 < w <= 1200 -> getPointRadius w = 100) /\
  (1200 < w -> getPointRadius w = 120) /\
  getPointRadius 480 = 70 /\
  getPointRadius 481 = 75 /\
  getPointRadius 768 = 75 /\
  getPointRadius 769 = 100 /\
  getPointRadius 1200 = 100 /\
  getPointRadius 1201 = 120.
Proof.
  pose proof (getPointRadius_cases w) as H.
  repeat split; try reflexivity; intros; lia.
Qed.

Lemma C5_getPointRadius_thresholds_witness :
  480 < 500 <= 768 /\ getPointRadius 500 = 75.
Proof.
  split; [lia | ].
  apply (proj1 (proj2 (C5_getPointRadius_thresholds 500))). lia.
Defined.

(** C10: [getPointRadius] never decreases as the width grows, and the
    values it takes are exactly 70, 75, 100 and 120. *)
Theorem C10_getPointRadius_monotone_range :
  (forall w1 w2 : Z,
      w1 <= w2 -> getPointRadius w1 <= getPointRadius w2) /\
  (forall r : Z,
      (exists w : Z, getPointRadius w = r)
      <-> r = 70 \/ r = 75 \/ r = 100 \/ r = 120).
Proof.
  split.
  - intros w1 w2 H.
    pose proof (getPointRadius_cases w1). pose proof (getPointRadius_cases w2).
    lia.
  - intros r. split.
    + intros [w <-]. pose proof (getPointRadius_cases w). lia.
    + intros [-> | [-> | [-> | ->] ] ];
        [exists 480 | exists 768 | exists 1200 | exists 1201]; reflexivity.
Qed.

Lemma C10_getPointRadius_monotone_range_witness :
  768 <= 769 /\ getPointRadius 768 <= getPointRadius 769.
Proof.
  split; [lia | ].
  apply (proj1 C10_getPointRadius_monotone_range). lia.
Defined.

End RadiusTheorems.

(* ================================================================== *)
(** * The focus window *)
(* ================================================================== *)

Section FocusFacts.
Import JsNum PointAnimation.
Local Open Scope R_scope.


(** With four texts, the angles of two texts at the same progress
    differ by their distance in positions times [PI / 3]. *)
Lemma currentAngle_four (i : nat) (progress : R) :
  currentAngle i 4 (Fin progress)
  = Fin (IZR (Z.of_nat i) * (PI / 3) - progress * PI).
Proof.
  rewrite currentAngle_Fin by lia. f_equal.
  rewrite INR_IZR_INZ. simpl INR. field.
Qed.


End FocusFacts.

(* ================================================================== *)
(** * Setup and ticks of the point animation *)
(* ================================================================== *)

Section PointTheorems.
Import JsNum Page PointAnimation.
Local Open Scope string_scope.
Local Open Scope list_scope.
Local Open Scope R_scope.

(** C8: when [gsap] or [ScrollTrigger] is undefined, [initPointAnimation]
    returns normally, creates no scroll trigger, writes on no text, and
    logs one error to the console. *)
Theorem C8_setup_without_libraries (p : page) :
  gsap_defined p = false \/ ScrollTrigger_defined p = false ->
  initPointAnimation p
  = Normal tt
      (with_console
         (console p ++ [(error, "GSAP or ScrollTrigger not loaded")]) p) /\
  threw (initPointAnimation p) = false /\
  scroll_triggers (page_of (initPointAnimation p)) = scroll_triggers p /\
  ani_texts (page_of (initPointAnimation p)) = ani_texts p /\
  console (page_of (initPointAnimation p))
  = console p ++ [(error, "GSAP or ScrollTrigger not loaded")].
Proof.
  intros H.
  assert (E : initPointAnimation p
              = Normal tt
                  (with_console
                     (console p
                        ++ [(error, "GSAP or ScrollTrigger not loaded")]) p)).
  { unfold initPointAnimation, typeof_gsap_undefined,
      typeof_ScrollTrigger_undefined, console_error.
    unfold bind. cbv beta iota.
    destruct H as [H | H]; rewrite H.
    - reflexivity.
    - destruct (gsap_defined p); reflexivity. }
  rewrite E. repeat split.
Qed.

Lemma C8_setup_without_libraries_witness :
  initPointAnimation (unloaded_page 1024 4)
  = Normal tt
      (with_console [(error, "GSAP or ScrollTrigger not loaded")]
                    (unloaded_page 1024 4)).
Proof.
  apply (C8_setup_without_libraries (unloaded_page 1024 4)).
  left. reflexivity.
Defined.

(** C3 (as amended): on a page with two texts or more, after setup and
    any resizes and ticks, a tick at a progress writes on each text of
    the trigger the pose [(sin a * radius, cos a * radius,
    - (a * 180 / PI))] of the angle
    [a = baseAngle - (rotationProgress * PI) / (N - 1)], with
    [baseAngle = (index / (N - 1)) * PI] and
    [rotationProgress = progress * (N - 1)], for the radius of the setup;
    a tick at progress 0 writes again exactly the pose that setup wrote,
    the pose of [baseAngle]; and a tick at progress 1 writes the pose of
    [baseAngle - PI], one span of the base angles further.  At the two
    ends this is exact in double precision too: for 2 to 4 texts the
    angle computed at progress 0 is the double [baseAngle] and the angle
    computed at progress 1 is the double [baseAngle - Math.PI]. *)
Theorem C3_update_angle_and_initial_pose
        (p0 : page) (evs : list event) (progress : number) :
  gsap_defined p0 = true ->
  ScrollTrigger_defined p0 = true ->
  scroll_triggers p0 = [] ->
  (2 <= List.length (ani_texts p0))%nat ->
  (exists p1 p2 p3 p4 : page,
      initPointAnimation p0 = Normal tt p1 /\
      run (evs ++ [scroll progress]) p1 = Normal tt p2 /\
      run (evs ++ [scroll (Fin 0)]) p1 = Normal tt p3 /\
      run (evs ++ [scroll (Fin 1)]) p1 = Normal tt p4 /\
      forall index : nat,
        (index < Nat.min 4 (List.length (ani_texts p0)))%nat ->
        currentAngle index (Nat.min 4 (List.length (ani_texts p0))) progress
        = sub (mul (div (of_nat index)
                        (sub (of_nat (Nat.min 4 (List.length (ani_texts p0))))
                             (Fin 1)))
                   Math_PI)
              (div (mul (mul progress
                             (sub (of_nat
                                     (Nat.min 4 (List.length (ani_texts p0))))
                                  (Fin 1)))
                        Math_PI)
                   (sub (of_nat (Nat.min 4 (List.length (ani_texts p0))))
                        (Fin 1))) /\
        transform_at index p2
        = Some {| Gsap.y :=
                    mul (Math_sin
                           (currentAngle index
                              (Nat.min 4 (List.length (ani_texts p0)))
                              progress))
                        (of_Z (getPointRadius (innerWidth p0)));
                  Gsap.z :=
                    mul (Math_cos
                           (currentAngle index
                              (Nat.min 4 (List.length (ani_texts p0)))
                              progress))
                        (of_Z (getPointRadius (innerWidth p0)));
                  Gsap.rotateX :=
                    neg (div (mul (currentAngle index
                                     (Nat.min 4 (List.length (ani_texts p0)))
                                     progress)
                                  (Fin 180))
                             Math_PI) |} /\
        transform_at index p1
        = Some (pose (baseAngle index
                        (Nat.min 4 (List.length (ani_texts p0))))
                     (getPointRadius (innerWidth p0))) /\
        transform_at index p3 = transform_at index p1 /\
        transform_at index p4
        = Some (pose (sub (baseAngle index
                             (Nat.min 4 (List.length (ani_texts p0))))
                          Math_PI)
                     (getPointRadius (innerWidth p0)))) /\
  (forall N index : nat,
      (2 <= N <= 4)%nat -> (index < N)%nat ->
      Binary64.currentAngle index N Binary64.progress_start
      = Binary64.baseAngle index N /\
      Binary64.currentAngle index N Binary64.progress_end
      = PrimFloat.sub (Binary64.baseAngle index N) Binary64.Math_PI).
Proof.
  intros Hg Hs Ht Hlen. split.
  - assert (Hne : ani_texts p0 <> []).
    { destruct (ani_texts p0); [simpl in Hlen; lia | discriminate]. }
    destruct (initPointAnimation_effect p0 Hg Hs Hne)
      as (l & Hinit & Hl & Hpose).
    rewrite Ht in Hinit.
    set (N := Nat.min 4 (List.length (ani_texts p0))) in *.
    assert (HN : (2 <= N)%nat) by (unfold N; lia).
    set (c := {| pointTexts := seq 0 N;
                 radius := getPointRadius (innerWidth p0);
                 totalTexts := N |}) in *.
    set (p1 := with_triggers ([] ++ [c]) (with_texts l p0)) in *.
    assert (Hle : (N <= List.length (ani_texts p1))%nat).
    { unfold p1. cbn [ani_texts with_triggers with_texts]. rewrite Hl.
      unfold N. lia. }
    destruct (tick_after_events c N evs progress p1 Hg eq_refl eq_refl Hle)
      as (p2 & Hrun2 & Htick2).
    destruct (tick_after_events c N evs (Fin 0) p1 Hg eq_refl eq_refl Hle)
      as (p3 & Hrun3 & Htick3).
    destruct (tick_after_events c N evs (Fin 1) p1 Hg eq_refl eq_refl Hle)
      as (p4 & Hrun4 & Htick4).
    exists p1, p2, p3, p4.
    split; [exact Hinit | ]. split; [exact Hrun2 | ].
    split; [exact Hrun3 | ]. split; [exact Hrun4 | ].
    intros index Hi.
    destruct (Htick2 index Hi) as [E2 _].
    destruct (Htick3 index Hi) as [E3 _].
    destruct (Htick4 index Hi) as [E4 _].
    change (totalTexts c) with N in E2, E3, E4.
    change (radius c) with (getPointRadius (innerWidth p0)) in E2, E3, E4.
    assert (E1 : transform_at index p1
                 = Some (pose (baseAngle index N)
                              (getPointRadius (innerWidth p0)))).
    { change (transform_at index p1)
        with (transform_at index (with_texts l p0)).
      apply Hpose. exact Hi. }
    split; [reflexivity | ]. split; [exact E2 | ]. split; [exact E1 | ].
    split.
    + rewrite E3, E1. f_equal. f_equal.
      rewrite currentAngle_Fin, baseAngle_Fin by assumption. f_equal. ring.
    + rewrite E4. f_equal. f_equal.
      rewrite currentAngle_Fin, baseAngle_Fin by assumption.
      unfold sub, neg, add, Math_PI. f_equal. ring.
  - intros N index [HN2 HN4] Hi.
    assert (HN : N = 2%nat \/ N = 3%nat \/ N = 4%nat) by lia.
    destruct HN as [-> | [-> | ->] ];
      do 4 (destruct index as [ | index]; [split; reflexivity | ]);
      lia.
Qed.

Lemma C3_update_angle_and_initial_pose_witness :
  exists p1 p2 p3 p4 : page,
    initPointAnimation (fresh_page 1024 4) = Normal tt p1 /\
    run ([resize 500 1000] ++ [scroll (Fin (1 / 2))]) p1 = Normal tt p2 /\
    run ([resize 500 1000] ++ [scroll (Fin 0)]) p1 = Normal tt p3 /\
    run ([resize 500 1000] ++ [scroll (Fin 1)]) p1 = Normal tt p4 /\
    forall index : nat,
      (index < 4)%nat ->
      currentAngle index 4 (Fin (1 / 2))
      = sub (mul (div (of_nat index) (sub (of_nat 4) (Fin 1))) Math_PI)
            (div (mul (mul (Fin (1 / 2)) (sub (of_nat 4) (Fin 1))) Math_PI)
                 (sub (of_nat 4) (Fin 1))) /\
      transform_at index p2
      = Some {| Gsap.y :=
                  mul (Math_sin (currentAngle index 4 (Fin (1 / 2))))
                      (of_Z 100);
                Gsap.z :=
                  mul (Math_cos (currentAngle index 4 (Fin (1 / 2))))
                      (of_Z 100);
                Gsap.rotateX :=
                  neg (div (mul (currentAngle index 4 (Fin (1 / 2)))
                                (Fin 180))
                           Math_PI) |} /\
      transform_at index p1 = Some (pose (baseAngle index 4) 100) /\
      transform_at index p3 = transform_at index p1 /\
      transform_at index p4
      = Some (pose (sub (baseAngle index 4) Math_PI) 100).
Proof.
  apply (C3_update_angle_and_initial_pose
           (fresh_page 1024 4) [resize 500 1000] (Fin (1 / 2))).
  - reflexivity.
  - reflexivity.
  - reflexivity.
  - simpl. lia.
Defined.

(** C3 (as stated) fails in double precision: with four texts, for the
    second text at progress 5/64 = 0.078125, the angle the update
    computes, [baseAngle - (rotationProgress * Math.PI) / (N - 1)], is
    the double 0.8017606251348951, while [baseAngle - progress * Math.PI]
    is the double 0.801760625134895, one unit in the last place below:
    the product [progress * (N - 1) * Math.PI] is rounded before the
    division by [N - 1]. *)
Lemma C3_angle_differs_from_progress_times_PI :
  PrimFloat.ltb
    (PrimFloat.sub (Binary64.baseAngle 1 4)
                   (PrimFloat.mul Binary64.progress_5_64 Binary64.Math_PI))
    (Binary64.currentAngle 1 4 Binary64.progress_5_64)
  = true /\
  Binary64.currentAngle 1 4 Binary64.progress_5_64
  <> PrimFloat.sub (Binary64.baseAngle 1 4)
                   (PrimFloat.mul Binary64.progress_5_64 Binary64.Math_PI).
Proof.
  split; [reflexivity | ].
  intros H.
  pose proof (f_equal
                (fun x =>
                   PrimFloat.ltb
                     (PrimFloat.sub
                        (Binary64.baseAngle 1 4)
                        (PrimFloat.mul Binary64.progress_5_64
                                       Binary64.Math_PI)) x) H) as F.
  cbv in F. discriminate F.
Qed.

(** An angle already between 0 and [2 * PI] is its own normalized
    angle. *)
Lemma normalizedAngle_in_range (a : R) :
  0 <= a < PI * 2 -> normalizedAngle (Fin a) = Fin a.
Proof.
  intros Ha. pose proof PI_gt_3 as Hpi.
  destruct (normalizedAngle_Fin a) as (n & k & E & B & Rk).
  assert (K : k = 0%Z) by (apply IZR_small_zero; split; nra).
  subst k. rewrite E. f_equal. lra.
Qed.

Lemma currentAngle_first_at_rest : currentAngle 0 4 (Fin 0) = Fin 0.
Proof. rewrite currentAngle_four. f_equal. simpl. lra. Qed.


Lemma currentAngle_last_at_rest : currentAngle 3 4 (Fin 0) = Fin PI.
Proof. rewrite currentAngle_four. f_equal. simpl. field. Qed.

(** The focus test of a tick.  A text holds the class [focus] after a
    tick exactly when its normalized angle, [((a % 2PI) + 2PI) % 2PI] for
    its current angle [a], is below 0.3 or above [2 * PI - 0.3]; for two
    texts or more that normalized angle is a number from 0 (included) to
    [2 * PI] (excluded); with four texts at progress 0, the first text
    (angle 0) is in focus and the last (base angle [PI]) is not. *)
Lemma tick_normalized_angle_and_focus
        (c : closure) (p : page) (index : nat) (progress : R) :
  gsap_defined p = true ->
  pointTexts c = seq 0 (totalTexts c) ->
  (totalTexts c <= List.length (ani_texts p))%nat ->
  (index < totalTexts c)%nat ->
  0 <= progress <= 1 ->
  (exists p' : page,
      onUpdate c (Fin progress) p = Normal tt p' /\
      focused_at index p'
      = (lt (normalizedAngle
               (currentAngle index (totalTexts c) (Fin progress)))
            (Fin (3 / 10))
         || gt (normalizedAngle
                  (currentAngle index (totalTexts c) (Fin progress)))
               (sub (mul Math_PI (Fin 2)) (Fin (3 / 10))))%bool /\
      ((2 <= totalTexts c)%nat ->
       exists n : R,
         normalizedAngle (currentAngle index (totalTexts c) (Fin progress))
         = Fin n /\
         0 <= n < PI * 2 /\
         (focused_at index p' = true
          <-> n < 3 / 10 \/ n > PI * 2 - 3 / 10))) /\
  currentAngle 0 4 (Fin 0) = Fin 0 /\
  normalizedAngle (currentAngle 0 4 (Fin 0)) = Fin 0 /\
  isFocus (currentAngle 0 4 (Fin 0)) = true /\
  baseAngle 3 4 = Fin PI /\
  isFocus (currentAngle 3 4 (Fin 0)) = false.
Proof.
  intros Hg Hpt Hlen Hi Hp. pose proof PI_gt_3 as Hpi.
  split; [ | repeat split].
  - destruct (onUpdate_effect c (Fin progress) (totalTexts c) p Hg Hpt Hlen)
      as (l & Hrun & _ & Hpose).
    destruct (Hpose index Hi) as [_ Hf].
    exists (with_texts l p).
    split; [exact Hrun | split; [exact Hf | ] ].
    intros HN. rewrite Hf. rewrite currentAngle_Fin by assumption.
    destruct (normalizedAngle_Fin
                (INR index / (INR (totalTexts c) - 1) * PI - progress * PI))
      as (n & k & E & B & _).
    exists n. split; [exact E | split; [exact B | ] ].
    apply isFocus_Fin. exact E.
  - apply currentAngle_first_at_rest.
  - rewrite currentAngle_first_at_rest.
    apply normalizedAngle_in_range. lra.
  - rewrite currentAngle_first_at_rest.
    apply (isFocus_Fin 0 0); [apply normalizedAngle_in_range | ]; lra.
  - rewrite <- currentAngle_last_at_rest.
    rewrite !currentAngle_four, baseAngle_Fin by lia.
    f_equal. simpl. field.
  - rewrite currentAngle_last_at_rest.
    destruct (isFocus (Fin PI)) eqn:F; [ | reflexivity].
    apply (isFocus_Fin PI PI) in F; [lra | ].
    apply normalizedAngle_in_range. lra.
Qed.

Example tick_normalized_angle_and_focus_of_four :
  exists (n : R) (p' : page),
    normalizedAngle (currentAngle 1 4 (Fin (1 / 3))) = Fin n /\
    0 <= n < PI * 2 /\
    onUpdate {| pointTexts := seq 0 4; radius := 100; totalTexts := 4 |}
             (Fin (1 / 3)) (fresh_page 1024 4)
    = Normal tt p' /\
    (focused_at 1 p' = true <-> n < 3 / 10 \/ n > PI * 2 - 3 / 10).
Proof.
  destruct (tick_normalized_angle_and_focus
              {| pointTexts := seq 0 4; radius := 100; totalTexts := 4 |}
              (fresh_page 1024 4) 1 (1 / 3)
              eq_refl eq_refl ltac:(simpl; lia) ltac:(simpl; lia)
              ltac:(lra))
    as [(p' & Hrun & _ & Hrange) _].
  destruct (Hrange ltac:(simpl; lia)) as (n & E & B & F).
  exists n, p'. repeat split; try assumption; apply B || apply F.
Defined.



(** C2: with exactly one text, setup and every later tick return
    normally, but what they write on the text is not the pose of angle 0:
    the base angle is [0 / 0], so all three properties written are [NaN]
    (and the text never holds the class [focus]). *)
Theorem C2_single_text_pose_is_NaN
        (width : Z) (evs : list event) (progress : number) :
  exists p1 p2 : page,
    initPointAnimation (fresh_page width 1) = Normal tt p1 /\
    transform_at 0 p1
    = Some {| Gsap.y := NaN; Gsap.z := NaN; Gsap.rotateX := NaN |} /\
    run (evs ++ [scroll progress]) p1 = Normal tt p2 /\
    transform_at 0 p2
    = Some {| Gsap.y := NaN; Gsap.z := NaN; Gsap.rotateX := NaN |} /\
    focused_at 0 p2 = false /\
    transform_at 0 p2
    <> Some {| Gsap.y := Fin 0;
               Gsap.z := of_Z (getPointRadius width);
               Gsap.rotateX := Fin 0 |}.
Proof.
  destruct (initPointAnimation_effect (fresh_page width 1))
    as (l & Hinit & Hl & Hpose); try reflexivity; [discriminate | ].
  change (Nat.min 4 (List.length (ani_texts (fresh_page width 1))))
    with 1%nat in *.
  change (innerWidth (fresh_page width 1)) with width in *.
  change (scroll_triggers (fresh_page width 1)) with (@nil closure) in *.
  set (c := {| pointTexts := seq 0 1; radius := getPointRadius width;
               totalTexts := 1 |}) in *.
  set (p1 := with_triggers ([] ++ [c]) (with_texts l (fresh_page width 1)))
    in *.
  destruct (tick_after_events c 1 evs progress p1) as (p2 & Hrun & Htick);
    try reflexivity.
  { unfold p1. cbn [ani_texts with_triggers with_texts]. rewrite Hl.
    simpl. lia. }
  destruct (Htick 0%nat ltac:(lia)) as [Ht Hf].
  change (totalTexts c) with 1%nat in Ht, Hf.
  rewrite currentAngle_single in Ht, Hf.
  exists p1, p2. split; [exact Hinit | split].
  - change (transform_at 0 p1)
      with (transform_at 0 (with_texts l (fresh_page width 1))).
    rewrite (Hpose 0%nat ltac:(lia)).
    rewrite baseAngle_single. reflexivity.
  - split; [exact Hrun | ]. split; [exact Ht | ].
    split; [exact Hf | ]. rewrite Ht. discriminate.
Qed.

(** C4: with exactly one text the normalized angle of a tick is not a
    number from 0 to [2 * PI]: the current angle is built on [0 / 0] and
    is [NaN], and so is [((a % 2PI) + 2PI) % 2PI]; both comparisons of
    the focus test are false on it, and the text does not hold the class
    [focus] after the tick.  (Only an empty list of texts is guarded; for
    two texts or more the range holds, see
    [tick_normalized_angle_and_focus].) *)
Theorem C4_single_text_normalized_angle_is_NaN
        (width : Z) (evs : list event) (progress : number) :
  exists p1 p2 : page,
    initPointAnimation (fresh_page width 1) = Normal tt p1 /\
    scroll_triggers p1
    = [ {| pointTexts := [0%nat]; radius := getPointRadius width;
           totalTexts := 1 |} ] /\
    run (evs ++ [scroll progress]) p1 = Normal tt p2 /\
    normalizedAngle (currentAngle 0 1 progress) = NaN /\
    ~ (exists n : R,
          normalizedAngle (currentAngle 0 1 progress) = Fin n /\
          0 <= n < PI * 2) /\
    lt (normalizedAngle (currentAngle 0 1 progress)) (Fin (3 / 10))
    = false /\
    gt (normalizedAngle (currentAngle 0 1 progress))
       (sub (mul Math_PI (Fin 2)) (Fin (3 / 10)))
    = false /\
    focused_at 0 p2 = false.
Proof.
  destruct (initPointAnimation_effect (fresh_page width 1))
    as (l & Hinit & Hl & _); try reflexivity; [discriminate | ].
  change (Nat.min 4 (List.length (ani_texts (fresh_page width 1))))
    with 1%nat in *.
  change (innerWidth (fresh_page width 1)) with width in *.
  change (scroll_triggers (fresh_page width 1)) with (@nil closure) in *.
  set (c := {| pointTexts := seq 0 1; radius := getPointRadius width;
               totalTexts := 1 |}) in *.
  set (p1 := with_triggers ([] ++ [c]) (with_texts l (fresh_page width 1)))
    in *.
  destruct (tick_after_events c 1 evs progress p1) as (p2 & Hrun & Htick);
    try reflexivity.
  { unfold p1. cbn [ani_texts with_triggers with_texts]. rewrite Hl.
    simpl. lia. }
  destruct (Htick 0%nat ltac:(lia)) as [_ Hf].
  change (totalTexts c) with 1%nat in Hf.
  rewrite currentAngle_single in Hf.
  exists p1, p2. rewrite currentAngle_single.
  split; [exact Hinit | ]. split; [reflexivity | ]. split; [exact Hrun | ].
  split; [reflexivity | ]. split.
  - intros (n & E & _). discriminate E.
  - split; [reflexivity | ]. split; [reflexivity | exact Hf].
Qed.

(** C1 (as amended): the radius is read once, at setup; a resize changes
    [window.innerWidth] and refreshes the libraries but leaves the radius
    of the trigger as it was.  After any resizes and ticks, the pose a
    tick writes on each text is a function of the position of the text,
    the number of texts, the radius of the width at setup, and the
    progress of that tick, so two ticks at the same progress write the
    same pose whatever happened before them. *)
Theorem C1_pose_uses_setup_radius
        (p0 : page) (evs evs' : list event) (progress : number) :
  gsap_defined p0 = true ->
  ScrollTrigger_defined p0 = true ->
  scroll_triggers p0 = [] ->
  ani_texts p0 <> [] ->
  exists p1 p2 p2' : page,
    initPointAnimation p0 = Normal tt p1 /\
    run (evs ++ [scroll progress]) p1 = Normal tt p2 /\
    run (evs' ++ [scroll progress]) p1 = Normal tt p2' /\
    forall index : nat,
      (index < Nat.min 4 (List.length (ani_texts p0)))%nat ->
      transform_at index p2
      = Some (pose (currentAngle index
                      (Nat.min 4 (List.length (ani_texts p0))) progress)
                   (getPointRadius (innerWidth p0))) /\
      transform_at index p2' = transform_at index p2.
Proof.
  intros Hg Hs Ht Hne.
  destruct (initPointAnimation_effect p0 Hg Hs Hne)
    as (l & Hinit & Hl & _).
  rewrite Ht in Hinit.
  set (N := Nat.min 4 (List.length (ani_texts p0))) in *.
  set (c := {| pointTexts := seq 0 N;
               radius := getPointRadius (innerWidth p0);
               totalTexts := N |}) in *.
  set (p1 := with_triggers ([] ++ [c]) (with_texts l p0)) in *.
  assert (Hlen : (N <= List.length (ani_texts p1))%nat).
  { unfold p1. cbn [ani_texts with_triggers with_texts]. rewrite Hl.
    unfold N. lia. }
  destruct (tick_after_events c N evs progress p1 Hg eq_refl eq_refl Hlen)
    as (p2 & Hrun & Htick).
  destruct (tick_after_events c N evs' progress p1 Hg eq_refl eq_refl Hlen)
    as (p2' & Hrun' & Htick').
  exists p1, p2, p2'.
  split; [exact Hinit | split; [exact Hrun | split; [exact Hrun' | ] ] ].
  intros index Hi.
  destruct (Htick index Hi) as [E _]. destruct (Htick' index Hi) as [E' _].
  split; [exact E | ]. rewrite E, E'. reflexivity.
Qed.

Lemma C1_pose_uses_setup_radius_witness :
  exists p1 p2 p2' : page,
    initPointAnimation (fresh_page 1300 4) = Normal tt p1 /\
    run ([resize 400 1000] ++ [scroll (Fin (1 / 2))]) p1 = Normal tt p2 /\
    run ([] ++ [scroll (Fin (1 / 2))]) p1 = Normal tt p2' /\
    forall index : nat,
      (index < 4)%nat ->
      transform_at index p2
      = Some (pose (currentAngle index 4 (Fin (1 / 2))) 120) /\
      transform_at index p2' = transform_at index p2.
Proof.
  apply (C1_pose_uses_setup_radius
           (fresh_page 1300 4) [resize 400 1000] [] (Fin (1 / 2))).
  - reflexivity.
  - reflexivity.
  - reflexivity.
  - simpl. discriminate.
Defined.

(** C1 (as stated) fails: set up at width 1300 (radius 120), resize to
    width 400 (radius 70), then tick at progress 0.  The width at the
    tick is 400, but the first text is written at depth 120, the radius
    of the width at setup, not at depth 70. *)
Lemma C1_resize_keeps_old_radius :
  exists p1 p2 p3 : page,
    initPointAnimation (fresh_page 1300 4) = Normal tt p1 /\
    dispatch (resize 400 1000) p1 = Normal tt p2 /\
    dispatch (scroll (Fin 0)) p2 = Normal tt p3 /\
    innerWidth p3 = 400%Z /\
    getPointRadius (innerWidth p3) = 70%Z /\
    transform_at 0 p3
    = Some {| Gsap.y := Fin (sin 0 * 120);
              Gsap.z := Fin 120;
              Gsap.rotateX := Fin (- (0 * 180 / PI)) |} /\
    transform_at 0 p3
    <> Some (pose (currentAngle 0 4 (Fin 0))
                  (getPointRadius (innerWidth p3))).
Proof.
  pose proof PI_gt_3 as Hpi.
  destruct (initPointAnimation_effect (fresh_page 1300 4))
    as (l & Hinit & Hl & _); try reflexivity; [discriminate | ].
  change (Nat.min 4 (List.length (ani_texts (fresh_page 1300 4))))
    with 4%nat in *.
  change (getPointRadius (innerWidth (fresh_page 1300 4))) with 120%Z in *.
  change (scroll_triggers (fresh_page 1300 4)) with (@nil closure) in *.
  set (c := {| pointTexts := seq 0 4; radius := 120; totalTexts := 4 |})
    in *.
  set (p1 := with_triggers ([] ++ [c]) (with_texts l (fresh_page 1300 4)))
    in *.
  set (p2 := with_refreshed ["AOS"; "ScrollTrigger"]
               (with_lastCall 1000 (with_innerWidth 400 p1))).
  assert (Hlen : (4 <= List.length (ani_texts p2))%nat).
  { unfold p2, p1. cbn [ani_texts with_triggers with_texts with_refreshed
                          with_lastCall with_innerWidth].
    rewrite Hl. simpl. lia. }
  destruct (onUpdate_effect c (Fin 0) 4 p2 eq_refl eq_refl Hlen)
    as (t & Hrun & _ & Hpose).
  destruct (Hpose 0%nat ltac:(lia)) as [E _].
  change (totalTexts c) with 4%nat in E. change (radius c) with 120%Z in E.
  assert (P : pose (currentAngle 0 4 (Fin 0)) 120
              = {| Gsap.y := Fin (sin 0 * 120);
                   Gsap.z := Fin 120;
                   Gsap.rotateX := Fin (- (0 * 180 / PI)) |}).
  { rewrite currentAngle_first_at_rest.
    unfold pose, Math_sin, Math_cos, mul, of_Z, neg, Math_PI.
    rewrite div_Fin by lra. rewrite cos_0. f_equal. f_equal. lra. }
  exists p1, p2, (with_texts t p2).
  split; [exact Hinit | ]. split; [reflexivity | ].
  split.
  { unfold dispatch. change (scroll_triggers p2) with [c].
    cbn [each_trigger]. unfold bind. rewrite Hrun. reflexivity. }
  split; [reflexivity | ]. split; [reflexivity | ].
  split; [rewrite E; rewrite P; reflexivity | ].
  rewrite E, P.
  change (getPointRadius (innerWidth (with_texts t p2))) with 70%Z.
  rewrite currentAngle_first_at_rest.
  unfold pose, Math_sin, Math_cos, mul, of_Z. rewrite cos_0.
  intros H. injection H as _ Hz _. lra.
Qed.

End PointTheorems.

(* ================================================================== *)
(** * The preload of the background image *)
(* ================================================================== *)

Section PreloadTheorems.
Import Preload.
Local Open Scope string_scope.
Local Open Scope list_scope.

Lemma images_console_add l m d : images (console_add l m d) = images d.
Proof. reflexivity. Qed.

Lemma images_appendChild k d : images (appendChild k d) = images d.
Proof. reflexivity. Qed.

Lemma images_set_src s d : images (set_src s d) = images d ++ [s].
Proof. reflexivity. Qed.

Lemma images_applyBackgroundImage s d :
  images (applyBackgroundImage s d) = images d.
Proof. unfold applyBackgroundImage. destruct (pointBox d); reflexivity. Qed.

Lemma head_console_add l m d : head (console_add l m d) = head d.
Proof. reflexivity. Qed.

Lemma head_appendChild k d : head (appendChild k d) = head d ++ [k].
Proof. reflexivity. Qed.

Lemma head_set_src s d : head (set_src s d) = head d.
Proof. reflexivity. Qed.

Lemma head_applyBackgroundImage s d :
  head (applyBackgroundImage s d) = head d.
Proof. unfold applyBackgroundImage. destruct (pointBox d); reflexivity. Qed.

Create Rewrite HintDb document.
#[local] Hint Rewrite images_console_add images_appendChild images_set_src
     images_applyBackgroundImage head_console_add head_appendChild
     head_set_src head_applyBackgroundImage : document.

(** Off the [file:] protocol, without WebP: only the JPEG is hinted and
    loaded, and the promise settles either way. *)
Lemma preload_without_webp (e : environment) (d : document) :
  String.eqb (protocol e) "file:" = false ->
  Z.eqb (webP_height e) 2 = false ->
  images (snd (aggressivePreloadImages e d))
  = images d ++ [probe_src; "./images/point_bg.jpg"] /\
  head (snd (aggressivePreloadImages e d))
  = head d ++ [ {| rel := "preload"; as_ := "image";
                   href := "./images/point_bg.jpg";
                   fetchPriority := "high" |} ] /\
  fst (aggressivePreloadImages e d)
  = match fetch e "./images/point_bg.jpg" with
    | onload => Fulfilled (boolean true)
    | onerror => Rejected (boolean false)
    end.
Proof.
  intros Hp Hw. unfold aggressivePreloadImages, supportsWebP, Image_load.
  rewrite Hp, Hw. cbv beta iota zeta.
  destruct (fetch e "./images/point_bg.jpg"); cbn [andb fst snd];
    autorewrite with document; rewrite <- app_assoc; repeat split.
Qed.

(** Off the [file:] protocol, with WebP, when the load of the WebP ends
    in an error: the JPEG is loaded next, once; the promise is settled
    by neither outcome of that load. *)
Lemma preload_webp_error (e : environment) (d : document) :
  String.eqb (protocol e) "file:" = false ->
  Z.eqb (webP_height e) 2 = true ->
  fetch e "./images/point_bg.webp" = onerror ->
  images (snd (aggressivePreloadImages e d))
  = images d
      ++ [probe_src; "./images/point_bg.webp"; "./images/point_bg.jpg"] /\
  fst (aggressivePreloadImages e d) = Pending.
Proof.
  intros Hp Hw Hf.
  unfold aggressivePreloadImages, supportsWebP, Image_load.
  rewrite Hp, Hw. cbv beta iota zeta. rewrite Hf.
  change (includes "./images/point_bg.webp" ".webp") with true.
  cbn [andb fst snd]. unfold loadFallbackImage, Image_load.
  destruct (fetch e "./images/point_bg.jpg");
    autorewrite with document; rewrite <- !app_assoc; repeat split.
Qed.

(** C6: when the probe reports no WebP support, the WebP path is never
    requested: the JPEG is the one file hinted and loaded.  When the
    probe reports support and the load of the WebP fails, one load of
    the JPEG is issued, and nothing is loaded after it, whatever that
    load ends in. *)
Theorem C6_preload_format_and_single_fallback
        (e : environment) (d : document) :
  String.eqb (protocol e) "file:" = false ->
  (Z.eqb (webP_height e) 2 = false ->
   images (snd (aggressivePreloadImages e d))
   = images d ++ [probe_src; "./images/point_bg.jpg"] /\
   head (snd (aggressivePreloadImages e d))
   = head d ++ [ {| rel := "preload"; as_ := "image";
                    href := "./images/point_bg.jpg";
                    fetchPriority := "high" |} ] /\
   path_loads (snd (aggressivePreloadImages e d))
   = path_loads d ++ ["./images/point_bg.jpg"]) /\
  (Z.eqb (webP_height e) 2 = true ->
   fetch e "./images/point_bg.webp" = onerror ->
   images (snd (aggressivePreloadImages e d))
   = images d
       ++ [probe_src; "./images/point_bg.webp"; "./images/point_bg.jpg"] /\
   path_loads (snd (aggressivePreloadImages e d))
   = path_loads d ++ ["./images/point_bg.webp"; "./images/point_bg.jpg"]).
Proof.
  intros Hp. split.
  - intros Hw. destruct (preload_without_webp e d Hp Hw) as (Hi & Hh & _).
    split; [exact Hi | split; [exact Hh | ] ].
    unfold path_loads. rewrite Hi, filter_app. reflexivity.
  - intros Hw Hf. destruct (preload_webp_error e d Hp Hw Hf) as (Hi & _).
    split; [exact Hi | ].
    unfold path_loads. rewrite Hi, filter_app. reflexivity.
Qed.

Lemma C6_preload_format_and_single_fallback_witness :
  images (snd (aggressivePreloadImages
                 {| protocol := "https:"; webP_height := 2;
                    fetch := fun _ => onerror |}
                 (empty_document None)))
  = [probe_src; "./images/point_bg.webp"; "./images/point_bg.jpg"] /\
  images (snd (aggressivePreloadImages
                 {| protocol := "https:"; webP_height := 0;
                    fetch := fun _ => onload |}
                 (empty_document None)))
  = [probe_src; "./images/point_bg.jpg"].
Proof.
  split.
  - apply (proj2 (C6_preload_format_and_single_fallback
                    {| protocol := "https:"; webP_height := 2;
                       fetch := fun _ => onerror |}
                    (empty_document None) eq_refl)); reflexivity.
  - apply (proj1 (C6_preload_format_and_single_fallback
                    {| protocol := "https:"; webP_height := 0;
                       fetch := fun _ => onload |}
                    (empty_document None) eq_refl)); reflexivity.
Defined.

(** C7: when the load of the WebP fails and the fallback load of the
    JPEG fails too, nothing rejects the promise of the call: it stays
    pending, and no error is logged for the second failure.  (When the
    JPEG is the first choice and fails, the promise is rejected.) *)
Theorem C7_failed_fallback_leaves_promise_pending :
  let e := {| protocol := "https:"; webP_height := 2;
              fetch := fun _ => onerror |} in
  let e' := {| protocol := "https:"; webP_height := 0;
               fetch := fun _ => onerror |} in
  fst (aggressivePreloadImages e (empty_document None)) = Pending /\
  images (snd (aggressivePreloadImages e (empty_document None)))
  = [probe_src; "./images/point_bg.webp"; "./images/point_bg.jpg"] /\
  console (snd (aggressivePreloadImages e (empty_document None)))
  = [(error, "Failed to load background image")] /\
  fst (aggressivePreloadImages e' (empty_document None))
  = Rejected (boolean false).
Proof. repeat split. Qed.

End PreloadTheorems.

(* ================================================================== *)
(** * More about setup, ticks and resizes *)
(* ================================================================== *)

Section PointExtras.
Import JsNum Page PointAnimation PointObs.
Local Open Scope string_scope.
Local Open Scope list_scope.

Lemma contains_add_other (c d : string) (l : list string) :
  String.eqb c d = false ->
  contains c (if contains d l then l else l ++ [d]) = contains c l.
Proof.
  intros H. destruct (contains d l); [reflexivity | ].
  unfold contains. rewrite existsb_app. cbn [existsb].
  rewrite H. rewrite !orb_false_r. reflexivity.
Qed.

Lemma contains_remove_other (c d : string) (l : list string) :
  String.eqb c d = false ->
  contains c (filter (fun x => negb (String.eqb d x)) l) = contains c l.
Proof.
  intros H. unfold contains. induction l as [ | x l IH]; [reflexivity | ].
  cbn [filter existsb]. destruct (String.eqb d x) eqn:E; cbn [negb].
  - apply String.eqb_eq in E. subst x. rewrite H. exact IH.
  - cbn [existsb]. rewrite IH. reflexivity.
Qed.

(** One tick, element by element: positions from [n] on are as they
    were; a position below [n] gets the pose of its angle, keeps every
    class but [focus], and holds [focus] exactly when in focus. *)
Lemma onUpdate_nth (c : closure) (progress : number) (n : nat) (p : page) :
  gsap_defined p = true ->
  pointTexts c = seq 0 n ->
  exists l,
    onUpdate c progress p = Normal tt (with_texts l p) /\
    List.length l = List.length (ani_texts p) /\
    (forall i, (n <= i)%nat -> nth_error l i = nth_error (ani_texts p) i) /\
    (forall i t, (i < n)%nat -> nth_error (ani_texts p) i = Some t ->
       exists t',
         nth_error l i = Some t' /\
         transform t'
         = Some (pose (currentAngle i (totalTexts c) progress) (radius c)) /\
         forall d, String.eqb d "focus" = false ->
                   contains d (classList t') = contains d (classList t)).
Proof.
  intros Hg Hpt. unfold onUpdate, forEach. rewrite Hpt.
  destruct (forEach_from_seq
    (fun index t =>
       {| transform :=
            Some (pose (currentAngle index (totalTexts c) progress)
                       (radius c));
          classList :=
            if isFocus (currentAngle index (totalTexts c) progress)
            then (if contains "focus" (classList t) then classList t
                  else classList t ++ ["focus"])
            else filter (fun d => negb (String.eqb "focus" d))
                        (classList t) |})
    (fun text index =>
       let angle := currentAngle index (totalTexts c) progress in
       (gsap_set text (pose angle (radius c)) ;;
        if isFocus angle then classList_add text "focus"
        else classList_remove text "focus")%js)) with (n := n) (k := 0%nat) (p := p)
    as (l & Hrun & Hlen & Hnth).
  - intros i q Hq. cbv zeta. unfold bind, gsap_set. rewrite Hq.
    destruct (isFocus (currentAngle i (totalTexts c) progress));
      unfold classList_add, classList_remove; cbn [ani_texts with_texts];
      rewrite update_nth_twice; reflexivity.
  - assumption.
  - exists l. split; [exact Hrun | split; [exact Hlen | split] ].
    + intros i Hi. rewrite Hnth.
      destruct (Nat.ltb_spec i (0 + n)); [lia | ].
      rewrite andb_false_r. reflexivity.
    + intros i t Hi Ht. rewrite Hnth, Ht.
      destruct (Nat.leb_spec 0 i); [ | lia].
      destruct (Nat.ltb_spec i (0 + n)); [ | lia]. cbn [andb option_map].
      eexists. split; [reflexivity | ]. cbn [transform classList].
      split; [reflexivity | ]. intros d Hd.
      destruct (isFocus (currentAngle i (totalTexts c) progress)).
      * apply contains_add_other. exact Hd.
      * apply contains_remove_other. exact Hd.
Qed.

(** The setup pass, element by element. *)
Lemma initializePointTexts_nth (n totalTexts : nat) (p : page) :
  gsap_defined p = true ->
  exists l,
    initializePointTexts (seq 0 n) totalTexts p
    = Normal tt (with_texts l p) /\
    List.length l = List.length (ani_texts p) /\
    (forall i, (n <= i)%nat -> nth_error l i = nth_error (ani_texts p) i) /\
    (forall i, option_map classList (nth_error l i)
               = option_map classList (nth_error (ani_texts p) i)) /\
    (forall i, (i < n)%nat -> (i < List.length (ani_texts p))%nat ->
       option_map transform (nth_error l i)
       = Some (Some (pose (baseAngle i totalTexts)
                          (getPointRadius (innerWidth p))))).
Proof.
  intros Hg. unfold initializePointTexts, getPointRadius_call, forEach.
  unfold bind at 1 2. unfold window_innerWidth, ret.
  destruct (forEach_from_seq
    (fun index t =>
       {| transform :=
            Some (pose (baseAngle index totalTexts)
                       (getPointRadius (innerWidth p)));
          classList := classList t |})
    (fun text index =>
       let angle := baseAngle index totalTexts in
       gsap_set text (pose angle (getPointRadius (innerWidth p)))))
    with (n := n) (k := 0%nat) (p := p)
    as (l & Hrun & Hlen & Hnth).
  - intros i q Hq. cbv zeta. unfold gsap_set. rewrite Hq. reflexivity.
  - assumption.
  - exists l. split; [exact Hrun | split; [exact Hlen | split; [ | split] ] ].
    + intros i Hi. rewrite Hnth.
      destruct (Nat.ltb_spec i (0 + n)); [lia | ].
      rewrite andb_false_r. reflexivity.
    + intros i. rewrite Hnth.
      destruct ((0 <=? i)%nat && (i <? 0 + n)%nat); [ | reflexivity].
      destruct (nth_error (ani_texts p) i); reflexivity.
    + intros i Hi Hlt. rewrite Hnth.
      destruct (Nat.leb_spec 0 i); [ | lia].
      destruct (Nat.ltb_spec i (0 + n)); [ | lia]. cbn [andb].
      destruct (nth_error (ani_texts p) i) as [t | ] eqn:E.
      * reflexivity.
      * apply nth_error_None in E. lia.
Qed.

Lemma initPointAnimation_nth (p : page) :
  gsap_defined p = true ->
  ScrollTrigger_defined p = true ->
  ani_texts p <> [] ->
  exists l,
    initPointAnimation p
    = Normal tt
        (with_triggers
           (scroll_triggers p ++
              [ {| pointTexts := seq 0 (Nat.min 4 (List.length (ani_texts p)));
                   radius := getPointRadius (innerWidth p);
                   totalTexts := Nat.min 4 (List.length (ani_texts p)) |} ])
           (with_texts l p)) /\
    List.length l = List.length (ani_texts p) /\
    (forall i, (4 <= i)%nat -> nth_error l i = nth_error (ani_texts p) i) /\
    (forall i, option_map classList (nth_error l i)
               = option_map classList (nth_error (ani_texts p) i)) /\
    (forall i, (i < Nat.min 4 (List.length (ani_texts p)))%nat ->
       option_map transform (nth_error l i)
       = Some (Some (pose (baseAngle i
                            (Nat.min 4 (List.length (ani_texts p))))
                          (getPointRadius (innerWidth p))))).
Proof.
  intros Hg Hs Ht.
  assert (Hlen : List.length (ani_texts p) <> 0%nat).
  { destruct (ani_texts p); [congruence | simpl; lia]. }
  destruct (initializePointTexts_nth
              (Nat.min 4 (List.length (ani_texts p)))
              (Nat.min 4 (List.length (ani_texts p))) p Hg)
    as (l & Hrun & Hl & Hrest & Hcls & Hpose).
  exists l. split; [ | split; [exact Hl | split; [ | split] ] ].
  - unfold initPointAnimation, getPointRadius_call, typeof_gsap_undefined,
      typeof_ScrollTrigger_undefined, gsap_utils_toArray,
      window_innerWidth, slice0.
    unfold bind, ret.
    cbv beta iota. rewrite Hg, Hs. cbn [negb orb]. cbv beta iota.
    rewrite Hg. cbv beta iota.
    rewrite firstn_seq, length_seq.
    destruct (Nat.eqb_spec (Nat.min 4 (List.length (ani_texts p))) 0);
      [lia | ].
    cbv beta iota. rewrite Hrun. unfold ScrollTrigger_create.
    cbn [ScrollTrigger_defined with_texts]. rewrite Hs. reflexivity.
  - intros i Hi. apply Hrest. lia.
  - exact Hcls.
  - intros i Hi. apply Hpose; lia.
Qed.

Lemma class_at_same (d : string) (i : nat) (p q : page) :
  option_map classList (nth_error (ani_texts p) i)
  = option_map classList (nth_error (ani_texts q) i) ->
  class_at d i p = class_at d i q.
Proof.
  unfold class_at. intros H.
  destruct (nth_error (ani_texts p) i), (nth_error (ani_texts q) i);
    simpl in H; try discriminate; [ | reflexivity].
  injection H as ->. reflexivity.
Qed.

(** What resizes and ticks leave alone: the texts beyond those of the
    trigger, every class but [focus], and the console. *)
Lemma dispatch_rest (c : closure) (n : nat) (e : event) (p : page) :
  gsap_defined p = true ->
  scroll_triggers p = [c] ->
  pointTexts c = seq 0 n ->
  exists p',
    dispatch e p = Normal tt p' /\
    gsap_defined p' = true /\
    scroll_triggers p' = [c] /\
    List.length (ani_texts p') = List.length (ani_texts p) /\
    (forall i, (n <= i)%nat ->
       nth_error (ani_texts p') i = nth_error (ani_texts p) i) /\
    (forall d i, String.eqb d "focus" = false ->
       class_at d i p' = class_at d i p) /\
    console p' = console p.
Proof.
  intros Hg Hc Hpt. destruct e as [width now | progress].
  - unfold dispatch, handleResize, throttle, handleResize_body,
      typeof_AOS_undefined, typeof_ScrollTrigger_undefined, refresh.
    unfold bind, ret. cbn.
    destruct (200 <=? now - lastCall p)%Z; cbn;
      [destruct (AOS_defined p); cbn;
       destruct (ScrollTrigger_defined p); cbn | ];
      eexists; (split; [reflexivity | ]); cbn; repeat split; assumption.
  - unfold dispatch. rewrite Hc. cbn [each_trigger]. unfold bind.
    destruct (onUpdate_nth c progress n p Hg Hpt)
      as (l & Hrun & Hl & Hrest & Hin).
    rewrite Hrun. unfold ret. eexists; (split; [reflexivity | ]).
    cbn [gsap_defined scroll_triggers ani_texts console with_texts].
    repeat split; try assumption.
    intros d i Hd. unfold class_at. cbn [ani_texts with_texts].
    destruct (Nat.lt_ge_cases i n) as [Hi | Hi].
    + destruct (nth_error (ani_texts p) i) as [t | ] eqn:E.
      * destruct (Hin i t Hi E) as (t' & E' & _ & Hcls).
        rewrite E'. apply Hcls. exact Hd.
      * apply nth_error_None in E. rewrite <- Hl in E.
        apply nth_error_None in E. rewrite E. reflexivity.
    + rewrite (Hrest i Hi). reflexivity.
Qed.

Lemma run_rest (c : closure) (n : nat) (l : list event) (p : page) :
  gsap_defined p = true ->
  scroll_triggers p = [c] ->
  pointTexts c = seq 0 n ->
  exists p',
    run l p = Normal tt p' /\
    gsap_defined p' = true /\
    scroll_triggers p' = [c] /\
    List.length (ani_texts p') = List.length (ani_texts p) /\
    (forall i, (n <= i)%nat ->
       nth_error (ani_texts p') i = nth_error (ani_texts p) i) /\
    (forall d i, String.eqb d "focus" = false ->
       class_at d i p' = class_at d i p) /\
    console p' = console p.
Proof.
  revert p. induction l as [ | e l IH]; intros p Hg Hc Hpt.
  - exists p. repeat split; assumption.
  - destruct (dispatch_rest c n e p Hg Hc Hpt)
      as (p1 & Hd & Hg1 & Hc1 & Hl1 & Hr1 & Hk1 & Ho1).
    destruct (IH p1 Hg1 Hc1 Hpt)
      as (p2 & Hr & Hg2 & Hc2 & Hl2 & Hr2 & Hk2 & Ho2).
    exists p2. cbn [run]. unfold bind. rewrite Hd.
    split; [exact Hr | ]. split; [exact Hg2 | ]. split; [exact Hc2 | ].
    split; [lia | ]. split; [ | split].
    + intros i Hi. rewrite Hr2, Hr1 by assumption. reflexivity.
    + intros d i Hd'. rewrite Hk2, Hk1 by assumption. reflexivity.
    + congruence.
Qed.

(** Setup and then any resizes and ticks, seen from outside the first
    four texts. *)
Lemma setup_and_events_rest (p0 : page) (evs : list event) :
  gsap_defined p0 = true ->
  ScrollTrigger_defined p0 = true ->
  scroll_triggers p0 = [] ->
  ani_texts p0 <> [] ->
  exists p1 p2 : page,
    initPointAnimation p0 = Normal tt p1 /\
    run evs p1 = Normal tt p2 /\
    List.length (ani_texts p2) = List.length (ani_texts p0) /\
    (forall i, (4 <= i)%nat ->
       nth_error (ani_texts p2) i = nth_error (ani_texts p0) i) /\
    (forall d i, String.eqb d "focus" = false ->
       class_at d i p2 = class_at d i p0) /\
    console p2 = console p0.
Proof.
  intros Hg Hs Ht Hne.
  destruct (initPointAnimation_nth p0 Hg Hs Hne)
    as (l & Hinit & Hl & Hrest & Hcls & _).
  rewrite Ht in Hinit.
  set (N := Nat.min 4 (List.length (ani_texts p0))) in *.
  set (c := {| pointTexts := seq 0 N;
               radius := getPointRadius (innerWidth p0);
               totalTexts := N |}) in *.
  set (p1 := with_triggers ([] ++ [c]) (with_texts l p0)) in *.
  destruct (run_rest c N evs p1 Hg eq_refl eq_refl)
    as (p2 & Hrun & _ & _ & Hl2 & Hr2 & Hk2 & Ho2).
  exists p1, p2. split; [exact Hinit | ]. split; [exact Hrun | ].
  split; [rewrite Hl2; exact Hl | ]. split; [ | split].
  - intros i Hi. rewrite Hr2 by (unfold N; lia). apply Hrest. exact Hi.
  - intros d i Hd. rewrite Hk2 by assumption.
    apply class_at_same. apply Hcls.
  - rewrite Ho2. reflexivity.
Qed.

(** X1: setup takes the first four texts only ([slice(0, 4)]): whatever
    resizes and ticks follow, a text from the fifth on is exactly as it
    was before setup, and no text is added or removed. *)
Theorem X1_texts_beyond_fourth_untouched (p0 : page) (evs : list event) :
  gsap_defined p0 = true ->
  ScrollTrigger_defined p0 = true ->
  scroll_triggers p0 = [] ->
  ani_texts p0 <> [] ->
  exists p1 p2 : page,
    initPointAnimation p0 = Normal tt p1 /\
    run evs p1 = Normal tt p2 /\
    List.length (ani_texts p2) = List.length (ani_texts p0) /\
    forall i, (4 <= i)%nat ->
      nth_error (ani_texts p2) i = nth_error (ani_texts p0) i.
Proof.
  intros Hg Hs Ht Hne.
  destruct (setup_and_events_rest p0 evs Hg Hs Ht Hne)
    as (p1 & p2 & H1 & H2 & H3 & H4 & _).
  exists p1, p2. repeat split; assumption.
Qed.

Lemma X1_texts_beyond_fourth_untouched_witness :
  exists p1 p2 : page,
    initPointAnimation (fresh_page 1024 6) = Normal tt p1 /\
    run [scroll (Fin (1 / 2)); resize 500 1000; scroll (Fin 1)] p1
    = Normal tt p2 /\
    List.length (ani_texts p2)
    = List.length (ani_texts (fresh_page 1024 6)) /\
    forall i, (4 <= i)%nat ->
      nth_error (ani_texts p2) i
      = nth_error (ani_texts (fresh_page 1024 6)) i.
Proof.
  apply (X1_texts_beyond_fourth_untouched (fresh_page 1024 6)).
  - reflexivity.
  - reflexivity.
  - reflexivity.
  - simpl. discriminate.
Defined.

(** X2: setup and ticks write poses and toggle the class [focus] and
    nothing else: on every text, every class other than [focus] is held
    after setup, resizes and ticks exactly when it was held before, and
    nothing is written to the console. *)
Theorem X2_only_focus_class_touched (p0 : page) (evs : list event) :
  gsap_defined p0 = true ->
  ScrollTrigger_defined p0 = true ->
  scroll_triggers p0 = [] ->
  ani_texts p0 <> [] ->
  exists p1 p2 : page,
    initPointAnimation p0 = Normal tt p1 /\
    run evs p1 = Normal tt p2 /\
    (forall d i, String.eqb d "focus" = false ->
       class_at d i p2 = class_at d i p0) /\
    console p2 = console p0.
Proof.
  intros Hg Hs Ht Hne.
  destruct (setup_and_events_rest p0 evs Hg Hs Ht Hne)
    as (p1 & p2 & H1 & H2 & _ & _ & H5 & H6).
  exists p1, p2. repeat split; assumption.
Qed.

Lemma X2_only_focus_class_touched_witness :
  exists p1 p2 : page,
    initPointAnimation
      (with_texts
         [ {| transform := None; classList := ["lead"; "focus"] |};
           {| transform := None; classList := ["on"] |} ]
         (fresh_page 1024 2))
    = Normal tt p1 /\
    run [scroll (Fin 1); resize 500 1000; scroll (Fin (1 / 2))] p1
    = Normal tt p2 /\
    class_at "lead" 0 p2 = true /\
    class_at "on" 0 p2 = false /\
    class_at "lead" 1 p2 = false /\
    class_at "on" 1 p2 = true /\
    console p2 = [].
Proof.
  destruct (X2_only_focus_class_touched
              (with_texts
                 [ {| transform := None; classList := ["lead"; "focus"] |};
                   {| transform := None; classList := ["on"] |} ]
                 (fresh_page 1024 2))
              [scroll (Fin 1); resize 500 1000; scroll (Fin (1 / 2))]
              eq_refl eq_refl eq_refl ltac:(simpl; discriminate))
    as (p1 & p2 & Hinit & Hrun & Hclass & Hconsole).
  exists p1, p2. split; [exact Hinit | ]. split; [exact Hrun | ].
  rewrite !Hclass by reflexivity. rewrite Hconsole.
  repeat split.
Defined.

Local Open Scope R_scope.

(** Setup, any resizes and ticks, and then one more tick: what that tick
    leaves on the texts of the trigger. *)
Lemma setup_then_tick (p0 : page) (evs : list event) (progress : number) :
  gsap_defined p0 = true ->
  ScrollTrigger_defined p0 = true ->
  scroll_triggers p0 = [] ->
  ani_texts p0 <> [] ->
  exists p1 p2 : page,
    initPointAnimation p0 = Normal tt p1 /\
    run (evs ++ [scroll progress]) p1 = Normal tt p2 /\
    forall i : nat,
      (i < Nat.min 4 (List.length (ani_texts p0)))%nat ->
      transform_at i p2
      = Some (pose (currentAngle i
                      (Nat.min 4 (List.length (ani_texts p0))) progress)
                   (getPointRadius (innerWidth p0))) /\
      focused_at i p2
      = isFocus (currentAngle i
                   (Nat.min 4 (List.length (ani_texts p0))) progress).
Proof.
  intros Hg Hs Ht Hne.
  destruct (initPointAnimation_effect p0 Hg Hs Hne)
    as (l & Hinit & Hl & _).
  rewrite Ht in Hinit.
  set (N := Nat.min 4 (List.length (ani_texts p0))) in *.
  set (c := {| pointTexts := seq 0 N;
               radius := getPointRadius (innerWidth p0);
               totalTexts := N |}) in *.
  set (p1 := with_triggers ([] ++ [c]) (with_texts l p0)) in *.
  assert (Hlen : (N <= List.length (ani_texts p1))%nat).
  { unfold p1. cbn [ani_texts with_triggers with_texts]. rewrite Hl.
    unfold N. lia. }
  destruct (tick_after_events c N evs progress p1 Hg eq_refl eq_refl Hlen)
    as (p2 & Hrun & Htick).
  exists p1, p2. split; [exact Hinit | split; [exact Hrun | exact Htick] ].
Qed.

Lemma texts_of_two (p0 : page) :
  (2 <= Nat.min 4 (List.length (ani_texts p0)))%nat -> ani_texts p0 <> [].
Proof. destruct (ani_texts p0); simpl; [lia | discriminate]. Qed.

(** For two texts or more and a progress from 0 to 1, the current
    angle of a text lies from [- PI] to [PI], and the text is in focus
    exactly when the angle is within 0.3 of zero. *)
Lemma isFocus_window (N index : nat) (progress : R) :
  (2 <= N)%nat -> (index < N)%nat -> 0 <= progress <= 1 ->
  (isFocus (currentAngle index N (Fin progress)) = true
   <-> - (3 / 10) < (INR index / (INR N - 1) - progress) * PI < 3 / 10).
Proof.
  intros HN Hi Hp. pose proof PI_gt_3 as Hpi.
  pose proof (INR_ge_2 N HN) as HN'.
  assert (Hq : 0 <= INR index / (INR N - 1) <= 1).
  { assert (Hle : INR index <= INR N - 1).
    { replace (INR N - 1) with (INR (N - 1)).
      - apply le_INR. lia.
      - rewrite minus_INR by lia. simpl. ring. }
    pose proof (pos_INR index) as H0.
    split.
    - apply Rmult_le_pos; [exact H0 | ].
      left. apply Rinv_0_lt_compat. lra.
    - apply Rmult_le_reg_r with (r := INR N - 1); [lra | ].
      unfold Rdiv. rewrite Rmult_assoc, Rinv_l by lra. lra. }
  rewrite currentAngle_Fin by assumption.
  set (q := INR index / (INR N - 1)) in *.
  replace (q * PI - progress * PI) with ((q - progress) * PI) by ring.
  set (a := (q - progress) * PI).
  assert (Ha : - PI <= a <= PI) by (unfold a; split; nra).
  destruct (normalizedAngle_Fin a) as (n & k & E & B & Rk).
  rewrite (isFocus_Fin a n E).
  destruct (Rle_dec 0 a) as [P | P].
  - assert (K : k = 0%Z) by (apply IZR_small_zero; split; nra).
    subst k. split; intros H; [ | left]; lra.
  - assert (K : k = 1%Z).
    { assert (K' : (k - 1 = 0)%Z).
      { apply IZR_small_zero. rewrite minus_IZR. split; nra. }
      lia. }
    subst k. split; intros H; [ | right]; lra.
Qed.

(** X4: with two texts or more, at progress [index / (N - 1)] the text
    at position [index] is at the front: the tick writes on it the pose
    of angle 0, [(0, radius, 0)] for the setup radius, and it holds the
    class [focus]. *)
Theorem X4_each_text_reaches_front
        (p0 : page) (evs : list event) (index : nat) :
  gsap_defined p0 = true ->
  ScrollTrigger_defined p0 = true ->
  scroll_triggers p0 = [] ->
  (2 <= Nat.min 4 (List.length (ani_texts p0)))%nat ->
  (index < Nat.min 4 (List.length (ani_texts p0)))%nat ->
  exists p1 p2 : page,
    initPointAnimation p0 = Normal tt p1 /\
    run (evs ++
         [scroll (Fin (INR index
                       / (INR (Nat.min 4 (List.length (ani_texts p0)))
                          - 1)))]) p1
    = Normal tt p2 /\
    transform_at index p2
    = Some {| Gsap.y := Fin 0;
              Gsap.z := Fin (IZR (getPointRadius (innerWidth p0)));
              Gsap.rotateX := Fin 0 |} /\
    focused_at index p2 = true.
Proof.
  intros Hg Hs Ht HN Hi. pose proof PI_gt_3 as Hpi.
  set (N := Nat.min 4 (List.length (ani_texts p0))) in *.
  pose proof (INR_ge_2 N HN) as HN'.
  destruct (setup_then_tick p0 evs (Fin (INR index / (INR N - 1)))
                            Hg Hs Ht (texts_of_two p0 HN))
    as (p1 & p2 & Hinit & Hrun & Htick).
  fold N in Htick.
  destruct (Htick index Hi) as [E F].
  exists p1, p2. split; [exact Hinit | split; [exact Hrun | ] ].
  assert (A : currentAngle index N (Fin (INR index / (INR N - 1)))
              = Fin 0).
  { rewrite currentAngle_Fin by assumption. f_equal. ring. }
  split.
  - rewrite E, A. unfold pose, Math_sin, Math_cos, mul, of_Z, neg, Math_PI.
    rewrite div_Fin by lra. rewrite sin_0, cos_0.
    replace (0 * IZR (getPointRadius (innerWidth p0))) with 0 by ring.
    replace (1 * IZR (getPointRadius (innerWidth p0)))
      with (IZR (getPointRadius (innerWidth p0))) by ring.
    replace (- (0 * 180 / PI)) with 0 by (field; lra).
    reflexivity.
  - rewrite F, A.
    apply (isFocus_Fin 0 0); [apply normalizedAngle_in_range | ]; lra.
Qed.

Lemma X4_each_text_reaches_front_witness :
  exists p1 p2 : page,
    initPointAnimation (fresh_page 1024 4) = Normal tt p1 /\
    run ([] ++ [scroll (Fin (INR 2 / (INR 4 - 1)))]) p1 = Normal tt p2 /\
    transform_at 2 p2
    = Some {| Gsap.y := Fin 0; Gsap.z := Fin (IZR 100);
              Gsap.rotateX := Fin 0 |} /\
    focused_at 2 p2 = true.
Proof.
  apply (X4_each_text_reaches_front (fresh_page 1024 4) [] 2).
  - reflexivity.
  - reflexivity.
  - reflexivity.
  - simpl. lia.
  - simpl. lia.
Defined.

(** X5: with two texts or more and a progress from 0 to 1, write [d]
    for [(index / (N - 1) - progress) * PI], the angle of a text at that
    progress.  A text with [d] within 0.29 radians of zero holds the
    class [focus] after the tick, and a text with [d] 0.31 radians or
    more away from zero does not; so a text is in focus while the
    progress is within [0.29 / PI] of [index / (N - 1)] and out of focus
    once it is [0.31 / PI] or more away.  (The band in between holds the
    edge of the window at 0.3, where the rounding of the doubles
    decides.) *)
Theorem X5_focus_window_in_progress
        (p0 : page) (evs : list event) (progress : R) (index : nat) :
  gsap_defined p0 = true ->
  ScrollTrigger_defined p0 = true ->
  scroll_triggers p0 = [] ->
  (2 <= Nat.min 4 (List.length (ani_texts p0)))%nat ->
  (index < Nat.min 4 (List.length (ani_texts p0)))%nat ->
  0 <= progress <= 1 ->
  exists p1 p2 : page,
    initPointAnimation p0 = Normal tt p1 /\
    run (evs ++ [scroll (Fin progress)]) p1 = Normal tt p2 /\
    (- (29 / 100)
     <= (INR index / (INR (Nat.min 4 (List.length (ani_texts p0))) - 1)
         - progress) * PI
     <= 29 / 100 ->
     focused_at index p2 = true) /\
    ((INR index / (INR (Nat.min 4 (List.length (ani_texts p0))) - 1)
      - progress) * PI <= - (31 / 100) \/
     31 / 100
     <= (INR index / (INR (Nat.min 4 (List.length (ani_texts p0))) - 1)
         - progress) * PI ->
     focused_at index p2 = false).
Proof.
  intros Hg Hs Ht HN Hi Hp.
  destruct (setup_then_tick p0 evs (Fin progress) Hg Hs Ht
                            (texts_of_two p0 HN))
    as (p1 & p2 & Hinit & Hrun & Htick).
  destruct (Htick index Hi) as [_ F].
  pose proof (isFocus_window _ index progress HN Hi Hp) as W.
  exists p1, p2. split; [exact Hinit | split; [exact Hrun | ] ].
  rewrite F. split.
  - intros Hd. apply W. lra.
  - intros Hd.
    destruct (isFocus
                (currentAngle index
                   (Nat.min 4 (List.length (ani_texts p0))) (Fin progress)))
      eqn:E; [ | reflexivity].
    pose proof (proj1 W eq_refl) as Hw. lra.
Qed.

Lemma X5_focus_window_in_progress_witness :
  exists p1 p2 p2' : page,
    initPointAnimation (fresh_page 1024 4) = Normal tt p1 /\
    run ([] ++ [scroll (Fin (1 / 16))]) p1 = Normal tt p2 /\
    focused_at 0 p2 = true /\
    run ([] ++ [scroll (Fin (1 / 6))]) p1 = Normal tt p2' /\
    focused_at 0 p2' = false.
Proof.
  pose proof PI_gt_3 as Hpi. pose proof PI_4 as Hpi'.
  destruct (X5_focus_window_in_progress
              (fresh_page 1024 4) [] (1 / 16) 0
              eq_refl eq_refl eq_refl ltac:(simpl; lia) ltac:(simpl; lia)
              ltac:(lra))
    as (p1 & p2 & Hinit & Hrun & Hin & _).
  destruct (X5_focus_window_in_progress
              (fresh_page 1024 4) [] (1 / 6) 0
              eq_refl eq_refl eq_refl ltac:(simpl; lia) ltac:(simpl; lia)
              ltac:(lra))
    as (p1' & p2' & Hinit' & Hrun' & _ & Hout).
  rewrite Hinit in Hinit'. injection Hinit' as <-.
  exists p1, p2, p2'.
  split; [exact Hinit | ]. split; [exact Hrun | ]. split.
  - apply Hin. simpl. lra.
  - split; [exact Hrun' | ]. apply Hout. left. simpl. lra.
Defined.

Local Open Scope Z_scope.

(** X6: setup is not idempotent: every call on a page with the
    libraries and a text creates one more trigger, so after two calls
    two callbacks (with the same texts and radius) run on every tick;
    the second call leaves on the texts what the first wrote. *)
Theorem X6_setup_twice_two_triggers (p0 : page) :
  gsap_defined p0 = true ->
  ScrollTrigger_defined p0 = true ->
  ani_texts p0 <> [] ->
  exists p1 p2 : page,
    initPointAnimation p0 = Normal tt p1 /\
    initPointAnimation p1 = Normal tt p2 /\
    scroll_triggers p2
    = scroll_triggers p0 ++
      [ {| pointTexts := seq 0 (Nat.min 4 (List.length (ani_texts p0)));
           radius := getPointRadius (innerWidth p0);
           totalTexts := Nat.min 4 (List.length (ani_texts p0)) |};
        {| pointTexts := seq 0 (Nat.min 4 (List.length (ani_texts p0)));
           radius := getPointRadius (innerWidth p0);
           totalTexts := Nat.min 4 (List.length (ani_texts p0)) |} ] /\
    forall i, transform_at i p2 = transform_at i p1.
Proof.
  intros Hg Hs Hne.
  destruct (initPointAnimation_nth p0 Hg Hs Hne)
    as (l & Hinit & Hl & _ & _ & Hpose).
  set (N := Nat.min 4 (List.length (ani_texts p0))) in *.
  set (c := {| pointTexts := seq 0 N;
               radius := getPointRadius (innerWidth p0);
               totalTexts := N |}) in *.
  set (p1 := with_triggers (scroll_triggers p0 ++ [c]) (with_texts l p0))
    in *.
  assert (Hne1 : ani_texts p1 <> []).
  { unfold p1. cbn [ani_texts with_triggers with_texts].
    destruct l; [ | discriminate].
    destruct (ani_texts p0); [congruence | discriminate]. }
  destruct (initPointAnimation_nth p1 Hg Hs Hne1)
    as (l' & Hinit' & Hl' & Hrest' & _ & Hpose').
  change (List.length (ani_texts p1)) with (List.length l) in *.
  rewrite Hl in *. fold N in Hinit', Hpose'.
  change (innerWidth p1) with (innerWidth p0) in *. fold c in Hinit'.
  exists p1, (with_triggers (scroll_triggers p1 ++ [c]) (with_texts l' p1)).
  split; [exact Hinit | split; [exact Hinit' | split] ].
  - unfold p1. cbn [scroll_triggers with_triggers with_texts].
    rewrite <- app_assoc. reflexivity.
  - intros i. unfold transform_at. cbn [ani_texts with_triggers with_texts].
    change (ani_texts p1) with l in *.
    destruct (Nat.lt_ge_cases i N) as [Hi | Hi].
    + specialize (Hpose i Hi). specialize (Hpose' i Hi).
      destruct (nth_error l' i), (nth_error l i);
        simpl in Hpose, Hpose'; try discriminate. congruence.
    + destruct (Nat.lt_ge_cases i 4) as [H4 | H4].
      * assert (Hlen : (List.length l <= i)%nat) by (unfold N in Hi; lia).
        pose proof (proj2 (nth_error_None l i) Hlen) as E.
        assert (Hlen' : (List.length l' <= i)%nat) by lia.
        pose proof (proj2 (nth_error_None l' i) Hlen') as E'.
        rewrite E, E'. reflexivity.
      * rewrite (Hrest' i H4). reflexivity.
Qed.

Lemma X6_setup_twice_two_triggers_witness :
  exists p1 p2 : page,
    initPointAnimation (fresh_page 1024 4) = Normal tt p1 /\
    initPointAnimation p1 = Normal tt p2 /\
    scroll_triggers p2
    = [ {| pointTexts := seq 0 4; radius := 100; totalTexts := 4 |};
        {| pointTexts := seq 0 4; radius := 100; totalTexts := 4 |} ] /\
    forall i, transform_at i p2 = transform_at i p1.
Proof.
  apply (X6_setup_twice_two_triggers (fresh_page 1024 4)).
  - reflexivity.
  - reflexivity.
  - simpl. discriminate.
Defined.

(** One resize, handled or dropped. *)
Lemma resize_step (w now : Z) (p : page) :
  exists p',
    dispatch (resize w now) p = Normal tt p' /\
    innerWidth p' = w /\
    ani_texts p' = ani_texts p /\
    scroll_triggers p' = scroll_triggers p /\
    ScrollTrigger_defined p' = ScrollTrigger_defined p /\
    ((200 <= now - lastCall p ->
      lastCall p' = now /\
      refreshed p'
      = refreshed p
        ++ (if AOS_defined p then ["AOS"] else [])
        ++ (if ScrollTrigger_defined p then ["ScrollTrigger"] else [])) /\
     (now - lastCall p < 200 ->
      lastCall p' = lastCall p /\ refreshed p' = refreshed p)).
Proof.
  unfold dispatch, handleResize, throttle, handleResize_body,
    typeof_AOS_undefined, typeof_ScrollTrigger_undefined, refresh.
  unfold bind, ret. cbn.
  destruct (Z.leb_spec 200 (now - lastCall p)); cbn;
    [destruct (AOS_defined p); cbn;
     destruct (ScrollTrigger_defined p) eqn:Est; cbn | ];
    eexists; (split; [reflexivity | ]); cbn;
    repeat split; try reflexivity; try lia; try exact Est;
    try (rewrite <- app_assoc; reflexivity);
    try (rewrite app_nil_r; reflexivity).
Qed.

(** After a handled resize, the resizes of the same 200 ms window are
    all dropped, and never handled later. *)
Lemma resizes_quiet (a : Z) (l : list (Z * Z)) (p : page) :
  a <= lastCall p < a + 200 ->
  (forall wt, In wt l -> a <= snd wt < a + 200) ->
  exists p',
    run (resizes l) p = Normal tt p' /\
    refreshed p' = refreshed p /\
    lastCall p' = lastCall p /\
    ani_texts p' = ani_texts p /\
    scroll_triggers p' = scroll_triggers p.
Proof.
  revert p. induction l as [ | [w t] l IH]; intros p Hp Hl.
  - exists p. repeat split.
  - destruct (resize_step w t p)
      as (p1 & Hd & _ & Ht1 & Hc1 & _ & _ & Hdrop).
    assert (Hin : a <= t < a + 200) by (apply (Hl (w, t)); left; reflexivity).
    destruct (Hdrop ltac:(lia)) as [Hlast Href].
    destruct (IH p1) as (p2 & Hr & Href2 & Hlast2 & Ht2 & Hc2).
    + rewrite Hlast. exact Hp.
    + intros wt Hwt. apply Hl. right. exact Hwt.
    + exists p2. cbn [resizes map run]. unfold bind.
      cbn [fst snd]. rewrite Hd. split; [exact Hr | ].
      repeat split; congruence.
Qed.

(** X7: the resize handler is throttled on its leading edge: of any
    number of resizes whose times fall in one window shorter than 200 ms
    at most one is handled (at most one refresh of AOS and one of
    ScrollTrigger), and a dropped resize is not handled later; the texts
    and the triggers are not touched. *)
Theorem X7_resize_burst_refreshes_at_most_once
        (a : Z) (l : list (Z * Z)) (p : page) :
  (forall wt, In wt l -> a <= snd wt < a + 200) ->
  exists p',
    run (resizes l) p = Normal tt p' /\
    (List.length (refreshed p') <= List.length (refreshed p) + 2)%nat /\
    ani_texts p' = ani_texts p /\
    scroll_triggers p' = scroll_triggers p.
Proof.
  revert p. induction l as [ | [w t] l IH]; intros p Hl.
  - exists p. repeat split. lia.
  - destruct (resize_step w t p)
      as (p1 & Hd & _ & Ht1 & Hc1 & _ & Hrun & Hdrop).
    assert (Hin : a <= t < a + 200) by (apply (Hl (w, t)); left; reflexivity).
    assert (Hl' : forall wt, In wt l -> a <= snd wt < a + 200).
    { intros wt Hwt. apply Hl. right. exact Hwt. }
    destruct (Z.le_gt_cases 200 (t - lastCall p)) as [Hc | Hc].
    + destruct (Hrun Hc) as [Hlast Href].
      destruct (resizes_quiet a l p1) as (p2 & Hr & Href2 & _ & Ht2 & Hc2);
        [rewrite Hlast; exact Hin | exact Hl' | ].
      exists p2. cbn [resizes map run]. unfold bind. cbn [fst snd].
      rewrite Hd. split; [exact Hr | ]. split; [ | split; congruence].
      rewrite Href2, Href, !length_app.
      destruct (AOS_defined p), (ScrollTrigger_defined p); simpl; lia.
    + destruct (Hdrop ltac:(lia)) as [Hlast Href].
      destruct (IH p1 Hl') as (p2 & Hr & Hlen & Ht2 & Hc2).
      exists p2. cbn [resizes map run]. unfold bind. cbn [fst snd].
      rewrite Hd. split; [exact Hr | ]. split; [ | split; congruence].
      rewrite Href in Hlen. exact Hlen.
Qed.

Lemma X7_resize_burst_refreshes_at_most_once_witness :
  exists p',
    run (resizes [(800, 1000); (790, 1050); (600, 1199)]) (fresh_page 1024 4)
    = Normal tt p' /\
    (List.length (refreshed p')
     <= List.length (refreshed (fresh_page 1024 4)) + 2)%nat /\
    ani_texts p' = ani_texts (fresh_page 1024 4) /\
    scroll_triggers p' = scroll_triggers (fresh_page 1024 4).
Proof.
  apply (X7_resize_burst_refreshes_at_most_once 1000).
  intros wt [<- | [<- | [<- | [] ] ] ]; simpl; lia.
Defined.

Lemma last_nonempty (x : Z) (m : list Z) (d d' e : Z) :
  last (x :: m) d = last (d' :: x :: m) e.
Proof.
  revert x d'. induction m as [ | y m IH]; intros x d'; [reflexivity | ].
  change (last (y :: m) d = last (x :: y :: m) e).
  apply IH.
Qed.

(** X8: a resize at least 200 ms after the last handled one is handled
    at once: when every resize of a sequence comes at least 200 ms after
    the one before (and the first at least 200 ms after the last handled
    call), each of them refreshes ScrollTrigger, and the last one is
    remembered as the last call. *)
Theorem X8_spaced_resizes_all_handled (l : list (Z * Z)) (p : page) :
  ScrollTrigger_defined p = true ->
  spaced 200 (lastCall p) l = true ->
  exists p',
    run (resizes l) p = Normal tt p' /\
    refresh_count p' = (refresh_count p + List.length l)%nat /\
    lastCall p' = last (map snd l) (lastCall p).
Proof.
  revert p. induction l as [ | [w t] l IH]; intros p Hs Hsp.
  - exists p. repeat split. simpl. lia.
  - cbn [spaced snd] in Hsp. apply andb_true_iff in Hsp.
    destruct Hsp as [Hc Hsp]. apply Z.leb_le in Hc.
    destruct (resize_step w t p)
      as (p1 & Hd & _ & _ & _ & Hs1 & Hrun & _).
    destruct (Hrun Hc) as [Hlast Href].
    destruct (IH p1) as (p2 & Hr & Hcount & Hlast2).
    + rewrite Hs1. exact Hs.
    + rewrite Hlast. exact Hsp.
    + exists p2. cbn [resizes map run]. unfold bind. cbn [fst snd].
      rewrite Hd. split; [exact Hr | split].
      * rewrite Hcount. unfold refresh_count. rewrite Href, Hs.
        rewrite !filter_app, !length_app.
        change (filter (String.eqb "ScrollTrigger") ["ScrollTrigger"])
          with ["ScrollTrigger"].
        destruct (AOS_defined p);
          [change (filter (String.eqb "ScrollTrigger") ["AOS"])
             with (@nil string) | ];
          cbn [List.length filter]; lia.
      * rewrite Hlast2, Hlast. cbn [map snd].
        destruct (map snd l) as [ | x m]; [reflexivity | ].
        apply last_nonempty.
Qed.

Lemma X8_spaced_resizes_all_handled_witness :
  exists p',
    run (resizes [(800, 1000); (790, 1200); (600, 1500)]) (fresh_page 1024 4)
    = Normal tt p' /\
    refresh_count p' = (refresh_count (fresh_page 1024 4) + 3)%nat /\
    lastCall p' = 1500.
Proof.
  apply (X8_spaced_resizes_all_handled
           [(800, 1000); (790, 1200); (600, 1500)] (fresh_page 1024 4));
    reflexivity.
Defined.

(** X9: with the libraries loaded but no text on the page, setup
    returns at once and leaves the page exactly as it was (no trigger, no
    diagnostic), and a later tick finds no trigger and changes
    nothing. *)
Theorem X9_setup_without_texts (p : page) (progress : number) :
  gsap_defined p = true ->
  ScrollTrigger_defined p = true ->
  ani_texts p = [] ->
  scroll_triggers p = [] ->
  initPointAnimation p = Normal tt p /\
  (initPointAnimation ;; dispatch (scroll progress))%js p = Normal tt p.
Proof.
  intros Hg Hs Ht Hc.
  assert (E : initPointAnimation p = Normal tt p).
  { unfold initPointAnimation, typeof_gsap_undefined,
      typeof_ScrollTrigger_undefined, gsap_utils_toArray, slice0.
    unfold bind, ret. cbv beta iota. rewrite Hg, Hs. cbn [negb orb].
    cbv beta iota. rewrite Hg. cbv beta iota. rewrite Ht. reflexivity. }
  split; [exact E | ].
  unfold bind. rewrite E. unfold dispatch. rewrite Hc. reflexivity.
Qed.

Lemma X9_setup_without_texts_witness :
  initPointAnimation (fresh_page 1024 0) = Normal tt (fresh_page 1024 0).
Proof.
  apply (X9_setup_without_texts (fresh_page 1024 0) (Fin 0)); reflexivity.
Defined.

End PointExtras.

(* ================================================================== *)
(** * More about the preload and its callers *)
(* ================================================================== *)

Section PreloadExtras.
Import Preload PreloadCallers.
Local Open Scope string_scope.
Local Open Scope list_scope.

Create Rewrite HintDb preload_doc.
#[local] Hint Rewrite images_console_add images_appendChild images_set_src
     images_applyBackgroundImage head_console_add head_appendChild
     head_set_src head_applyBackgroundImage : preload_doc.

Lemma existsb_add_class (c : string) (l : list string) :
  existsb (String.eqb c) (add_class c l) = true.
Proof.
  unfold add_class. destruct (existsb (String.eqb c) l) eqn:E; [exact E | ].
  rewrite existsb_app. cbn [existsb]. rewrite String.eqb_refl.
  rewrite orb_true_r. reflexivity.
Qed.

(** What [applyBackgroundImage] leaves on a page with a point box. *)
Lemma applyBackgroundImage_some (path : string) (d : document)
      (b : point_box) :
  pointBox d = Some b ->
  pointBox (applyBackgroundImage path d)
  = Some {| transform := "translate3d(0,0,0)";
            willChange := "background-image";
            backgroundImage := "url('" ++ path ++ "')";
            classList := add_class "bg-loaded" (classList b) |} /\
  timeouts (applyBackgroundImage path d) = timeouts d ++ [(1000%Z, "auto")].
Proof.
  intros H. unfold applyBackgroundImage. rewrite H. split; reflexivity.
Qed.

Lemma pointBox_console_add l m d : pointBox (console_add l m d) = pointBox d.
Proof. reflexivity. Qed.

Lemma pointBox_appendChild k d : pointBox (appendChild k d) = pointBox d.
Proof. reflexivity. Qed.

Lemma pointBox_set_src s d : pointBox (set_src s d) = pointBox d.
Proof. reflexivity. Qed.

Lemma timeouts_console_add l m d : timeouts (console_add l m d) = timeouts d.
Proof. reflexivity. Qed.

Lemma timeouts_appendChild k d : timeouts (appendChild k d) = timeouts d.
Proof. reflexivity. Qed.

Lemma timeouts_set_src s d : timeouts (set_src s d) = timeouts d.
Proof. reflexivity. Qed.

(** The four ways a call off the [file:] protocol can go. *)
Lemma preload_cases (e : environment) (d : document) :
  String.eqb (protocol e) "file:" = false ->
  let webp := "./images/point_bg.webp" in
  let jpg := "./images/point_bg.jpg" in
  let hint path d :=
    set_src path
      (appendChild {| rel := "preload"; as_ := "image"; href := path;
                      fetchPriority := "high" |} (set_src probe_src d)) in
  aggressivePreloadImages e d
  = if Z.eqb (webP_height e) 2 then
      match fetch e webp with
      | onload =>
          (Fulfilled (boolean true),
           applyBackgroundImage webp
             (console_add log "Background image loaded successfully"
                          (hint webp d)))
      | onerror =>
          (Pending,
           match fetch e jpg with
           | onload =>
               applyBackgroundImage jpg
                 (set_src jpg
                    (console_add error "Failed to load background image"
                                 (hint webp d)))
           | onerror =>
               set_src jpg
                 (console_add error "Failed to load background image"
                              (hint webp d))
           end)
      end
    else
      match fetch e jpg with
      | onload =>
          (Fulfilled (boolean true),
           applyBackgroundImage jpg
             (console_add log "Background image loaded successfully"
                          (hint jpg d)))
      | onerror =>
          (Rejected (boolean false),
           console_add error "Failed to load background image" (hint jpg d))
      end.
Proof.
  intros Hp. cbv zeta.
  unfold aggressivePreloadImages, supportsWebP, Image_load.
  rewrite Hp. cbv beta iota zeta.
  destruct (Z.eqb (webP_height e) 2).
  - destruct (fetch e "./images/point_bg.webp"); [reflexivity | ].
    change (includes "./images/point_bg.webp" ".webp") with true.
    cbn [andb fst snd]. unfold loadFallbackImage, Image_load.
    destruct (fetch e "./images/point_bg.jpg"); reflexivity.
  - destruct (fetch e "./images/point_bg.jpg"); reflexivity.
Qed.

Lemma needs_background_loaded (d : document) (b : point_box) :
  pointBox d = Some b ->
  existsb (String.eqb "bg-loaded") (classList b) = true ->
  needs_background d = false.
Proof. intros H E. unfold needs_background. rewrite H, E. reflexivity. Qed.

(** X10: once a load has succeeded on a page with a point box (the
    WebP, the JPEG chosen first, or the fallback JPEG), the box has the
    background [url('<that path>')] and the class [bg-loaded], one timer
    of 1000 ms is set to reset [will-change], and from then on the [load]
    and [visibilitychange] listeners change nothing: no further request
    is issued. *)
Theorem X10_loaded_background_stops_retries
        (e : environment) (d : document) (b : point_box) (path : string) :
  String.eqb (protocol e) "file:" = false ->
  pointBox d = Some b ->
  (Z.eqb (webP_height e) 2 = true /\ path = "./images/point_bg.webp" /\
   fetch e "./images/point_bg.webp" = onload) \/
  (Z.eqb (webP_height e) 2 = true /\ path = "./images/point_bg.jpg" /\
   fetch e "./images/point_bg.webp" = onerror /\
   fetch e "./images/point_bg.jpg" = onload) \/
  (Z.eqb (webP_height e) 2 = false /\ path = "./images/point_bg.jpg" /\
   fetch e "./images/point_bg.jpg" = onload) ->
  pointBox (snd (aggressivePreloadImages e d))
  = Some {| transform := "translate3d(0,0,0)";
            willChange := "background-image";
            backgroundImage := "url('" ++ path ++ "')";
            classList := add_class "bg-loaded" (classList b) |} /\
  timeouts (snd (aggressivePreloadImages e d))
  = timeouts d ++ [(1000%Z, "auto")] /\
  on_load e (snd (aggressivePreloadImages e d))
  = snd (aggressivePreloadImages e d) /\
  forall hidden : bool,
    on_visibilitychange e hidden (snd (aggressivePreloadImages e d))
    = snd (aggressivePreloadImages e d).
Proof.
  intros Hp Hb Hcase.
  assert (H : pointBox (snd (aggressivePreloadImages e d))
              = Some {| transform := "translate3d(0,0,0)";
                        willChange := "background-image";
                        backgroundImage := "url('" ++ path ++ "')";
                        classList := add_class "bg-loaded" (classList b) |}
              /\ timeouts (snd (aggressivePreloadImages e d))
                 = timeouts d ++ [(1000%Z, "auto")]).
  { rewrite (preload_cases e d Hp).
    destruct Hcase as [(Hw & -> & Hf) | [(Hw & -> & Hf & Hj) | (Hw & -> & Hj)] ];
      rewrite Hw; rewrite ?Hf, ?Hj; cbn [snd];
      (split; [apply applyBackgroundImage_some; exact Hb | ]);
      unfold applyBackgroundImage;
      cbn [pointBox console_add set_src appendChild]; rewrite Hb;
      reflexivity. }
  destruct H as [Hbox Htime].
  assert (Hn : needs_background (snd (aggressivePreloadImages e d)) = false).
  { apply (needs_background_loaded _ _ Hbox). cbn [classList].
    apply existsb_add_class. }
  split; [exact Hbox | split; [exact Htime | split] ].
  - unfold on_load. rewrite Hn. reflexivity.
  - intros hidden. unfold on_visibilitychange. rewrite Hn.
    destruct hidden; reflexivity.
Qed.

Lemma X10_loaded_background_stops_retries_witness :
  let e := {| protocol := "https:"; webP_height := 2;
              fetch := fun src =>
                         if String.eqb src "./images/point_bg.jpg"
                         then onload else onerror |} in
  let d := empty_document
             (Some {| transform := ""; willChange := "";
                      backgroundImage := ""; classList := [] |}) in
  pointBox (snd (aggressivePreloadImages e d))
  = Some {| transform := "translate3d(0,0,0)";
            willChange := "background-image";
            backgroundImage := "url('./images/point_bg.jpg')";
            classList := ["bg-loaded"] |} /\
  on_load e (snd (aggressivePreloadImages e d))
  = snd (aggressivePreloadImages e d).
Proof.
  cbv zeta.
  pose proof (X10_loaded_background_stops_retries
                {| protocol := "https:"; webP_height := 2;
                   fetch := fun src =>
                              if String.eqb src "./images/point_bg.jpg"
                              then onload else onerror |}
                (empty_document
                   (Some {| transform := ""; willChange := "";
                            backgroundImage := ""; classList := [] |}))
                {| transform := ""; willChange := "";
                   backgroundImage := ""; classList := [] |}
                "./images/point_bg.jpg" eq_refl eq_refl
                (or_intror (or_introl
                   (conj eq_refl (conj eq_refl (conj eq_refl eq_refl))))))
    as (H1 & _ & H3 & _).
  split; [exact H1 | exact H3].
Defined.

(** X11: when no load succeeds (the JPEG chosen first fails, or the WebP
    and the fallback JPEG both fail) the point box and the timers are as
    they were, so the box still lacks [bg-loaded]; a later [load] or
    visible [visibilitychange] event then runs the whole preload again,
    issuing the probe and the image requests once more. *)
Theorem X11_failed_preload_is_retried
        (e : environment) (d : document) (b : point_box) :
  String.eqb (protocol e) "file:" = false ->
  pointBox d = Some b ->
  existsb (String.eqb "bg-loaded") (classList b) = false ->
  fetch e "./images/point_bg.jpg" = onerror ->
  (Z.eqb (webP_height e) 2 = true ->
   fetch e "./images/point_bg.webp" = onerror) ->
  pointBox (snd (aggressivePreloadImages e d)) = Some b /\
  timeouts (snd (aggressivePreloadImages e d)) = timeouts d /\
  on_load e (snd (aggressivePreloadImages e d))
  = unawaited (aggressivePreloadImages e
                 (snd (aggressivePreloadImages e d))) /\
  on_visibilitychange e false (snd (aggressivePreloadImages e d))
  = on_load e (snd (aggressivePreloadImages e d)) /\
  (List.length (images (snd (aggressivePreloadImages e d)))
   + 2 <= List.length (images (on_load e (snd (aggressivePreloadImages e d)))))%nat.
Proof.
  intros Hp Hb Hcls Hj Hw.
  assert (H : pointBox (snd (aggressivePreloadImages e d)) = Some b
              /\ timeouts (snd (aggressivePreloadImages e d)) = timeouts d).
  { rewrite (preload_cases e d Hp).
    destruct (Z.eqb (webP_height e) 2).
    - rewrite (Hw eq_refl), Hj. cbn [snd]. split; [exact Hb | reflexivity].
    - rewrite Hj. cbn [snd]. split; [exact Hb | reflexivity]. }
  destruct H as [Hbox Htime].
  assert (Hn : needs_background (snd (aggressivePreloadImages e d)) = true).
  { unfold needs_background. rewrite Hbox, Hcls. reflexivity. }
  split; [exact Hbox | split; [exact Htime | ] ].
  assert (Hl : on_load e (snd (aggressivePreloadImages e d))
               = unawaited (aggressivePreloadImages e
                              (snd (aggressivePreloadImages e d)))).
  { unfold on_load. rewrite Hn. reflexivity. }
  split; [exact Hl | split].
  - unfold on_visibilitychange. cbn [negb]. rewrite Hn. symmetry. exact Hl.
  - rewrite Hl.
    set (d1 := snd (aggressivePreloadImages e d)).
    rewrite (preload_cases e d1 Hp).
    destruct (Z.eqb (webP_height e) 2).
    + rewrite (Hw eq_refl), Hj. unfold unawaited. cbn [fst snd].
      autorewrite with preload_doc. rewrite !length_app. simpl. lia.
    + rewrite Hj. unfold unawaited, unhandledrejection. cbn [fst snd].
      autorewrite with preload_doc. rewrite !length_app. simpl. lia.
Qed.

Lemma X11_failed_preload_is_retried_witness :
  let e := {| protocol := "https:"; webP_height := 0;
              fetch := fun _ => onerror |} in
  let b := {| transform := ""; willChange := "";
              backgroundImage := ""; classList := [] |} in
  pointBox (snd (aggressivePreloadImages e (empty_document (Some b))))
  = Some b /\
  timeouts (snd (aggressivePreloadImages e (empty_document (Some b)))) = [].
Proof.
  cbv zeta.
  pose proof (X11_failed_preload_is_retried
                {| protocol := "https:"; webP_height := 0;
                   fetch := fun _ => onerror |}
                (empty_document
                   (Some {| transform := ""; willChange := "";
                            backgroundImage := ""; classList := [] |}))
                {| transform := ""; willChange := "";
                   backgroundImage := ""; classList := [] |}
                eq_refl eq_refl eq_refl eq_refl
                (fun H : Z.eqb 0 2 = true =>
                   False_ind _ (Bool.diff_false_true H)))
    as (H1 & H2 & _).
  split; [exact H1 | exact H2].
Defined.

(** X12: the [DOMContentLoaded] listener awaits the preload.  The await
    resumes (after a fulfilment or, through [catch], a rejection) in
    every case but one: off the [file:] protocol, in a browser that
    supports WebP, when the load of the WebP fails.  Then the promise is
    never settled, whether the fallback JPEG loads or not, and the
    listener never reaches the statements after the await. *)
Theorem X12_await_hangs_on_failed_webp (e : environment) (d : document) :
  await_preload e d = None
  <-> (String.eqb (protocol e) "file:" = false /\
       Z.eqb (webP_height e) 2 = true /\
       fetch e "./images/point_bg.webp" = onerror).
Proof.
  unfold await_preload.
  destruct (String.eqb (protocol e) "file:") eqn:Hp.
  - unfold aggressivePreloadImages. rewrite Hp.
    split; [discriminate | intros (H & _); discriminate].
  - rewrite (preload_cases e d Hp).
    destruct (Z.eqb (webP_height e) 2).
    + destruct (fetch e "./images/point_bg.webp").
      * split; [discriminate | intros (_ & _ & H); discriminate].
      * split; [intros _; repeat split | reflexivity].
    + destruct (fetch e "./images/point_bg.jpg");
        (split; [discriminate | intros (_ & H & _); discriminate]).
Qed.

(** X13: the preload does not look for the point box before loading: on
    a page without one (and off the [file:] protocol) it still issues
    the probe and the image request and appends the preload link, though
    no background can be applied; the [load] and [visibilitychange]
    listeners, which do look for the box, then do nothing. *)
Theorem X13_preload_without_point_box (e : environment) (d : document) :
  String.eqb (protocol e) "file:" = false ->
  pointBox d = None ->
  pointBox (snd (aggressivePreloadImages e d)) = None /\
  timeouts (snd (aggressivePreloadImages e d)) = timeouts d /\
  (List.length (images d) + 2
   <= List.length (images (snd (aggressivePreloadImages e d))))%nat /\
  List.length (head (snd (aggressivePreloadImages e d)))
  = S (List.length (head d)) /\
  on_load e d = d /\
  forall hidden : bool, on_visibilitychange e hidden d = d.
Proof.
  intros Hp Hb.
  assert (Ha : forall path d0, pointBox d0 = None ->
                               applyBackgroundImage path d0 = d0).
  { intros path d0 H. unfold applyBackgroundImage. rewrite H. reflexivity. }
  assert (Hn : needs_background d = false).
  { unfold needs_background. rewrite Hb. reflexivity. }
  rewrite (preload_cases e d Hp).
  split; [ | split; [ | split; [ | split; [ | split] ] ] ].
  - destruct (Z.eqb (webP_height e) 2);
      destruct (fetch e "./images/point_bg.webp");
      destruct (fetch e "./images/point_bg.jpg"); cbn [snd];
      rewrite ?Ha by exact Hb; exact Hb.
  - destruct (Z.eqb (webP_height e) 2);
      destruct (fetch e "./images/point_bg.webp");
      destruct (fetch e "./images/point_bg.jpg"); cbn [snd];
      rewrite ?Ha by exact Hb; reflexivity.
  - destruct (Z.eqb (webP_height e) 2);
      destruct (fetch e "./images/point_bg.webp");
      destruct (fetch e "./images/point_bg.jpg"); cbn [snd];
      autorewrite with preload_doc; rewrite !length_app; simpl; lia.
  - destruct (Z.eqb (webP_height e) 2);
      destruct (fetch e "./images/point_bg.webp");
      destruct (fetch e "./images/point_bg.jpg"); cbn [snd];
      autorewrite with preload_doc; rewrite !length_app; simpl; lia.
  - unfold on_load. rewrite Hn. reflexivity.
  - intros hidden. unfold on_visibilitychange. rewrite Hn.
    destruct hidden; reflexivity.
Qed.

Lemma X13_preload_without_point_box_witness :
  let e := {| protocol := "https:"; webP_height := 2;
              fetch := fun _ => onload |} in
  pointBox (snd (aggressivePreloadImages e (empty_document None))) = None /\
  on_load e (empty_document None) = empty_document None.
Proof.
  cbv zeta.
  pose proof (X13_preload_without_point_box
                {| protocol := "https:"; webP_height := 2;
                   fetch := fun _ => onload |}
                (empty_document None) eq_refl eq_refl)
    as (H1 & _ & _ & _ & H5 & _).
  split; [exact H1 | exact H5].
Defined.

End PreloadExtras.

(* ================================================================== *)
(** * The utilities *)
(* ================================================================== *)

Section UtilTheorems.
Import Util.
Local Open Scope Z_scope.

(** X14: [isMobile] and [getPointRadius] share the breakpoint 768: a
    width is mobile exactly when its radius is 70 or 75, and a width
    that is not mobile has radius 100 or 120. *)
Theorem X14_isMobile_iff_small_radius (w : Z) :
  (isMobile w = true <-> getPointRadius w <= 75) /\
  (isMobile w = false <-> 100 <= getPointRadius w).
Proof.
  unfold isMobile. pose proof (getPointRadius_cases w) as H.
  destruct (Z.leb_spec w 768); split; split; intros; try lia;
    try reflexivity; try discriminate.
Qed.

Lemma checkLibraries_first (at_poll : nat -> libraries) (k fuel start : nat) :
  (forall j, (start <= j < start + k)%nat -> all_defined (at_poll j) = false) ->
  all_defined (at_poll (start + k)%nat) = true ->
  (k < fuel)%nat ->
  checkLibraries at_poll start fuel = Some (start + k)%nat.
Proof.
  revert fuel start. induction k as [ | k IH]; intros fuel start Hno Hyes Hf.
  - destruct fuel as [ | fuel]; [lia | ]. cbn [checkLibraries].
    rewrite Nat.add_0_r in Hyes. rewrite Hyes. f_equal. lia.
  - destruct fuel as [ | fuel]; [lia | ]. cbn [checkLibraries].
    rewrite (Hno start) by lia.
    replace (start + S k)%nat with (S start + k)%nat by lia.
    apply IH.
    + intros j Hj. apply Hno. lia.
    + replace (S start + k)%nat with (start + S k)%nat by lia. exact Hyes.
    + lia.
Qed.

Lemma checkLibraries_none (at_poll : nat -> libraries) (fuel start : nat) :
  (forall j, (start <= j < start + fuel)%nat ->
             all_defined (at_poll j) = false) ->
  checkLibraries at_poll start fuel = None.
Proof.
  revert start. induction fuel as [ | fuel IH]; intros start Hno.
  - reflexivity.
  - cbn [checkLibraries]. rewrite (Hno start) by lia.
    apply IH. intros j Hj. apply Hno. lia.
Qed.

Lemma checkLibraries_some (at_poll : nat -> libraries) (fuel start k : nat) :
  checkLibraries at_poll start fuel = Some k ->
  (start <= k < start + fuel)%nat /\
  all_defined (at_poll k) = true /\
  forall j, (start <= j < k)%nat -> all_defined (at_poll j) = false.
Proof.
  revert start. induction fuel as [ | fuel IH]; intros start H.
  - discriminate.
  - cbn [checkLibraries] in H.
    destruct (all_defined (at_poll start)) eqn:E.
    + injection H as <-. split; [lia | split; [exact E | ] ].
      intros j Hj. lia.
    + destruct (IH (S start) H) as (Hk & Hy & Hn).
      split; [lia | split; [exact Hy | ] ].
      intros j Hj. destruct (Nat.eq_dec j start) as [-> | Hne];
        [exact E | apply Hn; lia].
Qed.

(** X15: [waitForLibraries] resolves at the first poll at which gsap,
    AOS and ScrollTrigger are all three defined, after one timer of
    100 ms for each earlier poll, and it resolves at no other poll; as
    long as one of the three is missing (AOS included) it keeps polling
    and the promise stays pending. *)
Theorem X15_waitForLibraries_first_poll
        (at_poll : nat -> libraries) (fuel k : nat) :
  (waitForLibraries at_poll fuel = Some k
   <-> (k < fuel)%nat /\
       all_defined (at_poll k) = true /\
       forall j, (j < k)%nat -> all_defined (at_poll j) = false) /\
  (waitForLibraries at_poll fuel = None
   <-> forall j, (j < fuel)%nat -> all_defined (at_poll j) = false) /\
  (forall s, all_defined s = true
             <-> gsap s = true /\ AOS s = true /\ ScrollTrigger s = true).
Proof.
  unfold waitForLibraries. split; [ | split].
  - split.
    + intros H. destruct (checkLibraries_some _ _ _ _ H) as (Hk & Hy & Hn).
      split; [lia | split; [exact Hy | ] ]. intros j Hj. apply Hn. lia.
    + intros (Hk & Hy & Hn).
      apply (checkLibraries_first at_poll k fuel 0).
      * intros j Hj. apply Hn. lia.
      * exact Hy.
      * exact Hk.
  - split.
    + intros H j Hj.
      destruct (all_defined (at_poll j)) eqn:E; [ | reflexivity].
      assert (Hex : exists m, (m <= j)%nat /\ all_defined (at_poll m) = true /\
                    forall i, (i < m)%nat -> all_defined (at_poll i) = false).
      { clear H Hj. induction j as [j IHj] using lt_wf_ind.
        destruct (existsb (fun i => all_defined (at_poll i)) (seq 0 j)) eqn:X.
        - apply existsb_exists in X. destruct X as (i & Hi & Ei).
          apply in_seq in Hi.
          destruct (IHj i ltac:(lia) Ei) as (m & Hm & Ey & En).
          exists m. split; [lia | split; assumption].
        - exists j. split; [lia | split; [exact E | ] ].
          intros i Hi.
          destruct (all_defined (at_poll i)) eqn:Ei; [ | reflexivity].
          assert (Y : existsb (fun i => all_defined (at_poll i)) (seq 0 j)
                      = true).
          { apply existsb_exists. exists i. split; [ | exact Ei].
            apply in_seq. lia. }
          congruence. }
      destruct Hex as (m & Hm & Ey & En).
      rewrite (checkLibraries_first at_poll m fuel 0) in H;
        [discriminate | | exact Ey | lia].
      intros i Hi. apply En. lia.
    + intros H. apply checkLibraries_none. intros j Hj. apply H. lia.
  - intros s. unfold all_defined. rewrite !andb_true_iff. tauto.
Qed.

(** ** [debounce] *)

Section DebounceFacts.
Variable A : Type.

Lemma filter_all_out (i : nat) (l : list (timer A)) :
  (forall x, In x l -> id A x = i) ->
  filter (fun x => negb (Nat.eqb (id A x) i)) l = [].
Proof.
  induction l as [ | x l IH]; intros H; [reflexivity | ].
  cbn [filter]. rewrite (H x (or_introl eq_refl)), Nat.eqb_refl.
  cbn [negb]. apply IH. intros y Hy. apply H. right. exact Hy.
Qed.

Lemma clear_owned (s : debounced A) :
  owned A s -> pending A (clearTimeout A (timeoutId A s) (table A s)) = [].
Proof.
  intros H. unfold clearTimeout.
  destruct (timeoutId A s) as [i | ] eqn:E.
  - cbn [pending]. apply filter_all_out. intros x Hx.
    specialize (H x Hx). rewrite E in H. injection H as ->. reflexivity.
  - destruct (pending A (table A s)) as [ | x l] eqn:P; [reflexivity | ].
    specialize (H x). rewrite P, E in H.
    specialize (H (or_introl eq_refl)). discriminate.
Qed.

Lemma call_pending (delay now : Z) (a : A) (s : debounced A) :
  owned A s ->
  pending A (table A (debounced_call A delay now a s))
  = [ {| id := next_id A (table A s); due := now + delay; args := a |} ] /\
  applied A (debounced_call A delay now a s) = applied A s /\
  owned A (debounced_call A delay now a s).
Proof.
  intros H. pose proof (clear_owned s H) as Hc.
  assert (Hn : next_id A (clearTimeout A (timeoutId A s) (table A s))
               = next_id A (table A s)).
  { unfold clearTimeout. destruct (timeoutId A s); reflexivity. }
  unfold owned, debounced_call, setTimeout. cbv beta iota zeta.
  cbn [pending table applied timeoutId].
  rewrite Hc, Hn. cbn [app]. split; [reflexivity | split; [reflexivity | ] ].
  intros x [<- | [] ]. reflexivity.
Qed.

Lemma elapse_owned (now : Z) (s : debounced A) :
  owned A s -> owned A (elapse A now s).
Proof.
  intros H x Hx. unfold elapse in Hx. cbn [pending table] in Hx.
  apply filter_In in Hx. apply H. apply Hx.
Qed.

Lemma step_owned (delay : Z) (e : event A) (s : debounced A) :
  owned A s -> owned A (step A delay s e).
Proof.
  intros H. destruct e as [now a | now]; cbn [step].
  - apply call_pending. exact H.
  - apply elapse_owned. exact H.
Qed.

Lemma run_owned (delay : Z) (l : list (event A)) (s : debounced A) :
  owned A s -> owned A (run A delay l s).
Proof.
  revert s. unfold run. induction l as [ | e l IH]; intros s H.
  - exact H.
  - cbn [fold_left]. apply IH. apply step_owned. exact H.
Qed.

Lemma fresh_owned : owned A (fresh A).
Proof. intros x []. Qed.

Lemma run_app_debounce (delay : Z) (l1 l2 : list (event A))
      (s : debounced A) :
  run A delay (l1 ++ l2) s = run A delay l2 (run A delay l1 s).
Proof. unfold run. apply fold_left_app. Qed.

Lemma filter_split_length {B} (f : B -> bool) (l : list B) :
  (List.length (filter f l) + List.length (filter (fun x => negb (f x)) l)
   = List.length l)%nat.
Proof.
  induction l as [ | x l IH]; [reflexivity | ].
  cbn [filter]. destruct (f x); cbn [negb List.length]; lia.
Qed.

(** One step: the timers pending never exceed one after it, and
    applications are paid for by calls. *)
Lemma step_budget (delay : Z) (e : event A) (s : debounced A) :
  owned A s ->
  (List.length (pending A (table A s)) <= 1)%nat ->
  (List.length (pending A (table A (step A delay s e))) <= 1)%nat /\
  (List.length (pending A (table A (step A delay s e)))
   + List.length (applied A (step A delay s e))
   <= List.length (pending A (table A s)) + List.length (applied A s)
      + calls A [e])%nat.
Proof.
  intros Ho H1. destruct e as [now a | now]; cbn [step].
  - destruct (call_pending delay now a s Ho) as (Hp & Ha & _).
    rewrite Hp, Ha. unfold calls. cbn [filter List.length]. lia.
  - unfold elapse, calls. cbn [pending table applied filter List.length].
    rewrite length_app, length_map.
    pose proof (filter_split_length (fun x => (due A x <=? now)%Z)
                                    (pending A (table A s))) as Hf.
    lia.
Qed.

Lemma run_budget (delay : Z) (l : list (event A)) (s : debounced A) :
  owned A s ->
  (List.length (pending A (table A s)) <= 1)%nat ->
  (List.length (pending A (table A (run A delay l s))) <= 1)%nat /\
  (List.length (pending A (table A (run A delay l s)))
   + List.length (applied A (run A delay l s))
   <= List.length (pending A (table A s)) + List.length (applied A s)
      + calls A l)%nat.
Proof.
  revert s. induction l as [ | e l IH]; intros s Ho H1.
  - unfold run, calls. cbn [fold_left filter List.length].
    split; [exact H1 | lia].
  - destruct (step_budget delay e s Ho H1) as [Hs1 Hs2].
    destruct (IH (step A delay s e) (step_owned delay e s Ho) Hs1)
      as [Hr1 Hr2].
    change (run A delay (e :: l) s) with (run A delay l (step A delay s e)).
    split; [exact Hr1 | ].
    assert (Hc : calls A (e :: l) = (calls A [e] + calls A l)%nat).
    { unfold calls. change (e :: l) with ([e] ++ l).
      rewrite filter_app, length_app. reflexivity. }
    rewrite Hc. lia.
Qed.

(** X16: a debounced function never has more than one timer pending,
    and [func] is applied at most once for each call: after any stretch
    of calls and elapsed time, applications made plus timers pending do
    not exceed the calls. *)
Theorem X16_debounce_one_timer_one_run_per_call
        (delay : Z) (l : list (event A)) :
  (List.length (pending A (table A (run A delay l (fresh A)))) <= 1)%nat /\
  (List.length (pending A (table A (run A delay l (fresh A))))
   + List.length (applied A (run A delay l (fresh A)))
   <= calls A l)%nat.
Proof.
  destruct (run_budget delay l (fresh A) fresh_owned) as [H1 H2].
  - cbn. lia.
  - split; [exact H1 | ]. cbn [fresh pending table applied List.length] in H2.
    lia.
Qed.

(** X17: the last call wins.  After any history, a call at time [now]
    cancels whatever timer was pending, so the arguments of a call
    superseded before its timer fired are never applied; if the clock
    then reaches [now + delay] with no call in between, [func] is
    applied once, to the arguments of that call, and nothing stays
    pending; before [now + delay] nothing is applied. *)
Theorem X17_debounce_last_call_wins
        (delay now later : Z) (a : A) (l : list (event A)) :
  let before := run A delay l (fresh A) in
  let after := run A delay (l ++ [call A now a; tick A later]) (fresh A) in
  (now + delay <= later ->
   applied A after = applied A before ++ [a] /\
   pending A (table A after) = []) /\
  (later < now + delay ->
   applied A after = applied A before /\
   map (args A) (pending A (table A after)) = [a]).
Proof.
  cbv zeta. rewrite run_app_debounce.
  pose proof (run_owned delay l (fresh A) fresh_owned) as Ho.
  set (s := run A delay l (fresh A)) in *.
  destruct (call_pending delay now a s Ho) as (Hp & Ha & _).
  unfold run. cbn [fold_left step]. unfold elapse.
  cbn [pending table applied]. rewrite Hp, Ha. cbn [filter due].
  split; intros H.
  - destruct (Z.leb_spec (now + delay) later); [ | lia].
    cbn [negb map args]. split; reflexivity.
  - destruct (Z.leb_spec (now + delay) later); [lia | ].
    cbn [negb map args]. rewrite app_nil_r. split; reflexivity.
Qed.

End DebounceFacts.

Lemma X17_debounce_last_call_wins_witness :
  applied nat
    (run nat 300
         ([call nat 0 1%nat; call nat 100 2%nat]
            ++ [call nat 200 3%nat; tick nat 500])
         (fresh nat))
  = [3%nat] /\
  applied nat
    (run nat 300 ([] ++ [call nat 200 3%nat; tick nat 499]) (fresh nat))
  = [].
Proof.
  split.
  - apply (proj1 (X17_debounce_last_call_wins nat 300 200 500 3%nat
                    [call nat 0 1%nat; call nat 100 2%nat])). lia.
  - apply (proj2 (X17_debounce_last_call_wins nat 300 200 499 3%nat [])). lia.
Defined.

End UtilTheorems.

(* ================================================================== *)
(** * The consultation modal: validation, agreement, closing *)
(* ================================================================== *)

Section ModalTheorems.
Import Modal.
Local Open Scope string_scope.
Local Open Scope list_scope.

Lemma trimStart_nil (s : jsstring) :
  trimStart s = [] <-> forallb is_whitespace s = true.
Proof.
  induction s as [ | c s IH]; [split; reflexivity | ].
  cbn [trimStart forallb]. destruct (is_whitespace c); cbn [andb].
  - exact IH.
  - split; discriminate.
Qed.

Lemma trimStart_head (s r : jsstring) (c : N) :
  trimStart s = c :: r -> is_whitespace c = false.
Proof.
  induction s as [ | x s IH]; [discriminate | ].
  cbn [trimStart]. destruct (is_whitespace x) eqn:E; [exact IH | ].
  intros H. injection H as <- _. exact E.
Qed.

(** [s.trim()] is empty exactly when [s] is made of white space. *)
Lemma trim_nil (s : jsstring) :
  trim s = [] <-> forallb is_whitespace s = true.
Proof.
  unfold trim. split.
  - intros H. apply trimStart_nil.
    destruct (trimStart s) as [ | c r] eqn:E; [reflexivity | exfalso].
    pose proof (trimStart_head s r c E) as Hc.
    assert (Hr : trimStart (rev (c :: r)) = []).
    { destruct (trimStart (rev (c :: r))) as [ | y l]; [reflexivity | ].
      cbn [rev] in H. destruct (rev l); discriminate. }
    apply trimStart_nil in Hr. rewrite forallb_forall in Hr.
    specialize (Hr c). rewrite <- in_rev in Hr.
    rewrite (Hr (or_introl eq_refl)) in Hc. discriminate.
  - intros H. apply trimStart_nil in H. rewrite H. reflexivity.
Qed.

Lemma falsy_trim (s : jsstring) :
  falsy (trim s) = forallb is_whitespace s.
Proof.
  destruct (forallb is_whitespace s) eqn:E.
  - apply trim_nil in E. rewrite E. reflexivity.
  - destruct (trim s) eqn:T; [ | reflexivity].
    apply trim_nil in T. congruence.
Qed.

Lemma falsy_nil (s : jsstring) : falsy s = true <-> s = [].
Proof. destruct s; split; intros; try reflexivity; discriminate. Qed.

(** What the submit listener does when every element exists. *)
Lemma submit_cases (d : document) (ct nm ph : input) (two third : checkbox) :
  consultType d = Some ct -> inputName d = Some nm ->
  inputPhone d = Some ph ->
  agree_two d = Some two -> agree_third d = Some third ->
  submit d
  = if falsy (value ct) then
      Done (alert "상담신청 항목을 선택해주세요." d)
    else if forallb is_whitespace (value nm) then
      Done (alert "이름을 입력해주세요." d)
    else if forallb is_whitespace (value ph) then
      Done (alert "휴대폰 번호를 입력해주세요." d)
    else if negb (checked two && checked third) then
      Done (alert "필수 약관에 동의해주세요." d)
    else
      Done (closeConsultationModal
              (alert "상담 신청이 완료되었습니다."
                 (console_log "상담신청:"
                    (value ct, value nm, value ph) d))).
Proof.
  intros H1 H2 H3 H4 H5. unfold submit.
  rewrite H1, H2, H3, H4, H5, !falsy_trim.
  destruct (falsy (value ct)); [reflexivity | ].
  destruct (forallb is_whitespace (value nm)); [reflexivity | ].
  destruct (forallb is_whitespace (value ph)); [reflexivity | ].
  destruct (checked two), (checked third); reflexivity.
Qed.

Lemma console_close (d : document) :
  console (closeConsultationModal d) = console d.
Proof. unfold closeConsultationModal. destruct (modal d); reflexivity. Qed.

Lemma alerts_close (d : document) :
  alerts (closeConsultationModal d) = alerts d.
Proof. unfold closeConsultationModal. destruct (modal d); reflexivity. Qed.

(** X18: with every element of the form present, a click on the submit
    button is accepted (the request is logged, the completion alert
    shown and the modal closed) exactly when a consultation type is
    selected, the name and the phone number each hold something other
    than white space, and both required boxes are checked. *)
Theorem X18_submit_accepted_iff_valid
        (d : document) (ct nm ph : input) (two third : checkbox) :
  consultType d = Some ct -> inputName d = Some nm ->
  inputPhone d = Some ph ->
  agree_two d = Some two -> agree_third d = Some third ->
  (submit d
   = Done (closeConsultationModal
             (alert "상담 신청이 완료되었습니다."
                (console_log "상담신청:" (value ct, value nm, value ph) d)))
   <-> value ct <> [] /\
       forallb is_whitespace (value nm) = false /\
       forallb is_whitespace (value ph) = false /\
       checked two = true /\ checked third = true).
Proof.
  intros H1 H2 H3 H4 H5.
  rewrite (submit_cases d ct nm ph two third H1 H2 H3 H4 H5).
  assert (Hne : forall m,
             Done (alert m d)
             <> Done (closeConsultationModal
                        (alert "상담 신청이 완료되었습니다."
                           (console_log "상담신청:"
                              (value ct, value nm, value ph) d)))).
  { intros m H. injection H as H. apply (f_equal console) in H.
    rewrite console_close in H. cbn [console alert console_log] in H.
    apply (f_equal (@List.length _)) in H. rewrite length_app in H.
    simpl in H. lia. }
  destruct (falsy (value ct)) eqn:Ect.
  - apply falsy_nil in Ect. split; [intros H; destruct (Hne _ H) | ].
    intros (H & _). contradiction.
  - assert (Hct : value ct <> []).
    { intros H. apply falsy_nil in H. congruence. }
    destruct (forallb is_whitespace (value nm)) eqn:En.
    + split; [intros H; destruct (Hne _ H) | intros (_ & H & _); discriminate].
    + destruct (forallb is_whitespace (value ph)) eqn:Ep.
      * split; [intros H; destruct (Hne _ H)
               | intros (_ & _ & H & _); discriminate].
      * destruct (checked two), (checked third); cbn [andb negb];
          try (split; [intros H; destruct (Hne _ H)
                      | intros (_ & _ & _ & Ha & Hb); discriminate]).
        split; [intros _; repeat split; assumption | reflexivity].
Qed.

Lemma X18_submit_accepted_iff_valid_witness :
  let filled := {| value := [75; 105; 109]%N; defaultValue := [];
                   in_form := true |} in
  let ticked := {| checked := true; defaultChecked := false;
                   in_modal := true; box_in_form := true |} in
  let d := with_boxes (Some ticked) (Some ticked) (Some ticked)
             (with_inputs (Some filled) (Some filled) (Some filled)
                          blank_document) in
  submit d
  = Done (closeConsultationModal
            (alert "상담 신청이 완료되었습니다."
               (console_log "상담신청:"
                  ([75; 105; 109]%N, [75; 105; 109]%N, [75; 105; 109]%N) d))).
Proof.
  cbv zeta.
  apply (X18_submit_accepted_iff_valid
           (with_boxes
              (Some {| checked := true; defaultChecked := false;
                       in_modal := true; box_in_form := true |})
              (Some {| checked := true; defaultChecked := false;
                       in_modal := true; box_in_form := true |})
              (Some {| checked := true; defaultChecked := false;
                       in_modal := true; box_in_form := true |})
              (with_inputs
                 (Some {| value := [75; 105; 109]%N; defaultValue := [];
                          in_form := true |})
                 (Some {| value := [75; 105; 109]%N; defaultValue := [];
                          in_form := true |})
                 (Some {| value := [75; 105; 109]%N; defaultValue := [];
                          in_form := true |})
                 blank_document))
           _ _ _ _ _ eq_refl eq_refl eq_refl eq_refl eq_refl).
  repeat split; try reflexivity. discriminate.
Defined.

(** X19: a rejected click shows exactly one alert, the one of the first
    check that fails in the order type, name, phone, agreement, and
    changes nothing else: the fields keep what was typed and the modal
    stays as it is. *)
Theorem X19_submit_rejection_first_failure
        (d : document) (ct nm ph : input) (two third : checkbox) :
  consultType d = Some ct -> inputName d = Some nm ->
  inputPhone d = Some ph ->
  agree_two d = Some two -> agree_third d = Some third ->
  (value ct = [] ->
   submit d = Done (alert "상담신청 항목을 선택해주세요." d)) /\
  (value ct <> [] -> forallb is_whitespace (value nm) = true ->
   submit d = Done (alert "이름을 입력해주세요." d)) /\
  (value ct <> [] -> forallb is_whitespace (value nm) = false ->
   forallb is_whitespace (value ph) = true ->
   submit d = Done (alert "휴대폰 번호를 입력해주세요." d)) /\
  (value ct <> [] -> forallb is_whitespace (value nm) = false ->
   forallb is_whitespace (value ph) = false ->
   checked two = false \/ checked third = false ->
   submit d = Done (alert "필수 약관에 동의해주세요." d)) /\
  (forall m, alerts (alert m d) = alerts d ++ [m] /\
             consultType (alert m d) = consultType d /\
             inputName (alert m d) = inputName d /\
             inputPhone (alert m d) = inputPhone d /\
             modal (alert m d) = modal d /\
             console (alert m d) = console d).
Proof.
  intros H1 H2 H3 H4 H5.
  rewrite (submit_cases d ct nm ph two third H1 H2 H3 H4 H5).
  assert (F : value ct <> [] -> falsy (value ct) = false).
  { intros H. destruct (falsy (value ct)) eqn:E; [ | reflexivity].
    apply falsy_nil in E. contradiction. }
  split; [ | split; [ | split; [ | split] ] ].
  - intros ->. reflexivity.
  - intros Hc Hn. rewrite (F Hc), Hn. reflexivity.
  - intros Hc Hn Hp. rewrite (F Hc), Hn, Hp. reflexivity.
  - intros Hc Hn Hp Ha. rewrite (F Hc), Hn, Hp.
    destruct Ha as [-> | ->]; [ | rewrite andb_false_r]; reflexivity.
  - intros m. repeat split.
Qed.

Lemma X19_submit_rejection_first_failure_witness :
  submit (with_inputs
            (Some {| value := [49]%N; defaultValue := []; in_form := true |})
            (Some {| value := [32; 12288]%N; defaultValue := [];
                     in_form := true |})
            (Some blank_input) blank_document)
  = Done (alert "이름을 입력해주세요."
            (with_inputs
               (Some {| value := [49]%N; defaultValue := [];
                        in_form := true |})
               (Some {| value := [32; 12288]%N; defaultValue := [];
                        in_form := true |})
               (Some blank_input) blank_document)).
Proof.
  apply (proj1 (proj2 (X19_submit_rejection_first_failure
           (with_inputs
              (Some {| value := [49]%N; defaultValue := [];
                       in_form := true |})
              (Some {| value := [32; 12288]%N; defaultValue := [];
                       in_form := true |})
              (Some blank_input) blank_document)
           _ _ _ _ _ eq_refl eq_refl eq_refl eq_refl eq_refl))).
  - discriminate.
  - reflexivity.
Defined.

(** What the submit listener can leave behind. *)
Lemma submit_shape (d : document) :
  document_of (submit d) = d \/
  (exists m, document_of (submit d) = alert m d) \/
  (exists m l v,
      document_of (submit d)
      = closeConsultationModal (alert m (console_log l v d))).
Proof.
  unfold submit.
  destruct (consultType d) as [ct | ]; [ | left; reflexivity].
  destruct (inputName d) as [nm | ]; [ | left; reflexivity].
  destruct (inputPhone d) as [ph | ]; [ | left; reflexivity].
  destruct (falsy (value ct)); [right; left; eexists; reflexivity | ].
  destruct (falsy (trim (value nm))); [right; left; eexists; reflexivity | ].
  destruct (falsy (trim (value ph))); [right; left; eexists; reflexivity | ].
  destruct (agree_two d) as [two | ]; [ | left; reflexivity].
  destruct (negb (checked two)); [right; left; eexists; reflexivity | ].
  destruct (agree_third d) as [third | ]; [ | left; reflexivity].
  destruct (negb (checked third)); [right; left; eexists; reflexivity | ].
  right; right. do 3 eexists. reflexivity.
Qed.

Lemma close_keeps_agreement (d : document) :
  boxes_in_modal d = true -> agree_consistent d = true ->
  boxes_in_modal (closeConsultationModal d) = true /\
  agree_consistent (closeConsultationModal d) = true.
Proof.
  unfold boxes_in_modal, agree_consistent, closeConsultationModal.
  destruct (modal d) as [cl | ]; [ | intros; split; assumption].
  cbn [agree_all agree_two agree_third].
  destruct (agree_all d) as [a | ]; [ | discriminate].
  destruct (agree_two d) as [two | ]; [ | discriminate].
  destruct (agree_third d) as [third | ]; [ | discriminate].
  cbn [option_map]. unfold uncheck_in_modal, reset_box.
  intros H _. apply andb_true_iff in H. destruct H as [H Hc].
  apply andb_true_iff in H. destruct H as [Ha Hb].
  destruct (form d && box_in_form a), (form d && box_in_form two),
    (form d && box_in_form third); cbn [in_modal];
    rewrite Ha, Hb, Hc; split; reflexivity.
Qed.

Lemma dispatch_keeps_agreement (e : event) (d : document) :
  boxes_in_modal d = true -> agree_consistent d = true ->
  boxes_in_modal (dispatch e d) = true /\
  agree_consistent (dispatch e d) = true.
Proof.
  intros Hb Hc.
  destruct e as [ | | | | key | | | | v | v | v]; cbn [dispatch].
  - unfold openConsultationModal. destruct (modal d); split; assumption.
  - destruct (closeBtn d); [apply close_keeps_agreement | split]; assumption.
  - destruct (modal d) eqn:Em; [ | split; assumption].
    destruct (modal_bg d); [apply close_keeps_agreement | split]; assumption.
  - destruct (submitBtn d); [ | split; assumption].
    destruct (submit_shape d) as [-> | [(m & ->) | (m & l & v & ->)] ].
    + split; assumption.
    + split; assumption.
    + apply close_keeps_agreement; assumption.
  - unfold on_keydown.
    destruct (String.eqb key "Escape" && _);
      [apply close_keeps_agreement | split]; assumption.
  - unfold boxes_in_modal, agree_consistent in *.
    destruct (agree_all d) as [a | ]; [ | discriminate].
    destruct (agree_two d) as [two | ]; [ | discriminate].
    destruct (agree_third d) as [third | ]; [ | discriminate].
    cbn. split; [exact Hb | ].
    destruct (checked a); reflexivity.
  - unfold boxes_in_modal, agree_consistent in *.
    destruct (agree_all d) as [a | ]; [ | discriminate].
    destruct (agree_two d) as [two | ]; [ | discriminate].
    destruct (agree_third d) as [third | ]; [ | discriminate].
    cbn. split; [exact Hb | ].
    destruct (checked two), (checked third); reflexivity.
  - unfold boxes_in_modal, agree_consistent in *.
    destruct (agree_all d) as [a | ]; [ | discriminate].
    destruct (agree_two d) as [two | ]; [ | discriminate].
    destruct (agree_third d) as [third | ]; [ | discriminate].
    cbn. split; [exact Hb | ].
    destruct (checked two), (checked third); reflexivity.
  - split; assumption.
  - split; assumption.
  - split; assumption.
Qed.

(** X20: the agree-all checkbox stays in step with the two required
    ones.  When the three checkboxes exist inside the modal and agree-all
    is checked exactly when both required boxes are (as when nothing is
    checked), this still holds after any sequence of clicks on the
    boxes, typing, submitting, opening and closing. *)
Theorem X20_agree_all_stays_consistent (l : list event) (d : document) :
  boxes_in_modal d = true ->
  agree_consistent d = true ->
  boxes_in_modal (run l d) = true /\ agree_consistent (run l d) = true.
Proof.
  revert d. unfold run. induction l as [ | e l IH]; intros d Hb Hc.
  - split; assumption.
  - cbn [fold_left].
    destruct (dispatch_keeps_agreement e d Hb Hc) as [Hb' Hc'].
    apply IH; assumption.
Qed.

Lemma X20_agree_all_stays_consistent_witness :
  agree_consistent
    (run [click_agree_all; click_agree_two; open_modal; click_agree_two;
          click_close; click_agree_third] blank_document)
  = true.
Proof.
  apply (X20_agree_all_stays_consistent
           [click_agree_all; click_agree_two; open_modal; click_agree_two;
            click_close; click_agree_third] blank_document);
    reflexivity.
Defined.

Lemma remove_class_twice (c : string) (l : list string) :
  remove_class c (remove_class c l) = remove_class c l.
Proof.
  unfold remove_class. induction l as [ | x l IH]; [reflexivity | ].
  cbn [filter]. destruct (String.eqb c x) eqn:E; cbn [negb filter].
  - exact IH.
  - rewrite E. cbn [negb]. f_equal. exact IH.
Qed.

Lemma has_class_remove (c : string) (l : list string) :
  has_class c (remove_class c l) = false.
Proof.
  unfold has_class, remove_class. induction l as [ | x l IH];
    [reflexivity | ].
  cbn [filter]. destruct (String.eqb c x) eqn:E; cbn [negb existsb].
  - exact IH.
  - rewrite E, IH. reflexivity.
Qed.

Lemma has_class_add (c : string) (l : list string) :
  has_class c (add_class c l) = true.
Proof.
  unfold has_class, add_class.
  destruct (existsb (String.eqb c) l) eqn:E; [exact E | ].
  rewrite existsb_app. cbn [existsb]. rewrite String.eqb_refl.
  rewrite orb_true_r. reflexivity.
Qed.

Lemma input_done_twice (f : bool) (i : input) :
  clear_input (reset_input f (clear_input (reset_input f i)))
  = clear_input (reset_input f i).
Proof.
  unfold clear_input, reset_input.
  destruct (f && in_form i) eqn:E; cbn [in_form defaultValue value];
    rewrite E; reflexivity.
Qed.

Lemma box_done_twice (f : bool) (b : checkbox) :
  uncheck_in_modal (reset_box f (uncheck_in_modal (reset_box f b)))
  = uncheck_in_modal (reset_box f b).
Proof.
  unfold uncheck_in_modal, reset_box.
  destruct (f && box_in_form b) eqn:E; cbn [in_modal box_in_form];
    destruct (in_modal b) eqn:M;
    cbn [in_modal box_in_form defaultChecked checked]; rewrite ?E;
    cbn [in_modal box_in_form defaultChecked checked]; rewrite ?M;
    reflexivity.
Qed.

(** X21: closing the modal (when it exists) hides it, restores the
    scrolling of the body, empties the three fields and unchecks every
    checkbox inside the modal, whatever the form's reset would have
    restored; closing again changes nothing more. *)
Theorem X21_close_resets_and_is_idempotent
        (d : document) (cl : list string) :
  modal d = Some cl ->
  active (closeConsultationModal d) = false /\
  body_overflow (closeConsultationModal d) = "" /\
  (forall i, consultType (closeConsultationModal d) = Some i \/
             inputName (closeConsultationModal d) = Some i \/
             inputPhone (closeConsultationModal d) = Some i ->
             value i = []) /\
  (forall b, agree_all (closeConsultationModal d) = Some b \/
             agree_two (closeConsultationModal d) = Some b \/
             agree_third (closeConsultationModal d) = Some b \/
             In b (other_boxes (closeConsultationModal d)) ->
             in_modal b = true -> checked b = false) /\
  closeConsultationModal (closeConsultationModal d)
  = closeConsultationModal d.
Proof.
  intros Hm. unfold active, closeConsultationModal. rewrite Hm.
  cbn [modal body_overflow consultType inputName inputPhone agree_all
       agree_two agree_third other_boxes form closeBtn modal_bg submitBtn
       alerts console].
  assert (Hbox : forall b0 b,
             uncheck_in_modal (reset_box (form d) b0) = b ->
             in_modal b = true -> checked b = false).
  { intros b0 b <-. unfold uncheck_in_modal, reset_box.
    destruct (form d && box_in_form b0); cbn [in_modal];
      destruct (in_modal b0) eqn:M; cbn [in_modal checked];
      intros H; try reflexivity; congruence. }
  split; [apply has_class_remove | ]. split; [reflexivity | ].
  split; [ | split].
  - intros i [H | [H | H] ];
      [destruct (consultType d) | destruct (inputName d)
       | destruct (inputPhone d)];
      cbn [option_map] in H; try discriminate;
      injection H as <-; reflexivity.
  - intros b [H | [H | [H | H] ] ].
    + destruct (agree_all d); cbn [option_map] in H; [ | discriminate].
      injection H as H. apply (Hbox _ _ H).
    + destruct (agree_two d); cbn [option_map] in H; [ | discriminate].
      injection H as H. apply (Hbox _ _ H).
    + destruct (agree_third d); cbn [option_map] in H; [ | discriminate].
      injection H as H. apply (Hbox _ _ H).
    + apply in_map_iff in H. destruct H as (b0 & H & _). apply (Hbox _ _ H).
  - rewrite remove_class_twice.
    f_equal;
      try (match goal with
           | |- option_map _ (option_map _ ?x) = _ =>
               destruct x; cbn [option_map]; [f_equal | reflexivity]
           end;
           first [apply input_done_twice | apply box_done_twice]).
    rewrite map_map. apply map_ext. intros b. apply box_done_twice.
Qed.

Lemma X21_close_resets_and_is_idempotent_witness :
  active (closeConsultationModal (openConsultationModal blank_document))
  = false /\
  closeConsultationModal
    (closeConsultationModal (openConsultationModal blank_document))
  = closeConsultationModal (openConsultationModal blank_document).
Proof.
  pose proof (X21_close_resets_and_is_idempotent
                (openConsultationModal blank_document)
                (add_class "active" ["modal"]) eq_refl)
    as (H1 & _ & _ & _ & H5).
  split; [exact H1 | exact H5].
Defined.

(** The accepted case of the submit listener. *)
Lemma submit_accepts
      (d : document) (ct nm ph : input) (two third : checkbox) :
  consultType d = Some ct -> inputName d = Some nm ->
  inputPhone d = Some ph ->
  agree_two d = Some two -> agree_third d = Some third ->
  value ct <> [] ->
  forallb is_whitespace (value nm) = false ->
  forallb is_whitespace (value ph) = false ->
  checked two = true -> checked third = true ->
  submit d
  = Done (closeConsultationModal
            (alert "상담 신청이 완료되었습니다."
               (console_log "상담신청:" (value ct, value nm, value ph) d))).
Proof.
  intros H1 H2 H3 H4 H5 Vc Vn Vp Ct Ch.
  rewrite (submit_cases d ct nm ph two third H1 H2 H3 H4 H5).
  destruct (falsy (value ct)) eqn:E; [apply falsy_nil in E; contradiction | ].
  rewrite Vn, Vp, Ct, Ch. reflexivity.
Qed.

(** X22: the keyboard closes the modal only through Escape and only
    while it is shown: any other key, and Escape while the modal is not
    active (or missing), change nothing; Escape after opening closes it,
    so that it is no longer active. *)
Theorem X22_escape_closes_only_when_active (key : string) (d : document) :
  (String.eqb key "Escape" = false -> on_keydown key d = d) /\
  (active d = false -> on_keydown key d = d) /\
  (active d = true ->
   on_keydown "Escape" d = closeConsultationModal d /\
   active (on_keydown "Escape" d) = false) /\
  (modal d <> None ->
   active (dispatch (keydown "Escape") (dispatch open_modal d)) = false /\
   body_overflow (dispatch (keydown "Escape") (dispatch open_modal d)) = "").
Proof.
  unfold on_keydown, active. split; [ | split; [ | split] ].
  - intros ->. reflexivity.
  - intros H. rewrite H, andb_false_r. reflexivity.
  - intros H. rewrite H. cbn [String.eqb andb].
    change (String.eqb "Escape" "Escape") with true. cbn [andb].
    split; [reflexivity | ].
    destruct (modal d) as [cl | ] eqn:Em; [ | discriminate].
    unfold closeConsultationModal. rewrite Em. cbn [modal].
    apply has_class_remove.
  - intros Hm. destruct (modal d) as [cl | ] eqn:Em; [ | contradiction].
    cbn [dispatch]. unfold openConsultationModal. rewrite Em.
    unfold on_keydown. cbn [modal]. rewrite has_class_add.
    change (String.eqb "Escape" "Escape") with true. cbn [andb].
    unfold closeConsultationModal. cbn [modal body_overflow].
    split; [apply has_class_remove | reflexivity].
Qed.

Lemma X22_escape_closes_only_when_active_witness :
  on_keydown "Enter" (openConsultationModal blank_document)
  = openConsultationModal blank_document /\
  active (dispatch (keydown "Escape") (dispatch open_modal blank_document))
  = false.
Proof.
  split.
  - apply (proj1 (X22_escape_closes_only_when_active
                    "Enter" (openConsultationModal blank_document))).
    reflexivity.
  - apply (proj2 (proj2 (proj2 (X22_escape_closes_only_when_active
                    "Escape" blank_document)))).
    discriminate.
Defined.

(** X23: an accepted submission cannot be repeated by clicking again:
    on a page with the modal, closing after the acceptance empties the
    consultation type, so a second click right after an accepted one is
    rejected with the alert asking for the type, and the request is
    logged once. *)
Theorem X23_second_click_after_accept_is_rejected
        (d : document) (cl : list string) (ct nm ph : input)
        (two third : checkbox) :
  modal d = Some cl ->
  consultType d = Some ct -> inputName d = Some nm ->
  inputPhone d = Some ph ->
  agree_two d = Some two -> agree_third d = Some third ->
  value ct <> [] ->
  forallb is_whitespace (value nm) = false ->
  forallb is_whitespace (value ph) = false ->
  checked two = true -> checked third = true ->
  exists d1 : document,
    submit d = Done d1 /\
    submit d1 = Done (alert "상담신청 항목을 선택해주세요." d1) /\
    console d1 = console d ++ [("상담신청:", (value ct, value nm, value ph))] /\
    console (document_of (submit d1)) = console d1.
Proof.
  intros Hm H1 H2 H3 H4 H5 Vc Vn Vp Ct Ch.
  pose proof (submit_accepts d ct nm ph two third
                             H1 H2 H3 H4 H5 Vc Vn Vp Ct Ch) as Hs.
  eexists. split; [exact Hs | ].
  set (d0 := alert "상담 신청이 완료되었습니다."
               (console_log "상담신청:" (value ct, value nm, value ph) d)).
  assert (Hm0 : modal d0 = Some cl) by exact Hm.
  assert (E : submit (closeConsultationModal d0)
              = Done (alert "상담신청 항목을 선택해주세요."
                        (closeConsultationModal d0))).
  { unfold submit, closeConsultationModal. rewrite Hm0.
    cbn [consultType inputName inputPhone].
    change (consultType d0) with (consultType d).
    change (inputName d0) with (inputName d).
    change (inputPhone d0) with (inputPhone d).
    rewrite H1, H2, H3. reflexivity. }
  split; [exact E | split].
  - rewrite console_close. reflexivity.
  - rewrite E. reflexivity.
Qed.

Lemma X23_second_click_after_accept_is_rejected_witness :
  let filled := {| value := [75; 105; 109]%N; defaultValue := [];
                   in_form := true |} in
  let ticked := {| checked := true; defaultChecked := false;
                   in_modal := true; box_in_form := true |} in
  let d := with_boxes (Some ticked) (Some ticked) (Some ticked)
             (with_inputs (Some filled) (Some filled) (Some filled)
                          blank_document) in
  exists d1 : document,
    submit d = Done d1 /\
    submit d1 = Done (alert "상담신청 항목을 선택해주세요." d1) /\
    console d1
    = console d
      ++ [("상담신청:",
           ([75; 105; 109]%N, [75; 105; 109]%N, [75; 105; 109]%N))] /\
    console (document_of (submit d1)) = console d1.
Proof.
  cbv zeta.
  apply (X23_second_click_after_accept_is_rejected
           (with_boxes
              (Some {| checked := true; defaultChecked := false;
                       in_modal := true; box_in_form := true |})
              (Some {| checked := true; defaultChecked := false;
                       in_modal := true; box_in_form := true |})
              (Some {| checked := true; defaultChecked := false;
                       in_modal := true; box_in_form := true |})
              (with_inputs
                 (Some {| value := [75; 105; 109]%N; defaultValue := [];
                          in_form := true |})
                 (Some {| value := [75; 105; 109]%N; defaultValue := [];
                          in_form := true |})
                 (Some {| value := [75; 105; 109]%N; defaultValue := [];
                          in_form := true |})
                 blank_document))
           ["modal"] _ _ _ _ _
           eq_refl eq_refl eq_refl eq_refl eq_refl eq_refl);
    try reflexivity; discriminate.
Defined.

End ModalTheorems.

(* ================================================================== *)
(** * The hamburger menu *)
(* ================================================================== *)

Section HeaderTheorems.
Import Header.
Local Open Scope string_scope.
Local Open Scope list_scope.

Lemma existsb_active_add (cl : list string) :
  existsb (String.eqb "active") (add_class "active" cl) = true.
Proof.
  unfold add_class. destruct (existsb (String.eqb "active") cl) eqn:E;
    [exact E | ].
  rewrite existsb_app. cbn [existsb]. rewrite String.eqb_refl.
  rewrite orb_true_r. reflexivity.
Qed.

Lemma existsb_active_remove (cl : list string) :
  existsb (String.eqb "active") (remove_class "active" cl) = false.
Proof.
  unfold remove_class. induction cl as [ | x cl IH]; [reflexivity | ].
  cbn [filter]. destruct (String.eqb "active" x) eqn:E; cbn [negb existsb].
  - exact IH.
  - rewrite E, IH. reflexivity.
Qed.

(** [closeMenu] with the three elements present: the view shows the menu
    closed and the flag is off. *)
Lemma closeMenu_matches (d : document) (label : string)
      (cl : list string) (i : icon) :
  hamBtn d = Some label -> hamGnb d = Some cl -> hamIcon d = Some i ->
  threw (closeMenu d) = false /\
  menu_matches (document_of (closeMenu d)) = true /\
  isMenuOpen (document_of (closeMenu d)) = false.
Proof.
  intros Hb Hg Hi. unfold closeMenu. rewrite Hg, Hi.
  cbn [hamGnb hamIcon hamBtn with_menu main scrollY gsap_defined].
  rewrite Hb. cbn [option_map].
  destruct (main d && JsNum.lt (scrollY d) (JsNum.Fin 20) && gsap_defined d);
    cbn [threw document_of]; unfold menu_matches;
    cbn [hamBtn hamGnb hamIcon isMenuOpen gsap_to with_menu src];
    rewrite existsb_active_remove; repeat split.
Qed.

Lemma click_hamBtn_matches (d : document) (label : string)
      (cl : list string) (i : icon) :
  hamBtn d = Some label -> hamGnb d = Some cl -> hamIcon d = Some i ->
  threw (click_hamBtn d) = false /\
  menu_matches (document_of (click_hamBtn d)) = true /\
  isMenuOpen (document_of (click_hamBtn d)) = negb (isMenuOpen d).
Proof.
  intros Hb Hg Hi. unfold click_hamBtn.
  cbn [isMenuOpen with_menu]. destruct (isMenuOpen d) eqn:E; cbn [negb].
  - destruct (closeMenu_matches
                (with_menu (hamGnb d) (hamIcon d) (hamBtn d) false d)
                label cl i Hb Hg Hi) as (H1 & H2 & H3).
    split; [exact H1 | split; [exact H2 | exact H3] ].
  - cbn [hamGnb hamIcon hamBtn with_menu main gsap_defined isMenuOpen].
    rewrite Hg, Hi, Hb. cbn [option_map].
    destruct (main d && gsap_defined d);
      cbn [threw document_of]; unfold menu_matches;
      cbn [hamBtn hamGnb hamIcon isMenuOpen gsap_to with_menu src];
      rewrite existsb_active_add; repeat split.
Qed.

(** What no listener changes. *)
Lemma closeMenu_static (d : document) :
  button_listener (document_of (closeMenu d)) = button_listener d /\
  link_listeners (document_of (closeMenu d)) = link_listeners d /\
  header_trigger (document_of (closeMenu d)) = header_trigger d /\
  main (document_of (closeMenu d)) = main d /\
  gsap_defined (document_of (closeMenu d)) = gsap_defined d /\
  (hamGnb d = None -> hamGnb (document_of (closeMenu d)) = None) /\
  (main d && gsap_defined d = false ->
   tweens (document_of (closeMenu d)) = tweens d).
Proof.
  unfold closeMenu. destruct (hamGnb d) as [cl | ] eqn:Eh;
    [ | cbn [document_of]; repeat split; intros _; exact Eh].
  destruct (hamIcon d) as [i | ]; [ | repeat split; discriminate].
  cbn [hamGnb hamIcon hamBtn with_menu main scrollY gsap_defined].
  destruct (main d) eqn:Em, (gsap_defined d) eqn:Eg,
    (JsNum.lt (scrollY d) (JsNum.Fin 20));
    cbn [andb document_of]; repeat split; try discriminate; assumption.
Qed.

Lemma click_hamBtn_static (d : document) :
  button_listener (document_of (click_hamBtn d)) = button_listener d /\
  link_listeners (document_of (click_hamBtn d)) = link_listeners d /\
  header_trigger (document_of (click_hamBtn d)) = header_trigger d /\
  main (document_of (click_hamBtn d)) = main d /\
  gsap_defined (document_of (click_hamBtn d)) = gsap_defined d /\
  (hamGnb d = None -> hamGnb (document_of (click_hamBtn d)) = None) /\
  (main d && gsap_defined d = false ->
   tweens (document_of (click_hamBtn d)) = tweens d).
Proof.
  unfold click_hamBtn. cbn [isMenuOpen with_menu].
  destruct (negb (isMenuOpen d)).
  - cbn [hamGnb hamIcon hamBtn with_menu main gsap_defined].
    destruct (hamGnb d) as [cl | ] eqn:Eh;
      [ | cbn [document_of hamGnb with_menu]; repeat split;
          intros _; exact Eh].
    destruct (hamIcon d) as [i | ]; [ | repeat split; discriminate].
    destruct (main d) eqn:Em, (gsap_defined d) eqn:Eg;
      cbn [andb document_of]; repeat split; try discriminate; assumption.
  - apply (closeMenu_static
             (with_menu (hamGnb d) (hamIcon d) (hamBtn d) false d)).
Qed.

Lemma dispatch_static (e : event) (d : document) :
  button_listener (document_of (dispatch e d)) = button_listener d /\
  link_listeners (document_of (dispatch e d)) = link_listeners d /\
  header_trigger (document_of (dispatch e d)) = header_trigger d /\
  main (document_of (dispatch e d)) = main d /\
  gsap_defined (document_of (dispatch e d)) = gsap_defined d /\
  (hamGnb d = None -> hamGnb (document_of (dispatch e d)) = None) /\
  (gsap_defined d = false \/ (main d = false /\ header_trigger d = false) ->
   tweens (document_of (dispatch e d)) = tweens d).
Proof.
  assert (Hoff : gsap_defined d = false \/
                 (main d = false /\ header_trigger d = false) ->
                 main d && gsap_defined d = false).
  { intros [-> | [-> _] ]; [apply andb_false_r | reflexivity]. }
  destruct e as [ | | y | | | | ]; cbn [dispatch].
  - destruct (button_listener d) eqn:E;
      [ | cbn [document_of]; repeat split; try assumption;
          intros H; exact H].
    destruct (click_hamBtn_static d) as (H1 & H2 & H3 & H4 & H5 & H6 & H7).
    rewrite E in H1.
    repeat split; try assumption. intros H. apply H7, Hoff, H.
  - destruct (link_listeners d) eqn:E;
      [cbn [document_of]; repeat split; try assumption;
       intros H; exact H | ].
    destruct (closeMenu_static d) as (H1 & H2 & H3 & H4 & H5 & H6 & H7).
    rewrite E in H2.
    repeat split; try assumption. intros H. apply H7, Hoff, H.
  - cbn [document_of]. repeat split. intros H; exact H.
  - cbn [document_of]. unfold onEnter.
    destruct (header_trigger d) eqn:Et, (gsap_defined d) eqn:Eg;
      repeat split; try assumption; try (intros H; exact H);
      intros [H | [_ H] ]; discriminate.
  - cbn [document_of]. unfold onLeave.
    destruct (header_trigger d) eqn:Et, (gsap_defined d) eqn:Eg;
      repeat split; try assumption; try (intros H; exact H);
      intros [H | [_ H] ]; discriminate.
  - cbn [document_of]. unfold onEnterBack.
    destruct (header_trigger d) eqn:Et, (gsap_defined d) eqn:Eg;
      repeat split; try assumption; try (intros H; exact H);
      intros [H | [_ H] ]; discriminate.
  - cbn [document_of]. unfold onLeaveBack.
    destruct (header_trigger d) eqn:Et, (gsap_defined d) eqn:Eg;
      repeat split; try assumption; try (intros H; exact H);
      intros [H | [_ H] ]; discriminate.
Qed.

Lemma run_static (l : list event) (d : document) :
  button_listener (run l d) = button_listener d /\
  link_listeners (run l d) = link_listeners d /\
  header_trigger (run l d) = header_trigger d /\
  main (run l d) = main d /\
  gsap_defined (run l d) = gsap_defined d /\
  (hamGnb d = None -> hamGnb (run l d) = None) /\
  (gsap_defined d = false \/ (main d = false /\ header_trigger d = false) ->
   tweens (run l d) = tweens d).
Proof.
  revert d. unfold run. induction l as [ | e l IH]; intros d.
  - repeat split. intros H; exact H.
  - cbn [fold_left].
    destruct (dispatch_static e d) as (H1 & H2 & H3 & H4 & H5 & H6 & H7).
    destruct (IH (document_of (dispatch e d)))
      as (I1 & I2 & I3 & I4 & I5 & I6 & I7).
    rewrite I1, I2, I3, I4, I5, H1, H2, H3, H4, H5.
    repeat split.
    + intros H. apply I6, H6, H.
    + intros H. rewrite I7; [apply H7, H | ].
      rewrite H3, H4, H5. exact H.
Qed.

Lemma dispatch_matches (e : event) (d : document) :
  menu_matches d = true -> menu_matches (document_of (dispatch e d)) = true.
Proof.
  intros H.
  assert (Hp : exists label cl i,
             hamBtn d = Some label /\ hamGnb d = Some cl /\
             hamIcon d = Some i).
  { unfold menu_matches in H.
    destruct (hamBtn d) as [label | ]; [ | discriminate].
    destruct (hamGnb d) as [cl | ]; [ | discriminate].
    destruct (hamIcon d) as [i | ]; [ | discriminate].
    exists label, cl, i. repeat split. }
  destruct Hp as (label & cl & i & Hb & Hg & Hi).
  destruct e as [ | | y | | | | ]; cbn [dispatch].
  - destruct (button_listener d); [ | exact H].
    apply (click_hamBtn_matches d label cl i Hb Hg Hi).
  - destruct (link_listeners d); [exact H | ].
    apply (closeMenu_matches d label cl i Hb Hg Hi).
  - exact H.
  - cbn [document_of]. unfold onEnter.
    destruct (header_trigger d), (gsap_defined d); exact H.
  - cbn [document_of]. unfold onLeave.
    destruct (header_trigger d), (gsap_defined d); exact H.
  - cbn [document_of]. unfold onEnterBack.
    destruct (header_trigger d), (gsap_defined d); exact H.
  - cbn [document_of]. unfold onLeaveBack.
    destruct (header_trigger d), (gsap_defined d); exact H.
Qed.

Lemma run_matches (l : list event) (d : document) :
  menu_matches d = true -> menu_matches (run l d) = true.
Proof.
  revert d. unfold run. induction l as [ | e l IH]; intros d H.
  - exact H.
  - cbn [fold_left]. apply IH. apply dispatch_matches. exact H.
Qed.

(** X24: what the page shows of the menu follows the flag
    [isMenuOpen].  With the button, the menu and the icon present, one
    click on the button is enough, whatever the markup showed before, for
    the class [active], the icon and the aria-label to say open exactly
    when the flag does; and this is kept by every later click on the
    button or on a menu link, and by scrolling. *)
Theorem X24_menu_view_follows_flag
        (l : list event) (d : document) (label : string)
        (cl : list string) (i : icon) :
  hamBtn d = Some label -> hamGnb d = Some cl -> hamIcon d = Some i ->
  threw (dispatch click_button (initHeader d)) = false /\
  menu_matches (run (click_button :: l) (initHeader d)) = true.
Proof.
  intros Hb Hg Hi.
  assert (Hb' : hamBtn (initHeader d) = Some label).
  { unfold initHeader. rewrite Hb. reflexivity. }
  assert (Hg' : hamGnb (initHeader d) = Some cl).
  { unfold initHeader. rewrite Hb. exact Hg. }
  assert (Hi' : hamIcon (initHeader d) = Some i).
  { unfold initHeader. rewrite Hb. exact Hi. }
  assert (Hl : button_listener (initHeader d) = true).
  { unfold initHeader. rewrite Hb. reflexivity. }
  destruct (click_hamBtn_matches (initHeader d) label cl i Hb' Hg' Hi')
    as (H1 & H2 & _).
  split.
  - cbn [dispatch]. rewrite Hl. exact H1.
  - change (run (click_button :: l) (initHeader d))
      with (run l (document_of (dispatch click_button (initHeader d)))).
    apply run_matches. cbn [dispatch]. rewrite Hl. exact H2.
Qed.

Lemma X24_menu_view_follows_flag_witness :
  let d := {| hamBtn := Some ""; hamGnb := Some ["ham_gnb"; "active"];
              hamIcon := Some {| src := "x.png"; alt := "" |};
              menuLinks := 3; main := true; scrollY := JsNum.Fin 0;
              gsap_defined := true; ScrollTrigger_defined := true;
              tweens := []; isMenuOpen := false;
              button_listener := false; link_listeners := 0;
              header_trigger := false |} in
  menu_matches
    (run (click_button :: [click_link; enter; click_button]) (initHeader d))
  = true.
Proof.
  cbv zeta.
  apply (X24_menu_view_follows_flag
           [click_link; enter; click_button]
           {| hamBtn := Some ""; hamGnb := Some ["ham_gnb"; "active"];
              hamIcon := Some {| src := "x.png"; alt := "" |};
              menuLinks := 3; main := true; scrollY := JsNum.Fin 0;
              gsap_defined := true; ScrollTrigger_defined := true;
              tweens := []; isMenuOpen := false;
              button_listener := false; link_listeners := 0;
              header_trigger := false |}
           "" ["ham_gnb"; "active"] {| src := "x.png"; alt := "" |}
           eq_refl eq_refl eq_refl).
Defined.

Lemma click_flips (d : document) :
  isMenuOpen (document_of (click_hamBtn d)) = negb (isMenuOpen d).
Proof.
  unfold click_hamBtn. cbn [isMenuOpen with_menu].
  destruct (isMenuOpen d); cbn [negb].
  - unfold closeMenu. cbn [hamGnb hamIcon with_menu].
    destruct (hamGnb d); [ | reflexivity].
    destruct (hamIcon d); [ | reflexivity].
    cbn [main scrollY gsap_defined with_menu].
    destruct (main d && JsNum.lt (scrollY d) (JsNum.Fin 20)
              && gsap_defined d); reflexivity.
  - cbn [hamGnb hamIcon with_menu].
    destruct (hamGnb d); [ | reflexivity].
    destruct (hamIcon d); [ | reflexivity].
    cbn [main gsap_defined with_menu].
    destruct (main d && gsap_defined d); reflexivity.
Qed.

(** X25: the button toggles: after [n] clicks on the hamburger button
    and nothing else, the menu flag is the starting flag flipped [n]
    times, so from a closed menu it is open exactly when [n] is odd;
    this holds even when the menu or the icon is missing and the
    listener throws. *)
Theorem X25_button_clicks_toggle (n : nat) (d : document) :
  button_listener d = true ->
  isMenuOpen (run (repeat click_button n) d)
  = xorb (isMenuOpen d) (Nat.odd n).
Proof.
  revert d. induction n as [ | n IH]; intros d Hl.
  - cbn. destruct (isMenuOpen d); reflexivity.
  - change (run (repeat click_button (S n)) d)
      with (run (repeat click_button n)
                (document_of (dispatch click_button d))).
    rewrite IH.
    + cbn [dispatch]. rewrite Hl, click_flips, Nat.odd_succ.
      rewrite <- Nat.negb_odd.
      destruct (isMenuOpen d), (Nat.odd n); reflexivity.
    + destruct (dispatch_static click_button d) as (H & _).
      rewrite H. exact Hl.
Qed.

Lemma X25_button_clicks_toggle_witness :
  let d := {| hamBtn := Some ""; hamGnb := None; hamIcon := None;
              menuLinks := 0; main := false; scrollY := JsNum.Fin 0;
              gsap_defined := false; ScrollTrigger_defined := false;
              tweens := []; isMenuOpen := false;
              button_listener := false; link_listeners := 0;
              header_trigger := false |} in
  isMenuOpen (run (repeat click_button 3) (initHeader d)) = true.
Proof.
  cbv zeta.
  apply (X25_button_clicks_toggle 3
           (initHeader
              {| hamBtn := Some ""; hamGnb := None; hamIcon := None;
                 menuLinks := 0; main := false; scrollY := JsNum.Fin 0;
                 gsap_defined := false; ScrollTrigger_defined := false;
                 tweens := []; isMenuOpen := false;
                 button_listener := false; link_listeners := 0;
                 header_trigger := false |})).
  reflexivity.
Defined.

(** X26: without a hamburger button [initHeader] returns before it sets
    anything up, the header's scroll trigger included, even on the main
    page with ScrollTrigger loaded: afterwards no click and no scroll
    callback issues a tween or changes the menu. *)
Theorem X26_no_button_no_header_setup (l : list event) (d : document) :
  hamBtn d = None ->
  button_listener d = false ->
  link_listeners d = 0%nat ->
  header_trigger d = false ->
  initHeader d = d /\
  tweens (run l (initHeader d)) = tweens d /\
  hamGnb (run l (initHeader d)) = hamGnb d /\
  hamIcon (run l (initHeader d)) = hamIcon d /\
  isMenuOpen (run l (initHeader d)) = isMenuOpen d.
Proof.
  intros Hb Hl Hk Ht.
  assert (E : initHeader d = d) by (unfold initHeader; rewrite Hb; reflexivity).
  rewrite E. split; [reflexivity | ].
  revert d Hb Hl Hk Ht E. unfold run.
  induction l as [ | e l IH]; intros d Hb Hl Hk Ht E.
  - repeat split.
  - cbn [fold_left].
    assert (Hd : exists y, document_of (dispatch e d) = d \/
                           document_of (dispatch e d) = with_scrollY y d).
    { destruct e as [ | | y | | | | ]; cbn [dispatch];
        rewrite ?Hl, ?Hk, ?Ht; cbn [document_of];
        try (exists (scrollY d); left; reflexivity).
      exists y. right. reflexivity. }
    destruct Hd as (y & [-> | ->]).
    + apply IH; assumption.
    + destruct (IH (with_scrollY y d)) as (H1 & H2 & H3 & H4);
        try assumption.
      * unfold initHeader. cbn [hamBtn with_scrollY]. rewrite Hb.
        reflexivity.
      * repeat split; assumption.
Qed.

Lemma X26_no_button_no_header_setup_witness :
  let d := {| hamBtn := None; hamGnb := Some ["ham_gnb"];
              hamIcon := None; menuLinks := 2; main := true;
              scrollY := JsNum.Fin 0;
              gsap_defined := true; ScrollTrigger_defined := true;
              tweens := []; isMenuOpen := false;
              button_listener := false; link_listeners := 0;
              header_trigger := false |} in
  tweens (run [enter; click_link; leave; click_button] (initHeader d)) = [].
Proof.
  cbv zeta.
  apply (X26_no_button_no_header_setup
           [enter; click_link; leave; click_button]
           {| hamBtn := None; hamGnb := Some ["ham_gnb"];
              hamIcon := None; menuLinks := 2; main := true;
              scrollY := JsNum.Fin 0;
              gsap_defined := true; ScrollTrigger_defined := true;
              tweens := []; isMenuOpen := false;
              button_listener := false; link_listeners := 0;
              header_trigger := false |});
    reflexivity.
Defined.

(** X27: on a page with the hamburger button but without the menu
    element [.ham_gnb], every click on the button ends in a TypeError,
    after any earlier clicks and scrolling: the listener reads
    [hamGnb.classList] without checking [hamGnb], which is only done for
    the button. *)
Theorem X27_click_without_menu_throws (l : list event) (d : document) :
  hamBtn d <> None ->
  hamGnb d = None ->
  dispatch click_button (run l (initHeader d))
  = Threw null_classList
      (with_menu None (hamIcon (run l (initHeader d)))
         (hamBtn (run l (initHeader d)))
         (negb (isMenuOpen (run l (initHeader d))))
         (run l (initHeader d))).
Proof.
  intros Hb Hg.
  assert (Hl : button_listener (initHeader d) = true).
  { unfold initHeader. destruct (hamBtn d); [reflexivity | contradiction]. }
  assert (Hg' : hamGnb (initHeader d) = None).
  { unfold initHeader. destruct (hamBtn d); exact Hg. }
  destruct (run_static l (initHeader d)) as (H1 & _ & _ & _ & _ & H6 & _).
  rewrite Hl in H1. specialize (H6 Hg').
  set (d1 := run l (initHeader d)) in *.
  cbn [dispatch]. rewrite H1. unfold click_hamBtn.
  cbn [isMenuOpen with_menu hamGnb hamIcon hamBtn].
  destruct (isMenuOpen d1) eqn:E; cbn [negb].
  - unfold closeMenu. cbn [hamGnb with_menu]. rewrite H6. reflexivity.
  - rewrite H6. reflexivity.
Qed.

Lemma X27_click_without_menu_throws_witness :
  let d := {| hamBtn := Some ""; hamGnb := None; hamIcon := None;
              menuLinks := 0; main := false; scrollY := JsNum.Fin 0;
              gsap_defined := false; ScrollTrigger_defined := false;
              tweens := []; isMenuOpen := false;
              button_listener := false; link_listeners := 0;
              header_trigger := false |} in
  threw (dispatch click_button (run [click_button] (initHeader d))) = true.
Proof.
  cbv zeta.
  rewrite (X27_click_without_menu_throws [click_button]
             {| hamBtn := Some ""; hamGnb := None; hamIcon := None;
                menuLinks := 0; main := false; scrollY := JsNum.Fin 0;
                gsap_defined := false; ScrollTrigger_defined := false;
                tweens := []; isMenuOpen := false;
                button_listener := false; link_listeners := 0;
                header_trigger := false |}).
  - reflexivity.
  - discriminate.
  - reflexivity.
Defined.

(** X28: the header is never tweened without gsap, and never off the
    main page: when [gsap] is undefined, or the page has no [.main]
    element, no sequence of clicks and scroll callbacks after
    [initHeader] calls [gsap.to]. *)
Theorem X28_no_tween_without_gsap_or_main (l : list event) (d : document) :
  header_trigger d = false ->
  gsap_defined d = false \/ main d = false ->
  tweens (run l (initHeader d)) = tweens d.
Proof.
  intros Ht H.
  destruct (run_static l (initHeader d)) as (_ & _ & _ & _ & _ & _ & H7).
  assert (E : tweens (initHeader d) = tweens d).
  { unfold initHeader. destruct (hamBtn d); reflexivity. }
  rewrite <- E. apply H7. unfold initHeader.
  destruct (hamBtn d) eqn:Eb; cbn [gsap_defined main header_trigger].
  - destruct H as [H | H]; [left; exact H | right].
    rewrite H. split; reflexivity.
  - destruct H as [H | H]; [left; exact H | right; split; assumption].
Qed.

Lemma X28_no_tween_without_gsap_or_main_witness :
  let d := {| hamBtn := Some ""; hamGnb := Some ["ham_gnb"];
              hamIcon := Some {| src := ""; alt := "" |};
              menuLinks := 2; main := false; scrollY := JsNum.Fin 0;
              gsap_defined := true; ScrollTrigger_defined := true;
              tweens := []; isMenuOpen := false;
              button_listener := false; link_listeners := 0;
              header_trigger := false |} in
  tweens (run [click_button; enter; click_link; leave_back] (initHeader d))
  = [].
Proof.
  cbv zeta.
  apply (X28_no_tween_without_gsap_or_main
           [click_button; enter; click_link; leave_back]
           {| hamBtn := Some ""; hamGnb := Some ["ham_gnb"];
              hamIcon := Some {| src := ""; alt := "" |};
              menuLinks := 2; main := false; scrollY := JsNum.Fin 0;
              gsap_defined := true; ScrollTrigger_defined := true;
              tweens := []; isMenuOpen := false;
              button_listener := false; link_listeners := 0;
              header_trigger := false |}).
  - reflexivity.
  - right. reflexivity.
Defined.

Lemma click_opens (d : document) (label : string) (cl : list string)
      (i : icon) :
  hamBtn d = Some label -> hamGnb d = Some cl -> hamIcon d = Some i ->
  isMenuOpen d = false -> main d = true -> gsap_defined d = true ->
  exists d',
    click_hamBtn d = Done d' /\
    hamBtn d' <> None /\ hamGnb d' <> None /\ hamIcon d' <> None /\
    isMenuOpen d' = true /\ main d' = true /\ gsap_defined d' = true /\
    scrollY d' = scrollY d /\ button_listener d' = button_listener d /\
    tweens d'
    = tweens d
      ++ [ {| target := ".header";
              vars := [("backgroundColor", "var(--bs-white)");
                       ("boxShadow", "0 2px 6px rgba(0,0,0,0.1)");
                       ("duration", "0.3")] |};
           {| target := ".header li a:not(.on)";
              vars := [("color", "var(--bs-black)");
                       ("duration", "0.3")] |} ].
Proof.
  intros Hb Hg Hi Ho Hm Hs. unfold click_hamBtn.
  cbn [isMenuOpen with_menu hamGnb hamIcon hamBtn main gsap_defined].
  rewrite Ho, Hg, Hi, Hb, Hm, Hs. cbn [negb andb option_map].
  eexists. split; [reflexivity | ].
  cbn [hamBtn hamGnb hamIcon isMenuOpen main gsap_defined scrollY
       button_listener tweens gsap_to with_menu].
  rewrite <- app_assoc.
  repeat split; try discriminate; assumption.
Qed.

Lemma click_closes (d : document) (label : string) (cl : list string)
      (i : icon) :
  hamBtn d = Some label -> hamGnb d = Some cl -> hamIcon d = Some i ->
  isMenuOpen d = true -> main d = true -> gsap_defined d = true ->
  tweens (document_of (click_hamBtn d))
  = tweens d
    ++ (if JsNum.lt (scrollY d) (JsNum.Fin 20)
        then [ {| target := ".header";
                  vars := [("backgroundColor", "transparent");
                           ("boxShadow", "none"); ("duration", "0.3")] |};
               {| target := ".header li a:not(.on)";
                  vars := [("color", "var(--bs-white)");
                           ("duration", "0.3")] |} ]
        else []).
Proof.
  intros Hb Hg Hi Ho Hm Hs. unfold click_hamBtn.
  cbn [isMenuOpen with_menu]. rewrite Ho. cbn [negb].
  unfold closeMenu.
  cbn [hamGnb hamIcon hamBtn with_menu main scrollY gsap_defined].
  rewrite Hg, Hi, Hm, Hs. rewrite andb_true_r. cbn [andb].
  destruct (JsNum.lt (scrollY d) (JsNum.Fin 20));
    cbn [document_of tweens gsap_to with_menu].
  - rewrite <- app_assoc. reflexivity.
  - rewrite app_nil_r. reflexivity.
Qed.

(** X29: opening the menu on the main page (with gsap) turns the header
    white; closing it turns the header transparent again only when the
    page is scrolled less than 20 px, so after opening and closing the
    menu further down the page no tween undoes the white header. *)
Theorem X29_close_restores_header_only_near_top
        (d : document) (label : string) (cl : list string) (i : icon) :
  hamBtn d = Some label -> hamGnb d = Some cl -> hamIcon d = Some i ->
  main d = true -> gsap_defined d = true ->
  tweens (run [click_button; click_button] (initHeader d))
  = (tweens d
     ++ [ {| target := ".header";
             vars := [("backgroundColor", "var(--bs-white)");
                      ("boxShadow", "0 2px 6px rgba(0,0,0,0.1)");
                      ("duration", "0.3")] |};
          {| target := ".header li a:not(.on)";
             vars := [("color", "var(--bs-black)");
                      ("duration", "0.3")] |} ])
    ++ (if JsNum.lt (scrollY d) (JsNum.Fin 20)
        then [ {| target := ".header";
                  vars := [("backgroundColor", "transparent");
                           ("boxShadow", "none"); ("duration", "0.3")] |};
               {| target := ".header li a:not(.on)";
                  vars := [("color", "var(--bs-white)");
                           ("duration", "0.3")] |} ]
        else []).
Proof.
  intros Hb Hg Hi Hm Hs.
  set (d0 := initHeader d).
  assert (H0 : hamBtn d0 = Some label /\ hamGnb d0 = Some cl /\
               hamIcon d0 = Some i /\ isMenuOpen d0 = false /\
               main d0 = true /\ gsap_defined d0 = true /\
               button_listener d0 = true /\ scrollY d0 = scrollY d /\
               tweens d0 = tweens d).
  { unfold d0, initHeader. rewrite Hb. cbn. repeat split; assumption. }
  destruct H0 as (Hb0 & Hg0 & Hi0 & Ho0 & Hm0 & Hs0 & Hl0 & Hy0 & Ht0).
  destruct (click_opens d0 label cl i Hb0 Hg0 Hi0 Ho0 Hm0 Hs0)
    as (d1 & E1 & Hb1 & Hg1 & Hi1 & Ho1 & Hm1 & Hs1 & Hy1 & Hl1 & Ht1).
  unfold run. cbn [fold_left dispatch]. rewrite Hl0, E1.
  cbn [document_of]. rewrite Hl1, Hl0.
  destruct (hamBtn d1) as [label1 | ] eqn:B1; [ | contradiction].
  destruct (hamGnb d1) as [cl1 | ] eqn:G1; [ | contradiction].
  destruct (hamIcon d1) as [i1 | ] eqn:I1; [ | contradiction].
  rewrite (click_closes d1 label1 cl1 i1 B1 G1 I1 Ho1 Hm1 Hs1).
  rewrite Ht1, Hy1, Hy0, Ht0. reflexivity.
Qed.

Lemma X29_close_restores_header_only_near_top_witness :
  let d := {| hamBtn := Some ""; hamGnb := Some ["ham_gnb"];
              hamIcon := Some {| src := ""; alt := "" |};
              menuLinks := 2; main := true; scrollY := JsNum.Fin 500;
              gsap_defined := true; ScrollTrigger_defined := true;
              tweens := []; isMenuOpen := false;
              button_listener := false; link_listeners := 0;
              header_trigger := false |} in
  List.length (tweens (run [click_button; click_button] (initHeader d)))
  = 2%nat.
Proof.
  cbv zeta.
  rewrite (X29_close_restores_header_only_near_top
             {| hamBtn := Some ""; hamGnb := Some ["ham_gnb"];
                hamIcon := Some {| src := ""; alt := "" |};
                menuLinks := 2; main := true; scrollY := JsNum.Fin 500;
                gsap_defined := true; ScrollTrigger_defined := true;
                tweens := []; isMenuOpen := false;
                button_listener := false; link_listeners := 0;
                header_trigger := false |}
             "" ["ham_gnb"] {| src := ""; alt := "" |}
             eq_refl eq_refl eq_refl eq_refl eq_refl).
  cbn [scrollY].
  destruct (JsNum.lt (JsNum.Fin 500) (JsNum.Fin 20)) eqn:E.
  - apply lt_Fin in E. exfalso. lra.
  - reflexivity.
Defined.

End HeaderTheorems.
